(** * AntiVirusLite: the scanning core, embedded and verified

    A shallow embedding of the Python sources under [src/core]:
    - [scan_optimizer.py] and the memory-throttle handler of [engine.py]
      (module [Optimizer]);
    - [system_health_monitor.py] (module [Health]);
    - [scan_intensity_manager.py] (module [Intensity]);
    - [resource_throttler.py] (module [Throttler]);
    - the file-system effects shared by the scanner and the quarantine
      stores (module [Sys]), [ScanEngine.scan_file] (module [Scan]),
      [QuarantineManager] (module [QStore]) and the quarantine half of
      [ScanEngine] (module [EngineQuarantine]);
    - the rest of [scan_optimizer.py] (module [Batching]), the thread
      callbacks and the file batches of [engine.py] (module [EnginePool]),
      the vocabulary of scan results (module [ScanReport]), the listing of
      the store and what a restore guarantees (modules [Listing],
      [Restoring], [EngineSafety]), further hosts for the throttler (module
      [ThrottlerReadings]), the manual profile choice (module
      [IntensityAdmin]), the health history and the alerts (module
      [HealthHistory]) and [latency_monitor.py] (module [Latency]).

    Conventions.  Python [int] is [Z].  Python [float] values that the code
    only compares, scales and truncates (percentages, rates, fractions) are
    rationals [Q]; the constants involved ([0.8], [1.2], [85.0], ...) and the
    integer ranges they meet are far from the region where binary rounding
    would change a comparison or a truncation.  Wall-clock instants are [Z]
    microseconds, the resolution of [datetime].  Byte strings are
    [list byte]; text is [string].

    The first part of the file holds the definitions, module by module; the
    second part holds the lemmas and theorems about them. *)

From Stdlib Require Import ZArith QArith Qround Lia Lqa List Sorted String Ascii Bool.
From Stdlib Require Strings.Byte.
From stdpp Require Import base option list gmap strings pretty.

Set Default Proof Using "Type".

#[global] Instance byte_eq_dec : EqDecision Byte.byte := Byte.byte_eq_dec.

(** * Part I: the program *)

(** ** Python numerics *)

Module Py.

(** [int(x)] on a float: truncation towards zero. *)
Definition int (x : Q) : Z := Z.quot (Qnum x) (Z.pos (Qden x)).

(** Comparison of two floats, as booleans. *)
Definition ltb (x y : Q) : bool := negb (Qle_bool y x).
Definition gtb (x y : Q) : bool := ltb y x.

(** Truthiness of a float: anything but zero. *)
Definition truthy (x : Q) : bool := negb (Qeq_bool x 0).

End Py.

(** ** [scan_optimizer.py]: batch sizing *)

Module Optimizer.

(** [ScanBatch]: the files of a batch, their size and the wall-clock
    instants (seconds) around the scan of the batch. *)
Record ScanBatch := mkBatch {
  files : list string;
  total_size : Z;
  start_time : Q;
  end_time : Q
}.

Definition duration (b : ScanBatch) : Q :=
  if Py.truthy (end_time b) && Py.truthy (start_time b)
  then end_time b - start_time b
  else 0.

Definition files_per_second (b : ScanBatch) : Q :=
  if Py.gtb (duration b) 0
  then inject_Z (Z.of_nat (length (files b))) / duration b
  else 0.

(** The fields of [ScanOptimizer] that batch sizing reads and writes. *)
Record ScanOptimizer := mkOptimizer {
  target_speed : Z;
  batch_size : Z;
  max_batch_size : Z;
  min_batch_size : Z
}.

(** [ScanOptimizer.__init__] *)
Definition init (target : Z) : ScanOptimizer :=
  {| target_speed := target;
     batch_size := 1000;
     max_batch_size := 5000;
     min_batch_size := 100 |}.

Definition set_batch_size (o : ScanOptimizer) (n : Z) : ScanOptimizer :=
  {| target_speed := target_speed o;
     batch_size := n;
     max_batch_size := max_batch_size o;
     min_batch_size := min_batch_size o |}.

(** [int(self.batch_size * f)] *)
Definition scaled (o : ScanOptimizer) (f : Q) : Z :=
  Py.int (inject_Z (batch_size o) * f).

(** [ScanOptimizer.adjust_batch_size] *)
Definition adjust_batch_size (o : ScanOptimizer) (last_batch : ScanBatch)
  : ScanOptimizer :=
  if Py.ltb (files_per_second last_batch) (inject_Z (target_speed o) * (8 # 10))
  then set_batch_size o (Z.max (min_batch_size o) (scaled o (8 # 10)))
  else if Py.gtb (files_per_second last_batch) (inject_Z (target_speed o) * (12 # 10))
  then set_batch_size o (Z.min (max_batch_size o) (scaled o (12 # 10)))
  else o.

(** [ScanEngine._handle_memory_throttle], the callback the engine registers
    for the [memory] resource; it writes the optimizer's batch size. *)
Definition handle_memory_throttle (o : ScanOptimizer) (reduction : Q)
  : ScanOptimizer :=
  set_batch_size o (Z.max (min_batch_size o) (scaled o (1 - reduction))).

(** The two mutators of the batch size, as calls. *)
Inductive call :=
| AdjustBatchSize (last_batch : ScanBatch)
| MemoryThrottle (reduction : Q).

Definition step (o : ScanOptimizer) (c : call) : ScanOptimizer :=
  match c with
  | AdjustBatchSize b => adjust_batch_size o b
  | MemoryThrottle r => handle_memory_throttle o r
  end.

Definition run (cs : list call) (o : ScanOptimizer) : ScanOptimizer :=
  fold_left step cs o.

(** A reduction fraction as a throttle rule carries it: not negative. *)
Definition reduction_ok (c : call) : Prop :=
  match c with
  | AdjustBatchSize _ => True
  | MemoryThrottle r => (0 <= r)%Q
  end.

Definition in_bounds (o : ScanOptimizer) : Prop :=
  (min_batch_size o = 100 /\ max_batch_size o = 5000 /\
   100 <= batch_size o <= 5000)%Z.

(** Example input: a slow batch, a memory throttle by 40%, then a fast batch. *)
Definition sample_calls : list call :=
  [ AdjustBatchSize (mkBatch ["a"; "b"] 10 (1 # 1) (2 # 1));
    MemoryThrottle (4 # 10);
    AdjustBatchSize (mkBatch (repeat "f" 5000) 10 (1 # 1) (2 # 1)) ]%string.

End Optimizer.

(** ** [system_health_monitor.py]: health evaluation *)

Module Health.
Local Open Scope string_scope.

(** [HealthThresholds], with the defaults of the dataclass. *)
Record HealthThresholds := mkThresholds {
  min_disk_space : Z;
  max_memory_usage : Q;
  max_cpu_temp : Q;
  max_cpu_usage : Q;
  min_disk_free : Q
}.

Definition default_thresholds : HealthThresholds :=
  {| min_disk_space := 1024 * 1024 * 1024;
     max_memory_usage := 85;
     max_cpu_temp := 85;
     max_cpu_usage := 90;
     min_disk_free := 10 |}.

(** What one evaluation reads from the host through [psutil]: the telemetry
    sample.  [sensors] is [None] when [sensors_temperatures] raises or is
    missing on the platform, otherwise the sensor groups in their order.
    [service_check_raises] tells for which service the body of the [try] in
    [_check_critical_services] raises.  [disk_io_counters] is [None] on a
    host without disks, where [psutil.disk_io_counters()] returns [None]. *)
Record Readings := mkReadings {
  disk_free : Z;
  disk_percent : Q;
  memory_percent : Q;
  memory_available : Z;
  cpu_percent : Q;
  sensors : option (list (string * list Q));
  service_check_raises : string -> bool;
  disk_io_counters : option (list (string * Z))
}.

(** [HealthStatus] *)
Record HealthStatus := mkHealthStatus {
  timestamp : Z;
  disk_space : Z;
  disk_usage : Q;
  memory_usage : Q;
  hs_memory_available : Z;
  cpu_usage : Q;
  cpu_temp : option Q;
  io_counters : list (string * Z);
  hs_critical_services : list (string * bool);
  status : string;
  issues : list string
}.

(** [self.critical_services] *)
Definition critical_services : list string :=
  ["antivirus"; "realtime_protection"; "update_service"].

(** [_check_critical_services]: each service with its [running] flag. *)
Definition check_critical_services (r : Readings) : list (string * bool) :=
  map (fun service => (service, negb (service_check_raises r service)))
      critical_services.

(** The reading taken from the sensors: the first entry of the first
    non-empty group. *)
Fixpoint first_temperature (groups : list (string * list Q)) : option Q :=
  match groups with
  | [] => None
  | (_, []) :: rest => first_temperature rest
  | (_, entry :: _) :: _ => Some entry
  end.

Definition read_cpu_temp (r : Readings) : option Q :=
  match sensors r with
  | None => None
  | Some groups => first_temperature groups
  end.

(** [i.startswith("Critical")] *)
Definition is_critical_issue (i : string) : bool := String.prefix "Critical" i.

Section Evaluate.

(** [f"{x:.1f}"], Python's float formatting, is taken as given. *)
Variable fmt_1f : Q -> string.

Definition disk_issues (t : HealthThresholds) (r : Readings) : list string :=
  if (disk_free r <? min_disk_space t)%Z
  then ["Low disk space: "
          ++ fmt_1f (inject_Z (disk_free r) / 1024 / 1024 / 1024) ++ "GB free"]
  else [].

Definition memory_issues (t : HealthThresholds) (r : Readings) : list string :=
  if Py.gtb (memory_percent r) (max_memory_usage t)
  then ["High memory usage: " ++ fmt_1f (memory_percent r) ++ "%"]
  else [].

Definition cpu_issues (t : HealthThresholds) (r : Readings) : list string :=
  if Py.gtb (cpu_percent r) (max_cpu_usage t)
  then ["High CPU usage: " ++ fmt_1f (cpu_percent r) ++ "%"]
  else [].

Definition temperature_issues (t : HealthThresholds) (r : Readings) : list string :=
  match read_cpu_temp r with
  | Some temp =>
      if Py.gtb temp (max_cpu_temp t)
      then ["High CPU temperature: " ++ fmt_1f temp ++ "°C"]
      else []
  | None => []
  end.

Definition service_issues (services : list (string * bool)) : list string :=
  flat_map (fun sr : string * bool =>
              if snd sr then []
              else ["Critical service not running: " ++ fst sr])
           services.

Definition collect_issues (t : HealthThresholds) (r : Readings) : list string :=
  disk_issues t r ++ memory_issues t r ++ cpu_issues t r
    ++ temperature_issues t r ++ service_issues (check_critical_services r).

(** The overall status, from the issue texts. *)
Definition overall_status (issues : list string) : string :=
  if existsb is_critical_issue issues then "critical"
  else match issues with
       | [] => "healthy"
       | _ :: _ => "warning"
       end.

(** [SystemHealthMonitor._check_system_health], evaluated at instant [now].
    The status is built last; without disk counters [._asdict()] on [None]
    raises and there is no status: [None] here. *)
Definition check_system_health (t : HealthThresholds) (now : Z) (r : Readings)
  : option HealthStatus :=
  let issues := collect_issues t r in
  let status := overall_status issues in
  match disk_io_counters r with
  | Some counters =>
      Some {| timestamp := now;
              disk_space := disk_free r;
              disk_usage := disk_percent r;
              memory_usage := memory_percent r;
              hs_memory_available := memory_available r;
              cpu_usage := cpu_percent r;
              cpu_temp := read_cpu_temp r;
              io_counters := counters;
              hs_critical_services := check_critical_services r;
              status := status;
              issues := issues |}
  | None => None
  end.

End Evaluate.

(** The dictionary [get_current_health] builds from the latest status: the
    keys the intensity manager reads.  An empty history gives the empty
    dictionary, which is falsy: [None] here. *)
Record HealthDict := mkHealthDict {
  hd_status : string;
  hd_memory_usage : Q;
  hd_cpu_usage : Q;
  hd_disk_usage : Q;
  hd_issues : list string
}.

Definition get_current_health (health_history : list HealthStatus)
  : option HealthDict :=
  match last health_history with
  | None => None
  | Some latest =>
      Some {| hd_status := status latest;
              hd_memory_usage := memory_usage latest;
              hd_cpu_usage := cpu_usage latest;
              hd_disk_usage := disk_usage latest;
              hd_issues := issues latest |}
  end.

(** A formatter for the examples: one decimal, rounded. *)
Definition fmt_tenths (x : Q) : string :=
  let n := Qfloor (x * 10 + (1 # 2)) in
  pretty (n / 10)%Z ++ "." ++ pretty (n mod 10)%Z.

(** Example input: 500 MiB free, everything else calm, services up. *)
Definition low_disk_readings : Readings :=
  {| disk_free := 500 * 1024 * 1024;
     disk_percent := 99;
     memory_percent := 40;
     memory_available := 8 * 1024 * 1024 * 1024;
     cpu_percent := 10;
     sensors := Some [("coretemp", [45%Q])];
     service_check_raises := fun _ => false;
     disk_io_counters := Some [("read_bytes", 1024%Z); ("write_bytes", 2048%Z)] |}.

End Health.

(** ** [scan_intensity_manager.py]: choosing the scan profile *)

Module Intensity.
Import Health.
Local Open Scope string_scope.

Record ScanProfile := mkProfile {
  name : string;
  thread_count : Z;
  batch_size : Z;
  throttle_delay : Q;
  max_cpu_usage : Q;
  max_memory_usage : Q;
  max_io_rate : Q;
  description : string
}.

Definition aggressive : ScanProfile :=
  mkProfile "aggressive" 8 5000 0 80 512 100
    "Maximum performance, high resource usage".
Definition balanced : ScanProfile :=
  mkProfile "balanced" 4 2000 (5 # 100) 50 384 50
    "Balanced performance and resource usage".
Definition conservative : ScanProfile :=
  mkProfile "conservative" 2 1000 (1 # 10) 30 256 25
    "Minimal resource usage, lower performance".
Definition minimal : ScanProfile :=
  mkProfile "minimal" 1 500 (2 # 10) 20 128 10
    "Emergency mode, lowest resource usage".

(** The state of a [ScanIntensityManager].  Instants and the cooldown are in
    microseconds. *)
Record Manager := mkManager {
  current_profile : string;
  last_adjustment : Z;
  adjustment_cooldown : Z;
  profiles : gmap string ScanProfile
}.

(** [ScanIntensityManager.__init__], run at instant [now]. *)
Definition init (now : Z) : Manager :=
  {| current_profile := "balanced";
     last_adjustment := now;
     adjustment_cooldown := 5 * 60 * 1000000;
     profiles :=
       <["aggressive" := aggressive]>
       (<["balanced" := balanced]>
       (<["conservative" := conservative]>
       (<["minimal" := minimal]> ∅))) |}.

(** [ScanIntensityManager._select_profile] *)
Definition select_profile (health : HealthDict) : string :=
  if String.eqb (hd_status health) "critical" then "minimal"
  else if Py.gtb (hd_memory_usage health) 90 then "minimal"
  else if Py.gtb (hd_memory_usage health) 75 then "conservative"
  else if Py.gtb (hd_cpu_usage health) 85 then "minimal"
  else if Py.gtb (hd_cpu_usage health) 70 then "conservative"
  else if Py.gtb (hd_disk_usage health) 95 then "minimal"
  else if Py.gtb (hd_disk_usage health) 85 then "conservative"
  else if String.eqb (hd_status health) "healthy"
          && (Py.ltb (hd_memory_usage health) 50
              && Py.ltb (hd_cpu_usage health) 40
              && Py.ltb (hd_disk_usage health) 70)
       then "aggressive"
  else "balanced".

(** [ScanIntensityManager.adjust_intensity].  [now1] is the instant read for
    the cooldown test, [now2] the one read when the change is recorded;
    [health] is what [get_current_health] returns.  A failed dictionary
    lookup raises [KeyError], which the [except] turns into [None] before
    anything is written. *)
Definition adjust_intensity (m : Manager) (health : option HealthDict)
    (now1 now2 : Z) : option ScanProfile * Manager :=
  if (now1 - last_adjustment m <? adjustment_cooldown m)%Z then (None, m)
  else match health with
  | None => (None, m)
  | Some h =>
      let new_profile := select_profile h in
      if negb (String.eqb new_profile (current_profile m)) then
        match profiles m !! current_profile m, profiles m !! new_profile with
        | Some old_profile, Some new_profile_config =>
            (Some new_profile_config,
             {| current_profile := new_profile;
                last_adjustment := now2;
                adjustment_cooldown := adjustment_cooldown m;
                profiles := profiles m |})
        | _, _ => (None, m)
        end
      else (None, m)
  end.

(** Example input: a host under memory pressure. *)
Definition pressed : HealthDict :=
  {| hd_status := "warning"; hd_memory_usage := 92; hd_cpu_usage := 30;
     hd_disk_usage := 50; hd_issues := ["High memory usage: 92.0%"] |}.

End Intensity.

(** ** Effects: state, exceptions and a call that never returns *)

Module Eff.

(** A Python exception: its class and its message. *)
Inductive exn := Exn (cls msg : string).

(** How a call ends: it returns a value, it raises, or it blocks for ever
    (a thread waiting for a lock that will not be released). *)
Inductive outcome (A : Type) :=
| Returned (a : A)
| Raised (e : exn)
| Blocked.
Arguments Returned {A} a.
Arguments Raised {A} e.
Arguments Blocked {A}.

(** A computation over a world [W]. *)
Definition M (W A : Type) : Type := W -> outcome A * W.

Definition ret {W A} (a : A) : M W A := fun w => (Returned a, w).

Definition bind {W A B} (m : M W A) (k : A -> M W B) : M W B :=
  fun w =>
    match m w with
    | (Returned a, w') => k a w'
    | (Raised e, w') => (Raised e, w')
    | (Blocked, w') => (Blocked, w')
    end.

Definition raise {W A} (e : exn) : M W A := fun w => (Raised e, w).

(** [try: body except Exception as e: handler e] *)
Definition try_except {W A} (body : M W A) (handler : exn -> M W A) : M W A :=
  fun w =>
    match body w with
    | (Raised e, w') => handler e w'
    | r => r
    end.

Definition get {W} : M W W := fun w => (Returned w, w).
Definition gets {W A} (f : W -> A) : M W A := fun w => (Returned (f w), w).
Definition modify {W} (f : W -> W) : M W unit := fun w => (Returned tt, f w).

(** [for x in xs: body x] *)
Fixpoint for_each {W A} (xs : list A) (body : A -> M W unit) : M W unit :=
  match xs with
  | [] => ret tt
  | x :: rest => bind (body x) (fun _ => for_each rest body)
  end.

(** [ensures P m]: [m] does not block, and what it returns satisfies [P].
    [returns P m]: moreover it does return. *)
Definition ensures {W A} (P : A -> Prop) (m : M W A) : Prop :=
  forall w, match fst (m w) with
            | Returned a => P a
            | Raised _ => True
            | Blocked => False
            end.

Definition returns {W A} (P : A -> Prop) (m : M W A) : Prop :=
  forall w, exists a w', m w = (Returned a, w') /\ P a.

(** [wp m Qr Qe w]: run from [w], [m] does not block; if it returns [a] in
    [w'] then [Qr a w'], and if it raises [e] in [w'] then [Qe e w']. *)
Definition wp {W A} (m : M W A) (Qr : A -> W -> Prop) (Qe : exn -> W -> Prop)
    (w : W) : Prop :=
  match m w with
  | (Returned a, w') => Qr a w'
  | (Raised e, w') => Qe e w'
  | (Blocked, _) => False
  end.

Module Notations.
Notation "x <- m ;; k" := (bind m (fun x => k))
  (at level 100, m at next level, right associativity).
Notation "m ;;; k" := (bind m (fun _ => k))
  (at level 100, right associativity).
End Notations.

End Eff.

(** ** [resource_throttler.py]: the throttle controller *)

Module Throttler.
Import Eff Eff.Notations.
Local Open Scope string_scope.

(** [ThrottleRule]; [cooldown] is in seconds. *)
Record ThrottleRule := mkRule {
  resource : string;
  threshold : Q;
  reduction : Q;
  cooldown : Z;
  priority : Z
}.

(** A registered callback: who it is, and on which arguments it raises.
    What it does to its owner is outside the throttler; the trace records
    that it was entered. *)
Record callback := mkCallback {
  cb_id : nat;
  cb_raises : Q -> bool
}.

(** What the throttler does to the outside, in order. *)
Inductive event :=
| Sampled (metric : string)
| Warned (rule_resource : string)
| Called (cb : nat) (fraction : Q)
| CallbackFailed (cb : nat).

(** The host during one call: what successive [datetime.now()] calls return
    (microseconds) and what [psutil] reports.  [disk_io_counters] is the pair
    of cumulative read and written bytes, [None] on a host without disks. *)
Record Host := mkHost {
  clock : nat -> Z;
  cpu_percent : Q;
  memory_percent : Q;
  disk_io_counters : option (Z * Z)
}.

(** The throttler object, with its lock, and the bookkeeping of the model:
    how many clock readings were taken and what was done so far. *)
Record World := mkWorld {
  lock_held : bool;
  is_throttled : bool;
  throttle_start : option Z;
  current_rules : list ThrottleRule;
  throttle_callbacks : gmap string (list callback);
  rules : list ThrottleRule;
  clock_reads : nat;
  trace : list event
}.

Definition default_rules : list ThrottleRule :=
  [ mkRule "cpu" 80 (5 # 10) 30 8;
    mkRule "memory" 85 (4 # 10) 60 9;
    mkRule "disk_io" 90 (6 # 10) 20 7 ].

(** [ResourceThrottler.__init__] *)
Definition init : World :=
  {| lock_held := false;
     is_throttled := false;
     throttle_start := None;
     current_rules := [];
     throttle_callbacks :=
       <["cpu" := []]> (<["memory" := []]> (<["disk_io" := []]> ∅));
     rules := default_rules;
     clock_reads := 0;
     trace := [] |}.

Definition set_lock (b : bool) (w : World) : World :=
  mkWorld b (is_throttled w) (throttle_start w) (current_rules w)
          (throttle_callbacks w) (rules w) (clock_reads w) (trace w).

Definition set_throttle (flag : bool) (start : option Z)
    (active : list ThrottleRule) (w : World) : World :=
  mkWorld (lock_held w) flag start active
          (throttle_callbacks w) (rules w) (clock_reads w) (trace w).

Definition set_callbacks (cbs : gmap string (list callback)) (w : World) : World :=
  mkWorld (lock_held w) (is_throttled w) (throttle_start w) (current_rules w)
          cbs (rules w) (clock_reads w) (trace w).

Definition tick (w : World) : World :=
  mkWorld (lock_held w) (is_throttled w) (throttle_start w) (current_rules w)
          (throttle_callbacks w) (rules w) (S (clock_reads w)) (trace w).

Definition with_trace (tr : list event) (w : World) : World :=
  mkWorld (lock_held w) (is_throttled w) (throttle_start w) (current_rules w)
          (throttle_callbacks w) (rules w) (clock_reads w) tr.

Definition record (e : event) (w : World) : World :=
  with_trace (trace w ++ [e]) w.

(** [n] clock readings later. *)
Definition ticks (n : nat) (w : World) : World := Nat.iter n tick w.

(** [datetime.now()] *)
Definition now (host : Host) : M World Z :=
  fun w => (Returned (clock host (clock_reads w)), tick w).

Definition log (e : event) : M World unit := modify (record e).

(** [with self.throttle_lock: body].  The lock is a [threading.Lock]: taking
    it while it is held waits until it is released, also when the holder is
    the caller itself.  Leaving the block, by return or by exception,
    releases it. *)
Definition with_lock {A} (body : M World A) : M World A :=
  fun w =>
    if lock_held w then (Blocked, w)
    else match body (set_lock true w) with
         | (Blocked, w') => (Blocked, w')
         | (r, w') => (r, set_lock false w')
         end.

(** [ResourceThrottler.register_callback] *)
Definition register_callback (res : string) (cb : callback) : M World unit :=
  w <- get ;;
  match throttle_callbacks w !! res with
  | Some cbs => modify (set_callbacks (<[res := (cbs ++ [cb])%list]> (throttle_callbacks w)))
  | None => ret tt
  end.

(** [ResourceThrottler.get_rule] *)
Definition get_rule (res : string) : M World ThrottleRule :=
  w <- get ;;
  match find (fun rule => String.eqb (resource rule) res) (rules w) with
  | Some rule => ret rule
  | None => raise (Exn "ValueError" ("No rule found for resource: " ++ res))
  end.

(** [ResourceThrottler.release_throttle] *)
Definition release_throttle : M World unit :=
  with_lock (
    w <- get ;;
    if is_throttled w then modify (set_throttle false None [])
    else ret tt).

(** [rules.sort(key=lambda r: r.priority, reverse=True)]: a stable sort,
    highest priority first. *)
Fixpoint insert_by_priority (r : ThrottleRule) (sorted : list ThrottleRule)
  : list ThrottleRule :=
  match sorted with
  | [] => [r]
  | r' :: rest =>
      if (priority r' <=? priority r)%Z then r :: r' :: rest
      else r' :: insert_by_priority r rest
  end.

Definition sort_by_priority (rs : list ThrottleRule) : list ThrottleRule :=
  fold_right insert_by_priority [] rs.

(** Highest priority first. *)
Definition descending : list ThrottleRule -> Prop :=
  StronglySorted (fun a b => (priority b <= priority a)%Z).

(** One callback invocation inside its [try]. *)
Definition invoke (cb : callback) (fraction : Q) : M World unit :=
  try_except
    (log (Called (cb_id cb) fraction) ;;;
     if cb_raises cb fraction
     then raise (Exn "Exception" "raised by the callback")
     else ret tt)
    (fun _ => log (CallbackFailed (cb_id cb))).

(** [self.throttle_callbacks[rule.resource]] *)
Definition callbacks_for (res : string) : M World (list callback) :=
  w <- get ;;
  match throttle_callbacks w !! res with
  | Some cbs => ret cbs
  | None => raise (Exn "KeyError" res)
  end.

(** The body of the loop over the rules in [apply_throttle]: the warning,
    then every callback registered for the rule's resource. *)
Definition throttle_rule (rule : ThrottleRule) : M World unit :=
  log (Warned (resource rule)) ;;;
  cbs <- callbacks_for (resource rule) ;;
  for_each cbs (fun cb => invoke cb (reduction rule)).

(** [ResourceThrottler.apply_throttle].  The list stored in [current_rules]
    is the very list that is then sorted in place, so the stored rules are
    the sorted ones. *)
Definition apply_throttle (host : Host) (triggered : list ThrottleRule)
  : M World unit :=
  with_lock (
    start <- now host ;;
    let sorted := sort_by_priority triggered in
    modify (set_throttle true (Some start) sorted) ;;;
    for_each sorted throttle_rule).

(** The loop over the active rules: each turn reads the clock and compares
    the elapsed time with that rule's cooldown. *)
Fixpoint in_cooldown (host : Host) (start : Z) (active : list ThrottleRule)
  : M World bool :=
  match active with
  | [] => ret false
  | rule :: rest =>
      t <- now host ;;
      if (t - start <? cooldown rule * 1000000)%Z then ret true
      else in_cooldown host start rest
  end.

(** [if value > self.get_rule(res).threshold:
       triggered_rules.append(self.get_rule(res))] *)
Definition check_rule (res : string) (value : Q) (triggered : list ThrottleRule)
  : M World (list ThrottleRule) :=
  rule <- get_rule res ;;
  if Py.gtb value (threshold rule)
  then (rule' <- get_rule res ;; ret (triggered ++ [rule'])%list)
  else ret triggered.

(** The second half of [check_resources]: the three readings are taken,
    then every rule whose threshold is exceeded is collected.  The disk
    figure is the sum of the cumulative byte counters, in MiB. *)
Definition collect_triggered (host : Host) : M World (list ThrottleRule) :=
  log (Sampled "cpu") ;;;
  log (Sampled "memory") ;;;
  log (Sampled "disk_io") ;;;
  triggered <- check_rule "cpu" (cpu_percent host) [] ;;
  triggered <- check_rule "memory" (memory_percent host) triggered ;;
  disk_io_percent <-
    match disk_io_counters host with
    | Some (read_bytes, write_bytes) =>
        ret (inject_Z (read_bytes + write_bytes) / inject_Z (1024 * 1024))%Q
    | None =>
        raise (Exn "AttributeError"
                   "'NoneType' object has no attribute 'read_bytes'")
    end ;;
  check_rule "disk_io" disk_io_percent triggered.

(** [ResourceThrottler.check_resources] *)
Definition check_resources (host : Host) : M World bool :=
  with_lock (
    w <- get ;;
    match is_throttled w, throttle_start w with
    | true, Some start =>
        still <- in_cooldown host start (current_rules w) ;;
        if still then ret true
        else (release_throttle ;;; ret false)
    | _, _ =>
        triggered <- collect_triggered host ;;
        match triggered with
        | _ :: _ => apply_throttle host triggered ;;; ret true
        | [] => ret false
        end
    end).

(** The longest cooldown among the active rules, in seconds. *)
Fixpoint max_cooldown (active : list ThrottleRule) : Z :=
  match active with
  | [] => 0
  | [rule] => cooldown rule
  | rule :: rest => Z.max (cooldown rule) (max_cooldown rest)
  end.

(** The callback invocations found in a trace, as (id, fraction) pairs, and
    the metrics that were sampled. *)
Definition calls (tr : list event) : list (nat * Q) :=
  flat_map (fun e => match e with Called cb f => [(cb, f)] | _ => [] end) tr.

Definition samples (tr : list event) : list string :=
  flat_map (fun e => match e with Sampled m => [m] | _ => [] end) tr.

(** What one callback invocation leaves in the trace, and what the
    treatment of one rule leaves there, given the registered callbacks. *)
Definition invoke_events (fraction : Q) (cb : callback) : list event :=
  if cb_raises cb fraction
  then [Called (cb_id cb) fraction; CallbackFailed (cb_id cb)]
  else [Called (cb_id cb) fraction].

Definition rule_events (registered : gmap string (list callback))
    (rule : ThrottleRule) : list event :=
  Warned (resource rule)
    :: flat_map (invoke_events (reduction rule))
                (default [] (registered !! resource rule)).

(** The invocations owed for a list of rules: every callback registered for
    the rule's resource, with the rule's reduction fraction, rule by rule. *)
Definition owed_calls (registered : gmap string (list callback))
    (rs : list ThrottleRule) : list (nat * Q) :=
  flat_map (fun rule =>
              map (fun cb => (cb_id cb, reduction rule))
                  (default [] (registered !! resource rule)))
           rs.

(** Example inputs.  A host at 95% CPU whose clock stands at 31 s; a
    throttler with two callbacks on [cpu] (the first one raises) and one on
    [memory]; the same throttler once the CPU rule was activated at instant
    0. *)
Definition hot_host : Host :=
  {| clock := fun _ => 31000000%Z;
     cpu_percent := 95;
     memory_percent := 91;
     disk_io_counters := Some (0, 0)%Z |}.

Definition early_host : Host :=
  {| clock := fun _ => 29000000%Z;
     cpu_percent := 95;
     memory_percent := 91;
     disk_io_counters := None |}.

Definition wired : World :=
  set_callbacks
    (<["cpu" := [mkCallback 1 (fun _ => true); mkCallback 2 (fun _ => false)]]>
     (<["memory" := [mkCallback 3 (fun _ => false)]]>
      (throttle_callbacks init)))
    init.

Definition cpu_rule : ThrottleRule := mkRule "cpu" 80 (5 # 10) 30 8.
Definition memory_rule : ThrottleRule := mkRule "memory" 85 (4 # 10) 60 9.

Definition throttled_at_0 : World :=
  set_throttle true (Some 0%Z) [cpu_rule] wired.

End Throttler.

(** ** The host: files, metadata, faults *)

Module Sys.
Import Eff Eff.Notations.
Local Open Scope string_scope.

(** *** Paths, as [pathlib] reads them *)

Definition is_slash (c : ascii) : bool := Ascii.eqb c "/".

Fixpoint contains_slash (p : string) : bool :=
  match p with
  | "" => false
  | String c rest => is_slash c || contains_slash rest
  end.

(** [path.name]: what follows the last separator. *)
Fixpoint name_of (p : string) : string :=
  match p with
  | "" => ""
  | String c rest => if contains_slash p then name_of rest else p
  end.

(** [dir / name] *)
Definition path_join (dir name : string) : string := dir ++ "/" ++ name.

(** The part of a name from its last dot on, if it has a dot. *)
Fixpoint from_last_dot (s : string) : option string :=
  match s with
  | "" => None
  | String c rest =>
      match from_last_dot rest with
      | Some t => Some t
      | None => if Ascii.eqb c "." then Some s else None
      end
  end.

(** [path.suffix]: the last dot of the name and what follows, unless that dot
    opens or closes the name. *)
Definition suffix (p : string) : string :=
  match name_of p with
  | "" => ""
  | String _ rest =>
      match from_last_dot rest with
      | Some (String _ (String c t) as ext) => ext
      | _ => ""
      end
  end.

(** [str.lower()], on the ASCII letters (the only ones that can bring a
    suffix into the engine's extension sets). *)
Definition lower_ascii (c : ascii) : ascii :=
  let n := nat_of_ascii c in
  if (65 <=? n)%nat && (n <=? 90)%nat then ascii_of_nat (n + 32) else c.

Fixpoint lower (s : string) : string :=
  match s with
  | "" => ""
  | String c rest => String (lower_ascii c) (lower rest)
  end.

(** *** The world *)

(** A path is the byte string the system sees, and it leads to a directory
    or to a regular file with its bytes and its [st_mode]; a path that leads
    nowhere has no node.  Sockets, FIFOs, device nodes and links are not
    among the nodes, so a file has one path, and what is stated of a path
    that holds no regular file is stated of a missing path or a directory. *)
Inductive node :=
| Dir
| Reg (content : list Byte.byte) (mode : Z).

(** The system and library calls that touch a file, in the order made. *)
Inductive event :=
| Stat (p : string)
| Read (p : string)
| Write (p : string)
| Unlink (p : string)
| Chmod (p : string)
| Mkdir (p : string)
| MetaRead
| MetaWrite
| Hashed (p : string)
| Sniffed (p : string)
| Searched (pattern : nat)
| RulesMatched.

(** The world of the scanner and of a quarantine store whose metadata
    entries have type [E].
    - [fs]: the files.
    - [meta]: the content of the store's [metadata.json], parsed; [None] when
      the file is missing or is not JSON.  It is kept apart from [fs], so
      writing or removing a path of [fs] leaves [meta] alone: that is the
      code's behaviour for every path but the metadata file itself, and a
      statement about an operation that overwrites or removes the path it is
      given takes that path to differ from the metadata file.
    - [faults]: for each coming fallible call, whether it fails (an
      [OSError]: permissions, a full disk, a vanished device); calls beyond
      the list succeed.  A failing call has no effect.
    - [draws]: how many random values were drawn so far.
    - [log]: the calls made. *)
Record World (E : Type) := mkWorld {
  fs : gmap string node;
  meta : option (gmap string E);
  faults : list bool;
  draws : nat;
  log : list event
}.
Arguments mkWorld {E}.
Arguments fs {E}.
Arguments meta {E}.
Arguments faults {E}.
Arguments draws {E}.
Arguments log {E}.

Section Calls.
Context {E : Type}.

Definition with_fs (f : gmap string node) (w : World E) : World E :=
  mkWorld f (meta w) (faults w) (draws w) (log w).
Definition with_meta (m : option (gmap string E)) (w : World E) : World E :=
  mkWorld (fs w) m (faults w) (draws w) (log w).
Definition with_faults (fl : list bool) (w : World E) : World E :=
  mkWorld (fs w) (meta w) fl (draws w) (log w).
Definition with_draws (n : nat) (w : World E) : World E :=
  mkWorld (fs w) (meta w) (faults w) n (log w).
Definition with_log (l : list event) (w : World E) : World E :=
  mkWorld (fs w) (meta w) (faults w) (draws w) l.

Definition note (e : event) : M (World E) unit :=
  modify (fun w => with_log (log w ++ [e])%list w).

(** The next fallible call: it is logged, then it fails or goes on. *)
Definition attempt (e : event) : M (World E) unit :=
  note e ;;;
  fun w =>
    match faults w with
    | true :: rest => (Raised (Exn "OSError" "the call failed"), with_faults rest w)
    | false :: rest => (Returned tt, with_faults rest w)
    | [] => (Returned tt, w)
    end.

(** [path.exists()] and [path.is_file()], answered from the files at hand.
    The errors that [pathlib] lets through (a name too long, a parent that
    may not be searched) are left out; the callers answer them in the
    handler that also takes a failing [stat]. *)
Definition path_exists (p : string) : M (World E) bool :=
  gets (fun w => bool_decide (is_Some (fs w !! p))).

Definition is_file (p : string) : M (World E) bool :=
  gets (fun w => match fs w !! p with Some (Reg _ _) => true | _ => false end).

Definition not_found {A} (p : string) : M (World E) A :=
  raise (Exn "FileNotFoundError" p).

(** [os.stat(p)]: size and mode, for a path the system call accepts.  A
    directory has some size of its own. *)
Definition stat (p : string) : M (World E) (Z * Z) :=
  attempt (Stat p) ;;;
  w <- get ;;
  match fs w !! p with
  | Some (Reg content mode) => ret (Z.of_nat (length content), mode)
  | Some Dir => ret (4096, 16877)%Z
  | None => not_found p
  end.

(** [open(p, 'rb').read()] *)
Definition read_bytes (p : string) : M (World E) (list Byte.byte) :=
  attempt (Read p) ;;;
  w <- get ;;
  match fs w !! p with
  | Some (Reg content _) => ret content
  | Some Dir => raise (Exn "IsADirectoryError" p)
  | None => not_found p
  end.

(** [open(p, 'wb').write(data)]: the file is created (mode 0o100644) or
    replaced (mode kept). *)
Definition write_bytes (p : string) (data : list Byte.byte) : M (World E) unit :=
  attempt (Write p) ;;;
  w <- get ;;
  match fs w !! p with
  | Some (Reg _ mode) => modify (with_fs (<[p := Reg data mode]> (fs w)))
  | Some Dir => raise (Exn "IsADirectoryError" p)
  | None => modify (with_fs (<[p := Reg data 33188%Z]> (fs w)))
  end.

(** [path.unlink()] *)
Definition unlink (p : string) : M (World E) unit :=
  attempt (Unlink p) ;;;
  w <- get ;;
  match fs w !! p with
  | Some (Reg _ _) => modify (with_fs (delete p (fs w)))
  | Some Dir => raise (Exn "IsADirectoryError" p)
  | None => not_found p
  end.

(** [os.chmod(p, mode)] *)
Definition chmod (p : string) (mode : Z) : M (World E) unit :=
  attempt (Chmod p) ;;;
  w <- get ;;
  match fs w !! p with
  | Some (Reg content _) => modify (with_fs (<[p := Reg content mode]> (fs w)))
  | Some Dir => ret tt
  | None => not_found p
  end.

(** [p.parent.mkdir(parents=True, exist_ok=True)]: directories other than
    the ones listed in [fs] are implicit, so only the attempt counts. *)
Definition mkdir_parents (p : string) : M (World E) unit :=
  attempt (Mkdir p).

(** [json.loads(metadata_file.read_text())] *)
Definition read_metadata : M (World E) (gmap string E) :=
  attempt MetaRead ;;;
  w <- get ;;
  match meta w with
  | Some m => ret m
  | None => raise (Exn "JSONDecodeError" "metadata.json")
  end.

(** [metadata_file.write_text(json.dumps(metadata, indent=2))] *)
Definition write_metadata (m : gmap string E) : M (World E) unit :=
  attempt MetaWrite ;;;
  modify (with_meta (Some m)).

(** A fresh index into the host's randomness. *)
Definition draw : M (World E) nat :=
  fun w => (Returned (draws w), with_draws (S (draws w)) w).

(** The world after a fallible call that went through. *)
Definition after (e : event) (w : World E) : World E :=
  mkWorld (fs w) (meta w) (tail (faults w)) (draws w) (log w ++ [e])%list.

(** [g] has the files of [f], except perhaps at [p]. *)
Definition same_elsewhere (p : string) (f g : gmap string node) : Prop :=
  forall x, x <> p -> g !! x = f !! x.

(** No coming call fails. *)
Definition quiet (w : World E) : Prop := faults w = [].


(** The first [n] coming calls do not fail. *)
Definition calm (n : nat) (w : World E) : Prop :=
  forall i : nat, (i < n)%nat -> faults w !! i <> Some true.

End Calls.

(** *** Libraries *)

(** What the code takes from [hashlib], [cryptography.fernet], [base64] and
    [os.urandom], with the two round-trip laws those libraries document:
    a token decrypts to what was encrypted, and an encoded key decodes to
    itself.  [fernet_key] is the type of well-formed keys;
    [fernet_encrypt] takes the index of the random draw behind its IV. *)
Class Library := {
  sha256_hex : list Byte.byte -> string;
  fernet_key : Type;
  fernet_encrypt : fernet_key -> nat -> list Byte.byte -> list Byte.byte;
  fernet_decrypt : fernet_key -> list Byte.byte -> option (list Byte.byte);
  fernet_roundtrip :
    forall key n data, fernet_decrypt key (fernet_encrypt key n data) = Some data;
  b64encode : fernet_key -> string;
  b64decode : string -> option fernet_key;
  b64_roundtrip : forall key, b64decode (b64encode key) = Some key;
  urandom : nat -> Z -> list Byte.byte
}.

(** One pass of a secure delete: fresh random bytes, as many as the file
    had, are written over the file. *)
Definition overwrite {E} `{Library} (p : string) (file_size : Z)
  : M (World E) unit :=
  n <- draw ;;
  write_bytes p (urandom n file_size).

End Sys.

(** ** [engine.py]: scanning one file *)

Module Scan.
Import Eff Eff.Notations Sys.
Local Open Scope string_scope.

(** A finding, as the dictionaries appended to [threats]. *)
Record Threat := mkThreat {
  type : string;
  details : string;
  severity : Z
}.

(** The three shapes of dictionary [scan_file] returns. *)
Inductive ScanResult :=
| Failed (file_path error : string)
| Skipped (file_path reason : string)
| Scanned (file_path status : string) (threats : list Threat)
          (hash file_type : string).

(** [result['status']] *)
Definition status_of (r : ScanResult) : string :=
  match r with
  | Failed _ _ => "error"
  | Skipped _ _ => "skipped"
  | Scanned _ status _ _ _ => status
  end.

Definition threats_of (r : ScanResult) : list Threat :=
  match r with
  | Scanned _ _ threats _ _ => threats
  | _ => []
  end.

(** What the engine takes from [re], [yara] and [magic].  [yara_match] and
    [magic_from_buffer] answer [None] when the library raises. *)
Class Detectors := {
  re_search : string -> list Byte.byte -> bool;
  yara_match : list Byte.byte -> option (list string);
  magic_from_buffer : list Byte.byte -> option string
}.

(** The part of a [ScanEngine] that [scan_file] reads.  [yara_compiler]
    tells whether the rules compiled; [has_magic] is the module's
    [HAS_MAGIC]. *)
Record Engine := mkEngine {
  hashes : gset string;
  patterns : list string;
  suspicious_extensions : gset string;
  yara_compiler : bool;
  has_magic : bool
}.

(** [self.virus_signatures], as [__init__] sets it. *)
Definition default_engine (yara_ok magic_ok : bool) : Engine :=
  {| hashes :=
       {[ "e3b0c44298fc1c149afbf4c8996fb92427ae41e4649b934ca495991b7852b855" ]};
     patterns :=
       [ "(?i)(?:eval|exec)\s*\(\s*(?:base64|compile|marshal)\.(?:b64decode|loads)";
         "(?i)(?:os|subprocess|system)(?:\.|\s+)(?:system|popen|exec)";
         "(?i)(?:win32api|winreg|_winreg)\.(?:RegOpenKey|RegSetValue)" ];
     suspicious_extensions :=
       list_to_set [".exe"; ".dll"; ".scr"; ".bat"; ".cmd"; ".vbs"; ".js";
                    ".jar"; ".ps1"; ".msi"; ".com"; ".pif"; ".hta"];
     yara_compiler := yara_ok;
     has_magic := magic_ok |}.

Definition size_limit : Z := 100 * 1024 * 1024.

Definition suspicious_extension (p : string) : Threat :=
  mkThreat "suspicious_extension"
           ("Suspicious file extension: " ++ suffix p) 3.

Definition known_malware : Threat :=
  mkThreat "known_malware" "File matches known malware signature" 10.

Definition suspicious_pattern : Threat :=
  mkThreat "suspicious_pattern" "File contains suspicious code patterns" 7.

Definition yara_threat (rule : string) : Threat :=
  mkThreat "yara_match" ("Matched YARA rule: " ++ rule) 8.

(** [str(e)] *)
Definition message (e : exn) : string := match e with Exn _ msg => msg end.

Section Scanning.
Context {E : Type} `{Library} `{Detectors}.

(** [ScanEngine._calculate_file_hash]: the file is read and digested. *)
Definition calculate_file_hash (p : string) : M (World E) string :=
  content <- read_bytes p ;;
  note (Hashed p) ;;;
  ret (sha256_hex content).

(** The loop over the patterns: the first match appends one finding and
    ends the loop. *)
Fixpoint search_patterns (i : nat) (ps : list string) (content : list Byte.byte)
  : M (World E) (list Threat) :=
  match ps with
  | [] => ret []
  | pattern :: rest =>
      note (Searched i) ;;;
      if re_search pattern content then ret [suspicious_pattern]
      else search_patterns (S i) rest content
  end.

(** [magic.from_file(str(file_path))] *)
Definition magic_from_file (p : string) : M (World E) string :=
  attempt (Sniffed p) ;;;
  w <- get ;;
  match fs w !! p with
  | Some (Reg content _) =>
      match magic_from_buffer content with
      | Some t => ret t
      | None => raise (Exn "MagicException" p)
      end
  | _ => not_found p
  end.

(** [self.yara_compiler.match(data=content)] *)
Definition match_rules (content : list Byte.byte) : M (World E) (list Threat) :=
  note RulesMatched ;;;
  match yara_match content with
  | Some names => ret (map yara_threat names)
  | None => raise (Exn "yara.Error" "internal error")
  end.

(** Step 4 of [scan_file], the inner [try].  [threats] is a list that the
    block extends in place and [file_type] a variable it assigns, so an
    exception leaves both as they are at that moment: each handler below
    returns the pair reached so far. *)
Definition analyze_content (engine : Engine) (p : string) (threats : list Threat)
  : M (World E) (list Threat * string) :=
  try_except
    (file_type <-
       (if has_magic engine then magic_from_file p
        else ret (match suffix p with
                  | "" => "unknown"
                  | String _ _ => match lower (suffix p) with
                                  | String _ rest => rest
                                  | "" => ""
                                  end
                  end)) ;;
     try_except
       (content <- read_bytes p ;;
        found <- search_patterns 0 (patterns engine) content ;;
        let threats := (threats ++ found)%list in
        if yara_compiler engine then
          try_except
            (matched <- match_rules content ;;
             ret ((threats ++ matched)%list, file_type))
            (fun _ => ret (threats, file_type))
        else ret (threats, file_type))
       (fun _ => ret (threats, file_type)))
    (fun _ => ret (threats, "unknown")).

(** [ScanEngine.scan_file] *)
Definition scan_file (engine : Engine) (p : string) : M (World E) ScanResult :=
  try_except
    (present <- path_exists p ;;
     regular <- is_file p ;;
     if negb present || negb regular
     then ret (Failed p "File not found or not accessible")
     else
       st <- stat p ;;
       if (fst st >? size_limit)%Z then ret (Skipped p "File too large")
       else
         let threats :=
           if bool_decide (lower (suffix p) ∈ suspicious_extensions engine)
           then [suspicious_extension p] else [] in
         file_hash <- calculate_file_hash p ;;
         let threats :=
           if bool_decide (file_hash ∈ hashes engine)
           then (threats ++ [known_malware])%list else threats in
         analysis <- analyze_content engine p threats ;;
         ret (Scanned p
                      (match fst analysis with [] => "clean" | _ :: _ => "infected" end)
                      (fst analysis) file_hash (snd analysis)))
    (fun e => ret (Failed p (message e))).

End Scanning.

(** Whether an event is a look at a file's content. *)
Definition reads_content (e : event) : bool :=
  match e with
  | Read _ | Hashed _ | Sniffed _ | Searched _ | RulesMatched => true
  | _ => false
  end.

End Scan.

(** ** [quarantine_manager.py]: the quarantine store *)

Module QStore.
Import Eff Eff.Notations Sys.
Local Open Scope string_scope.

(** [QuarantineEntry] *)
Record QuarantineEntry := mkEntry {
  original_path : string;
  timestamp : string;
  file_hash : string;
  threat_info : list Scan.Threat;
  size : Z;
  quarantine_path : string;
  is_encrypted : bool
}.

Section Store.
Context `{Library}.

(** A [QuarantineManager]: where it lives and the key made by [__init__]. *)
Record Manager := mkManager {
  base_path : string;
  encryption_key : fernet_key
}.

Variable mgr : Manager.

Definition quarantine_dir : string := path_join (base_path mgr) "quarantine".


(** [_load_metadata]: any failure is logged and answered by the empty
    mapping. *)
Definition load_metadata : M (World QuarantineEntry) (gmap string QuarantineEntry) :=
  try_except read_metadata (fun _ => ret ∅).

(** [_save_metadata]: a failure is logged and raised again. *)
Definition save_metadata (metadata : gmap string QuarantineEntry)
  : M (World QuarantineEntry) unit :=
  try_except (write_metadata metadata) (fun e => raise e).

(** [_add_quarantine_entry] *)
Definition add_quarantine_entry (name : string) (entry : QuarantineEntry)
  : M (World QuarantineEntry) unit :=
  metadata <- load_metadata ;;
  save_metadata (<[name := entry]> metadata).

(** [_remove_quarantine_entry] *)
Definition remove_quarantine_entry (name : string)
  : M (World QuarantineEntry) unit :=
  metadata <- load_metadata ;;
  save_metadata (delete name metadata).

(** [_calculate_hash] *)
Definition calculate_hash (p : string) : M (World QuarantineEntry) string :=
  content <- read_bytes p ;;
  note (Hashed p) ;;;
  ret (sha256_hex content).

(** [_secure_delete]: nothing to do for a missing file; otherwise three
    overwriting passes, then the unlink.  A failure is logged and raised
    again. *)
Definition secure_delete (p : string) : M (World QuarantineEntry) unit :=
  try_except
    (present <- path_exists p ;;
     if negb present then ret tt
     else
       st <- stat p ;;
       overwrite p (fst st) ;;;
       overwrite p (fst st) ;;;
       overwrite p (fst st) ;;;
       unlink p)
    (fun e => raise e).

(** The name and the place of the blob. *)
Definition quarantine_name (ts p : string) : string := ts ++ "_" ++ name_of p.
Definition blob_path (ts p : string) : string :=
  path_join quarantine_dir (quarantine_name ts p).

(** [QuarantineManager.quarantine_file]; [ts] is the formatted instant
    [datetime.now().strftime("%Y%m%d_%H%M%S")]. *)
Definition quarantine_file (ts p : string) (threats : list Scan.Threat)
  : M (World QuarantineEntry) bool :=
  try_except
    (content <- read_bytes p ;;
     n <- draw ;;
     let encrypted_content := fernet_encrypt (encryption_key mgr) n content in
     write_bytes (blob_path ts p) encrypted_content ;;;
     digest <- calculate_hash p ;;
     st <- stat p ;;
     let entry :=
       {| original_path := p;
          timestamp := ts;
          file_hash := digest;
          threat_info := threats;
          size := fst st;
          quarantine_path := blob_path ts p;
          is_encrypted := true |} in
     add_quarantine_entry (quarantine_name ts p) entry ;;;
     secure_delete p ;;;
     ret true)
    (fun _ => ret false).

(** [metadata[quarantine_name]], after the membership test. *)
Definition entry_of (name : string) : M (World QuarantineEntry) QuarantineEntry :=
  metadata <- load_metadata ;;
  match metadata !! name with
  | Some entry => ret entry
  | None => raise (Exn "ValueError" ("No metadata found for " ++ name))
  end.

(** [QuarantineManager.restore_file] ([force] only changes what is logged). *)
Definition restore_file (name : string) (force : bool)
  : M (World QuarantineEntry) bool :=
  try_except
    (entry <- entry_of name ;;
     encrypted_content <- read_bytes (quarantine_path entry) ;;
     decrypted_content <-
       match fernet_decrypt (encryption_key mgr) encrypted_content with
       | Some data => ret data
       | None => raise (Exn "InvalidToken" "")
       end ;;
     mkdir_parents (original_path entry) ;;;
     write_bytes (original_path entry) decrypted_content ;;;
     unlink (quarantine_path entry) ;;;
     remove_quarantine_entry name ;;;
     ret true)
    (fun _ => ret false).

(** [QuarantineManager.delete_quarantined_file] *)
Definition delete_quarantined_file (name : string)
  : M (World QuarantineEntry) bool :=
  try_except
    (entry <- entry_of name ;;
     secure_delete (quarantine_path entry) ;;;
     remove_quarantine_entry name ;;;
     ret true)
    (fun _ => ret false).

(** The store holds [content], taken from [p], under [name]: the metadata
    has the entry and the blob it points to decrypts to [content]. *)
Definition holds (w : World QuarantineEntry) (name p : string)
    (content : list Byte.byte) : Prop :=
  exists metadata entry blob mode,
    meta w = Some metadata /\
    metadata !! name = Some entry /\
    original_path entry = p /\
    file_hash entry = sha256_hex content /\
    fs w !! quarantine_path entry = Some (Reg blob mode) /\
    fernet_decrypt (encryption_key mgr) blob = Some content.

(** What a run of [quarantine_file] guarantees, whatever fails: the content
    is still there, in the original or in the store; and a reported success
    means it is in the store and the original is gone. *)
Definition kept (ts p : string) (content : list Byte.byte) (mode : Z)
    (r : bool) (w' : World QuarantineEntry) : Prop :=
  (fs w' !! p = Some (Reg content mode)
   \/ holds w' (quarantine_name ts p) p content)
  /\ (r = true ->
      fs w' !! p = None /\ holds w' (quarantine_name ts p) p content).

End Store.

End QStore.

(** ** [engine.py]: the engine's own quarantine *)

Module EngineQuarantine.
Import Eff Eff.Notations Sys.
Local Open Scope string_scope.

(** The dictionary stored per quarantined file; [encryption_key] is the
    key in base64 text. *)
Record QuarantineMetadata := mkMetadata {
  original_path : string;
  timestamp : string;
  file_hash : string;
  threat_info : list Scan.Threat;
  original_permissions : Z;
  encryption_key : string
}.

Section Engine.
Context `{Library}.

(** The part of a [ScanEngine] its quarantine uses. *)
Record Engine := mkEngine {
  quarantine_path : string;
  quarantine_key : fernet_key
}.

Variable engine : Engine.


(** [_load_quarantine_metadata] *)
Definition load_quarantine_metadata
  : M (World QuarantineMetadata) (gmap string QuarantineMetadata) :=
  try_except read_metadata (fun _ => ret ∅).

(** [_save_quarantine_metadata] *)
Definition save_quarantine_metadata (metadata : gmap string QuarantineMetadata)
  : M (World QuarantineMetadata) unit :=
  try_except (write_metadata metadata) (fun e => raise e).

(** [calculate_file_hash]: [None] when the file cannot be read (the
    statistics counters it also updates are left out). *)
Definition calculate_file_hash (p : string)
  : M (World QuarantineMetadata) (option string) :=
  try_except
    (content <- read_bytes p ;;
     note (Hashed p) ;;;
     ret (Some (sha256_hex content)))
    (fun _ => ret None).

(** [_secure_delete]: the size is read, the file is opened for writing
    (which empties it), overwritten three times, and unlinked. *)
Definition secure_delete (p : string) : M (World QuarantineMetadata) unit :=
  try_except
    (st <- stat p ;;
     write_bytes p [] ;;;
     overwrite p (fst st) ;;;
     overwrite p (fst st) ;;;
     overwrite p (fst st) ;;;
     unlink p)
    (fun e => raise e).

(** [f"{timestamp}_{file_hash[:8]}_{file_path.name}"] *)
Definition quarantine_name (ts digest p : string) : string :=
  ts ++ "_" ++ substring 0 8 digest ++ "_" ++ name_of p.

(** [ScanEngine.quarantine_file]; [ts] is the formatted instant. *)
Definition quarantine_file (ts p : string) (threats : list Scan.Threat)
  : M (World QuarantineMetadata) bool :=
  try_except
    (file_hash <- calculate_file_hash p ;;
     digest <- match file_hash with
               | Some digest => ret digest
               | None => raise (Exn "TypeError"
                                    "'NoneType' object is not subscriptable")
               end ;;
     let name := quarantine_name ts digest p in
     let quarantine_file := path_join (quarantine_path engine) name in
     content <- read_bytes p ;;
     n <- draw ;;
     let encrypted_content := fernet_encrypt (quarantine_key engine) n content in
     write_bytes quarantine_file encrypted_content ;;;
     metadata <- load_quarantine_metadata ;;
     st <- stat p ;;
     save_quarantine_metadata
       (<[name := {| original_path := p;
                     timestamp := ts;
                     file_hash := digest;
                     threat_info := threats;
                     original_permissions := snd st;
                     encryption_key := b64encode (quarantine_key engine) |}]>
          metadata) ;;;
     secure_delete p ;;;
     ret true)
    (fun _ => ret false).

(** [ScanEngine.restore_file] *)
Definition restore_file (name : string) : M (World QuarantineMetadata) bool :=
  try_except
    (metadata <- load_quarantine_metadata ;;
     file_meta <- match metadata !! name with
                  | Some file_meta => ret file_meta
                  | None => raise (Exn "ValueError"
                                       ("No metadata found for " ++ name))
                  end ;;
     let quarantine_file := path_join (quarantine_path engine) name in
     encrypted_content <- read_bytes quarantine_file ;;
     decryption_key <- match b64decode (encryption_key file_meta) with
                       | Some key => ret key
                       | None => raise (Exn "binascii.Error" "")
                       end ;;
     decrypted_content <-
       match fernet_decrypt decryption_key encrypted_content with
       | Some data => ret data
       | None => raise (Exn "InvalidToken" "")
       end ;;
     mkdir_parents (original_path file_meta) ;;;
     write_bytes (original_path file_meta) decrypted_content ;;;
     chmod (original_path file_meta) (original_permissions file_meta) ;;;
     unlink quarantine_file ;;;
     save_quarantine_metadata (delete name metadata) ;;;
     ret true)
    (fun _ => ret false).


End Engine.

End EngineQuarantine.

(** ** A stand-in library for the examples *)

Module Toy.
Import Sys.
Local Open Scope string_scope.

(** The digest of the empty input is the real one; any other input gets a
    digest that tells its length.  "Encryption" puts the key in front. *)
Definition toy_sha256 (data : list Byte.byte) : string :=
  match data with
  | [] => "e3b0c44298fc1c149afbf4c8996fb92427ae41e4649b934ca495991b7852b855"
  | _ => "00000000" ++ pretty (length data)
  end.

Definition toy_encrypt (key : string) (n : nat) (data : list Byte.byte)
  : list Byte.byte :=
  (list_byte_of_string key ++ data)%list.

Definition toy_decrypt (key : string) (token : list Byte.byte)
  : option (list Byte.byte) :=
  let k := list_byte_of_string key in
  if bool_decide (take (length k) token = k)
  then Some (drop (length k) token) else None.

Lemma toy_roundtrip key n data :
  toy_decrypt key (toy_encrypt key n data) = Some data.
Proof.
  unfold toy_decrypt, toy_encrypt.
  rewrite take_app_length, drop_app_length.
  now rewrite bool_decide_eq_true_2.
Qed.

#[export] Instance toy_library : Library := {|
  sha256_hex := toy_sha256;
  fernet_key := string;
  fernet_encrypt := toy_encrypt;
  fernet_decrypt := toy_decrypt;
  fernet_roundtrip := toy_roundtrip;
  b64encode := fun key => key;
  b64decode := fun s => Some s;
  b64_roundtrip := fun key => eq_refl;
  urandom := fun _ size => repeat Byte.x2a (Z.to_nat size)
|}.

(** Detectors that find nothing. *)
#[export] Instance quiet_detectors : Scan.Detectors := {|
  Scan.re_search := fun _ _ => false;
  Scan.yara_match := fun _ => Some [];
  Scan.magic_from_buffer := fun _ => Some "data"
|}.

(** Example worlds (no metadata entries are needed for scanning).  One holds
    a file of 100 MiB and one byte; the other an empty file named like an
    ordinary text file, whose SHA-256 digest is the one in the engine's hash
    set, and whose every call after the hashing read fails. *)
Definition big_file : list Byte.byte :=
  repeat Byte.x00 (Z.to_nat (100 * 1024 * 1024 + 1)).

Definition big_world : World unit :=
  mkWorld {[ "disk.img" := Reg big_file 33188 ]} None [] 0 [].

Definition empty_file_world : World unit :=
  mkWorld {[ "notes.txt" := Reg [] 33188 ]} None
          [false; false; true; true; true] 0 [].

(** A store under [data], a report to quarantine, and a fault plan in which
    the first five calls go through and the sixth, the metadata write,
    fails. *)
Definition store : QStore.Manager := QStore.mkManager "data" "k3y".

Definition report : list Byte.byte := list_byte_of_string "quarterly figures".

Definition office : World QStore.QuarantineEntry :=
  mkWorld {[ "docs/report.txt" := Reg report 33188 ]} (Some ∅) [] 0 [].


(** The engine's quarantine, in a readable place with mode 0o100600. *)
Definition engine : EngineQuarantine.Engine :=
  EngineQuarantine.mkEngine "quarantine" "k3y".

Definition desk : World EngineQuarantine.QuarantineMetadata :=
  mkWorld {[ "home/u/invoice.pdf" := Reg report 33152 ]} (Some ∅) [] 0 [].

End Toy.

(** ** [scan_optimizer.py]: which files are scanned, and in which batches *)

Module Batching.
Import Eff Eff.Notations Sys.
Local Open Scope string_scope.

(** *** [pathlib]: the parts of a path *)

(** [p.split('/')] *)
Fixpoint split_slash (p : string) : list string :=
  match p with
  | "" => [""]
  | String c rest =>
      if is_slash c then "" :: split_slash rest
      else match split_slash rest with
           | [] => [String c ""]
           | component :: others => String c component :: others
           end
  end.

(** The root of a POSIX path: one leading slash, or exactly two. *)
Definition root_of (p : string) : string :=
  match p with
  | String a (String b (String c _)) =>
      if is_slash a
      then if is_slash b then (if is_slash c then "/" else "//") else "/"
      else ""
  | String a (String b "") =>
      if is_slash a then (if is_slash b then "//" else "/") else ""
  | String a "" => if is_slash a then "/" else ""
  | "" => ""
  end.

(** A component that [pathlib] keeps: neither empty nor a lone dot. *)
Definition kept_component (s : string) : bool :=
  negb (String.eqb s "") && negb (String.eqb s ".").

(** [path.parts]: the root, if any, then the components. *)
Definition parts (p : string) : list string :=
  (match root_of p with "" => [] | root => [root] end)
    ++ filter (fun s => Is_true (kept_component s)) (split_slash p).

(** [path.name]: the last component, or nothing for a bare root. *)
Definition name (p : string) : string :=
  default "" (last (filter (fun s => Is_true (kept_component s)) (split_slash p))).

(** *** [should_scan_file] *)

Definition skip_extensions : gset string :=
  list_to_set [".jpg"; ".jpeg"; ".png"; ".gif"; ".mp3"; ".mp4"; ".wav";
               ".avi"; ".mov"; ".mkv"; ".pdf"; ".zip"; ".rar"; ".7z"].

Definition skip_paths : gset string :=
  list_to_set ["node_modules"; "venv"; ".git"; ".svn"; "__pycache__"].

(** [ScanOptimizer.should_scan_file] *)
Definition should_scan_file (file_path : string) : bool :=
  if bool_decide (lower (suffix (name file_path)) ∈ skip_extensions) then false
  else if existsb (fun part => bool_decide (part ∈ skip_paths)) (parts file_path)
  then false
  else true.

(** *** [create_batch] *)

(** [except (OSError, IOError)]: the classes the handler takes ([IOError]
    is [OSError]; the others are its subclasses). *)
Definition os_error_classes : list string :=
  ["OSError"; "IOError"; "FileNotFoundError"; "IsADirectoryError";
   "NotADirectoryError"; "PermissionError"; "FileExistsError"].

Definition is_os_error (e : exn) : bool :=
  match e with Exn cls _ => bool_decide (cls ∈ os_error_classes) end.

(** [try: body except (OSError, IOError): handler] *)
Definition try_except_os {W A} (body : M W A) (handler : exn -> M W A) : M W A :=
  fun w =>
    match body w with
    | (Raised e, w') => if is_os_error e then handler e w' else (Raised e, w')
    | r => r
    end.

(** Whether a path has a NUL character in it. *)
Fixpoint has_nul (p : string) : bool :=
  match p with
  | "" => false
  | String c rest => Ascii.eqb c Ascii.zero || has_nul rest
  end.

(** [file.stat()]: a path with a NUL character never reaches the system;
    the call is refused with a [ValueError], which is no [OSError]. *)
Definition path_stat {E} (p : string) : M (World E) (Z * Z) :=
  if has_nul p then raise (Exn "ValueError" "embedded null byte") else stat p.



Section Batches.
Context {E : Type}.



(** [sum(f.stat().st_size for f in files)] *)
Fixpoint sum_sizes (files : list string) : M (World E) Z :=
  match files with
  | [] => ret 0%Z
  | f :: rest =>
      s <- path_stat f ;;
      total <- sum_sizes rest ;;
      ret (fst s + total)%Z
  end.

(** [ScanOptimizer.start_batch], at instant [now].  The sum is assigned
    only when every [stat] went through; after an [OSError] the size stays
    at the default of the dataclass; any other exception leaves the call. *)
Definition start_batch (files : list string) (now : Q)
  : M (World E) Optimizer.ScanBatch :=
  total <- try_except_os (sum_sizes files) (fun _ => ret 0%Z) ;;
  ret (Optimizer.mkBatch files total now 0).





End Batches.

(** *** Statistics *)

(** The whole [ScanOptimizer]: the batch sizing fields ([sizing]) and the
    performance tracking fields. *)
Record Tracker := mkTracker {
  sizing : Optimizer.ScanOptimizer;
  total_files : Z;
  total_size : Z;
  start_time : Q;
  batches : list Optimizer.ScanBatch
}.

(** [ScanOptimizer.__init__] *)
Definition init (target : Z) : Tracker :=
  {| sizing := Optimizer.init target;
     total_files := 0;
     total_size := 0;
     start_time := 0;
     batches := [] |}.

(** [ScanOptimizer.end_batch], at instant [now].  The batch object is
    stamped, recorded, counted, and then drives the batch size. *)
Definition end_batch (t : Tracker) (batch : Optimizer.ScanBatch) (now : Q)
  : Tracker :=
  let batch :=
    Optimizer.mkBatch (Optimizer.files batch) (Optimizer.total_size batch)
                      (Optimizer.start_time batch) now in
  {| sizing := Optimizer.adjust_batch_size (sizing t) batch;
     total_files := total_files t + Z.of_nat (length (Optimizer.files batch));
     total_size := total_size t + Optimizer.total_size batch;
     start_time := start_time t;
     batches := batches t ++ [batch] |}.

(** [ScanOptimizer.reset_stats], at instant [now]. *)
Definition reset_stats (t : Tracker) (now : Q) : Tracker :=
  {| sizing := sizing t;
     total_files := 0;
     total_size := 0;
     start_time := now;
     batches := [] |}.

(** The dictionary of [get_performance_stats]. *)
Record PerformanceStats := mkStats {
  ps_total_files : Z;
  ps_total_size_mb : Q;
  ps_duration_seconds : Q;
  ps_files_per_second : Q;
  ps_mb_per_second : Q;
  ps_current_batch_size : Z;
  ps_batch_count : Z
}.

(** [ScanOptimizer.get_performance_stats], at instant [now]. *)
Definition get_performance_stats (t : Tracker) (now : Q) : PerformanceStats :=
  let duration : Q :=
    (if Py.truthy (start_time t) then now - start_time t else 0)%Q in
  {| ps_total_files := total_files t;
     ps_total_size_mb := (inject_Z (total_size t) / 1024 / 1024)%Q;
     ps_duration_seconds := duration;
     ps_files_per_second :=
       (if Py.gtb duration 0 then inject_Z (total_files t) / duration else 0)%Q;
     ps_mb_per_second :=
       (if Py.gtb duration 0
        then (inject_Z (total_size t) / 1024 / 1024) / duration else 0)%Q;
     ps_current_batch_size := Optimizer.batch_size (sizing t);
     ps_batch_count := Z.of_nat (length (batches t)) |}.

(** The calls that change a tracker. *)
Inductive call :=
| EndBatch (batch : Optimizer.ScanBatch) (now : Q)
| ResetStats (now : Q).

Definition step (t : Tracker) (c : call) : Tracker :=
  match c with
  | EndBatch batch now => end_batch t batch now
  | ResetStats now => reset_stats t now
  end.

Definition run (cs : list call) (t : Tracker) : Tracker := fold_left step cs t.

(** The files and the bytes of the recorded batches. *)
Definition recorded_files (t : Tracker) : Z :=
  fold_right Z.add 0%Z
    (map (fun b => Z.of_nat (length (Optimizer.files b))) (batches t)).

Definition recorded_size (t : Tracker) : Z :=
  fold_right Z.add 0%Z (map Optimizer.total_size (batches t)).

(** The counters say what the recorded batches hold, and the batch size is
    within its bounds. *)
Definition consistent (t : Tracker) : Prop :=
  total_files t = recorded_files t /\
  total_size t = recorded_size t /\
  Optimizer.in_bounds (sizing t).

End Batching.

(** ** [engine.py]: the worker threads and the file batches of a scan *)

Module EnginePool.
Import Sys.
Local Open Scope string_scope.

(** The thread settings of a [ScanEngine]: [max_threads] and the
    [_max_workers] of its executor. *)
Record Pool := mkPool {
  max_threads : Z;
  executor_max_workers : Z
}.

(** [ScanEngine.__init__]: [min(os.cpu_count() or 2, 4)] threads, and an
    executor made for as many. *)
Definition init (cpu_count : option Z) : Pool :=
  let count := match cpu_count with
               | Some n => if (n =? 0)%Z then 2%Z else n
               | None => 2%Z
               end in
  {| max_threads := Z.min count 4;
     executor_max_workers := Z.min count 4 |}.

Definition set_threads (p : Pool) (new_threads : Z) : Pool :=
  if negb (new_threads =? max_threads p)%Z
  then {| max_threads := new_threads; executor_max_workers := new_threads |}
  else p.

(** [ScanEngine._handle_throttling], the callback given to the system
    monitor (the pause that follows changes no field). *)
Definition handle_throttling (p : Pool) : Pool :=
  set_threads p (Z.max 1 (max_threads p / 2)).

(** [ScanEngine._handle_cpu_throttle], the callback registered for the
    [cpu] resource. *)
Definition handle_cpu_throttle (p : Pool) (reduction : Q) : Pool :=
  set_threads p (Z.max 1 (Py.int (inject_Z (max_threads p) * (1 - reduction)))).

(** The two callbacks, as calls. *)
Inductive call :=
| Throttling
| CpuThrottle (reduction : Q).

Definition step (p : Pool) (c : call) : Pool :=
  match c with
  | Throttling => handle_throttling p
  | CpuThrottle r => handle_cpu_throttle p r
  end.

Definition run (cs : list call) (p : Pool) : Pool := fold_left step cs p.

(** A reduction fraction as a throttle rule carries it: not negative. *)
Definition reduction_ok (c : call) : Prop :=
  match c with
  | Throttling => True
  | CpuThrottle r => (0 <= r)%Q
  end.

(** *** [_get_file_batches] *)

(** [file_path.is_file()], answered from the files [files]. *)
Definition is_regular (files : gmap string node) (p : string) : bool :=
  match files !! p with
  | Some (Reg _ _) => true
  | _ => false
  end.

(** What the generator keeps of the paths below the directory. *)
Definition wanted (files : gmap string node) (file_path : string) : bool :=
  is_regular files file_path && Batching.should_scan_file file_path.

(** The loop of [ScanEngine._get_file_batches] over the paths that
    [directory.rglob('*')] yields, with the batch collected so far; the
    result lists the batches in the order they are yielded.  The files are
    taken not to change while the generator runs. *)
Fixpoint file_batches_from (files : gmap string node) (batch_size : Z)
    (found : list string) (batch : list string) : list (list string) :=
  match found with
  | [] => match batch with
          | [] => []
          | _ :: _ => [batch]
          end
  | file_path :: rest =>
      if wanted files file_path then
        let batch := (batch ++ [file_path])%list in
        if (Z.of_nat (length batch) >=? batch_size)%Z
        then batch :: file_batches_from files batch_size rest []
        else file_batches_from files batch_size rest batch
      else file_batches_from files batch_size rest batch
  end.

(** [ScanEngine._get_file_batches] *)
Definition get_file_batches (files : gmap string node) (batch_size : Z)
    (found : list string) : list (list string) :=
  file_batches_from files batch_size found [].

(** Example input: three sources, a picture and a dependency. *)
Definition project : gmap string node :=
  list_to_map [ ("app/a.py", Reg [] 33188%Z); ("app/b.py", Reg [] 33188%Z);
                ("app/logo.png", Reg [] 33188%Z);
                ("app/node_modules/x.js", Reg [] 33188%Z);
                ("app/c.py", Reg [] 33188%Z); ("app/docs", Dir) ].

Definition project_paths : list string :=
  ["app/a.py"; "app/b.py"; "app/logo.png"; "app/node_modules/x.js";
   "app/docs"; "app/c.py"].

End EnginePool.

(** ** [engine.py]: what a scan result can hold *)

Module ScanReport.
Import Sys Scan.
Local Open Scope string_scope.

(** The four values of [result['status']]. *)
Definition statuses : list string := ["error"; "skipped"; "infected"; "clean"].

Section Findings.
Context `{Library}.

(** The findings of steps 2 and 3 of [scan_file], which look at the name
    and at the digest. *)
Definition extension_findings (engine : Engine) (p : string) : list Threat :=
  if bool_decide (lower (suffix p) ∈ suspicious_extensions engine)
  then [suspicious_extension p] else [].

Definition hash_findings (engine : Engine) (content : list Byte.byte)
  : list Threat :=
  if bool_decide (sha256_hex content ∈ hashes engine)
  then [known_malware] else [].

End Findings.

(** What step 4 can add: at most one pattern finding, then one finding per
    matched rule. *)
Definition content_findings (more : list Threat) : Prop :=
  exists found names,
    more = (found ++ map yara_threat names)%list /\
    (found = [] \/ found = [suspicious_pattern]).

(** [status] as the last statement of [scan_file] computes it. *)
Definition verdict (threats : list Threat) : string :=
  match threats with
  | [] => "clean"
  | _ :: _ => "infected"
  end.

Section Accounting.
Context {E : Type} `{Library}.

(** What [scan_file] answers, in terms of the file it was given in the
    world [w]. *)
Definition accounted (engine : Engine) (p : string) (w : World E)
    (r : ScanResult) : Prop :=
  match r with
  | Failed path _ => path = p
  | Skipped path reason =>
      path = p /\ reason = "File too large" /\
      exists content mode,
        fs w !! p = Some (Reg content mode) /\
        (size_limit < Z.of_nat (length content))%Z
  | Scanned path status threats hash file_type =>
      path = p /\
      exists content mode more,
        fs w !! p = Some (Reg content mode) /\
        (Z.of_nat (length content) <= size_limit)%Z /\
        hash = sha256_hex content /\
        threats = (extension_findings engine p
                     ++ hash_findings engine content ++ more)%list /\
        content_findings more /\
        status = verdict threats
  end.

End Accounting.

End ScanReport.

(** ** [quarantine_manager.py]: listing what the store holds *)

Module Listing.
Import Eff Eff.Notations Sys.
Local Open Scope string_scope.

(** [QuarantineManager.get_quarantine_list]: one dictionary per metadata
    entry, the name together with the fields of the entry, in the order of
    the mapping at hand. *)
Definition get_quarantine_list
  : M (World QStore.QuarantineEntry) (list (string * QStore.QuarantineEntry)) :=
  try_except
    (metadata <- QStore.load_metadata ;;
     ret (map_to_list metadata))
    (fun _ => ret []).

End Listing.

(** ** What a restore guarantees *)

Module Restoring.
Import Sys QStore.

(** What a run of [restore_file] guarantees for an entry whose blob
    decrypts to [content], whatever fails: the content is still there, at
    the original path or in the store; and a reported success means that it
    is at the original path, the blob is gone and the name is off the
    metadata. *)
Definition restored_or_held (name : string) (entry : QuarantineEntry)
    (content blob : list Byte.byte) (blob_mode : Z)
    (r : bool) (w' : World QuarantineEntry) : Prop :=
  ((exists mode, fs w' !! original_path entry = Some (Reg content mode))
   \/ (fs w' !! quarantine_path entry = Some (Reg blob blob_mode) /\
       exists metadata, meta w' = Some metadata /\
                        metadata !! name = Some entry))
  /\ (r = true ->
      (exists mode, fs w' !! original_path entry = Some (Reg content mode)) /\
      fs w' !! quarantine_path entry = None /\
      exists metadata, meta w' = Some metadata /\ metadata !! name = None).

End Restoring.

(** ** What the engine's quarantine guarantees *)

Module EngineSafety.
Import Sys EngineQuarantine.

Section Engine.
Context `{Library}.
Variable engine : Engine.

(** The engine's quarantine holds [content], taken from [p], under
    [name]: the metadata has the entry with the digest and a key, and the
    blob decrypts to [content] under that key. *)
Definition held (w : World QuarantineMetadata) (name p : string)
    (content : list Byte.byte) : Prop :=
  exists recorded file_meta key blob blob_mode,
    meta w = Some recorded /\
    recorded !! name = Some file_meta /\
    original_path file_meta = p /\
    file_hash file_meta = sha256_hex content /\
    b64decode (encryption_key file_meta) = Some key /\
    fs w !! path_join (quarantine_path engine) name = Some (Reg blob blob_mode) /\
    fernet_decrypt key blob = Some content.

(** What a run of [quarantine_file] guarantees, whatever fails. *)
Definition kept (ts p : string) (content : list Byte.byte) (mode : Z)
    (r : bool) (w' : World QuarantineMetadata) : Prop :=
  let name := quarantine_name ts (sha256_hex content) p in
  (fs w' !! p = Some (Reg content mode) \/ held w' name p content)
  /\ (r = true -> fs w' !! p = None /\ held w' name p content).

(** What a run of [restore_file] guarantees, whatever fails. *)
Definition restored_or_held (name : string) (file_meta : QuarantineMetadata)
    (content blob : list Byte.byte) (blob_mode : Z)
    (r : bool) (w' : World QuarantineMetadata) : Prop :=
  ((exists mode, fs w' !! original_path file_meta = Some (Reg content mode))
   \/ (fs w' !! path_join (quarantine_path engine) name
       = Some (Reg blob blob_mode) /\
       exists metadata, meta w' = Some metadata /\
                        metadata !! name = Some file_meta))
  /\ (r = true ->
      fs w' !! original_path file_meta
      = Some (Reg content (original_permissions file_meta)) /\
      fs w' !! path_join (quarantine_path engine) name = None /\
      exists metadata, meta w' = Some metadata /\ metadata !! name = None).

End Engine.

End EngineSafety.

(** ** [resource_throttler.py]: readings and thresholds *)

Module ThrottlerReadings.
Import Throttler.
Local Open Scope string_scope.

(** The third default rule. *)
Definition disk_io_rule : ThrottleRule := mkRule "disk_io" 90 (6 # 10) 20 7.

(** The disk figure [check_resources] compares with the threshold: the sum
    of the two cumulative byte counters, in MiB. *)
Definition disk_io_figure (counters : Z * Z) : Q :=
  (inject_Z (fst counters + snd counters) / inject_Z (1024 * 1024))%Q.

(** A host none of whose readings exceeds its default threshold. *)
Definition idle_host : Host :=
  {| clock := fun _ => 0%Z;
     cpu_percent := 80;
     memory_percent := 40;
     disk_io_counters := Some (1024, 2048)%Z |}.

(** A host without disks, under heavy load. *)
Definition diskless_host : Host :=
  {| clock := fun _ => 0%Z;
     cpu_percent := 99;
     memory_percent := 99;
     disk_io_counters := None |}.

(** A host read 10 s after the instant 31 s of [hot_host]. *)
Definition later_host : Host :=
  {| clock := fun _ => 41000000%Z;
     cpu_percent := 5;
     memory_percent := 5;
     disk_io_counters := Some (0, 0)%Z |}.

End ThrottlerReadings.

(** ** [scan_intensity_manager.py]: setting and reading the profile *)

Module IntensityAdmin.
Import Health Intensity.
Local Open Scope string_scope.

(** [ScanIntensityManager.set_profile], at instant [now]. *)
Definition set_profile (m : Manager) (profile_name : string) (now : Z)
  : bool * Manager :=
  match profiles m !! profile_name with
  | None => (false, m)
  | Some _ =>
      (true,
       {| current_profile := profile_name;
          last_adjustment := now;
          adjustment_cooldown := adjustment_cooldown m;
          profiles := profiles m |})
  end.

(** [ScanIntensityManager.get_current_profile]:
    [self.profiles[self.current_profile]], [None] standing for the
    [KeyError] of a name that is no key. *)
Definition get_current_profile (m : Manager) : option ScanProfile :=
  profiles m !! current_profile m.

(** The calls that change a manager. *)
Inductive call :=
| SetProfile (profile_name : string) (now : Z)
| AdjustIntensity (health : option HealthDict) (now1 now2 : Z).

Definition step (m : Manager) (c : call) : Manager :=
  match c with
  | SetProfile profile_name now => snd (set_profile m profile_name now)
  | AdjustIntensity health now1 now2 => snd (adjust_intensity m health now1 now2)
  end.

Definition run (cs : list call) (m : Manager) : Manager := fold_left step cs m.

(** The names of the four profiles. *)
Definition profile_names : list string :=
  ["aggressive"; "balanced"; "conservative"; "minimal"].

(** A manager whose profiles are those of [__init__] and whose current
    profile is one of them. *)
Definition well_formed (m : Manager) : Prop :=
  profiles m = profiles (init 0) /\ In (current_profile m) profile_names.

(** Example input: an idle, healthy host. *)
Definition relaxed : HealthDict :=
  {| hd_status := "healthy"; hd_memory_usage := 30; hd_cpu_usage := 10;
     hd_disk_usage := 40; hd_issues := [] |}.

End IntensityAdmin.

(** ** [system_health_monitor.py]: the history and the alerts *)

Module HealthHistory.
Import Eff Eff.Notations Health.
Local Open Scope string_scope.

(** [self.max_history]: 24 hours at one status a minute. *)
Definition max_history : Z := 1440.

(** [SystemHealthMonitor._update_health_history]: the status is appended,
    and the oldest one dropped once the history is over its length. *)
Definition update_health_history (health_history : list HealthStatus)
    (status : HealthStatus) : list HealthStatus :=
  let appended := (health_history ++ [status])%list in
  if (Z.of_nat (length appended) >? max_history)%Z
  then tail appended
  else appended.

(** The history after the statuses [statuses] came in, one by one, from the
    empty history of [__init__]. *)
Definition history_after (statuses : list HealthStatus) : list HealthStatus :=
  fold_left update_health_history statuses [].

(** A registered alert callback: who it is, and on which status it raises.
    What it does to its owner is outside the monitor; the trace records
    that it was entered. *)
Record alert_callback := mkAlertCallback {
  ac_id : nat;
  ac_raises : HealthStatus -> bool
}.

Inductive event :=
| Alerted (cb : nat)
| AlertFailed (cb : nat).

(** One callback invocation inside its [try]. *)
Definition alert (cb : alert_callback) (status : HealthStatus)
  : M (list event) unit :=
  try_except
    (modify (fun tr => tr ++ [Alerted (ac_id cb)])%list ;;;
     if ac_raises cb status
     then raise (Exn "Exception" "raised by the callback")
     else ret tt)
    (fun _ => modify (fun tr => tr ++ [AlertFailed (ac_id cb)])%list).

(** [SystemHealthMonitor._check_alerts] *)
Definition check_alerts (alert_callbacks : list alert_callback)
    (status : HealthStatus) : M (list event) unit :=
  if existsb (String.eqb (Health.status status)) ["warning"; "critical"]
  then for_each alert_callbacks (fun cb => alert cb status)
  else ret tt.

(** The callbacks entered, as a trace tells. *)
Definition alerted (tr : list event) : list nat :=
  flat_map (fun e => match e with Alerted cb => [cb] | AlertFailed _ => [] end) tr.

(** Whether every reading of a sample is within its threshold and every
    critical service answers. *)
Definition within_thresholds (t : HealthThresholds) (r : Readings) : Prop :=
  (min_disk_space t <= disk_free r)%Z /\
  (memory_percent r <= max_memory_usage t)%Q /\
  (cpu_percent r <= max_cpu_usage t)%Q /\
  (forall temp, read_cpu_temp r = Some temp -> (temp <= max_cpu_temp t)%Q) /\
  (forall service, In service critical_services ->
                   service_check_raises r service = false).

(** Example input: calm readings, and two callbacks of which the first
    raises. *)
Definition calm_readings : Readings :=
  {| disk_free := 200 * 1024 * 1024 * 1024;
     disk_percent := 40;
     memory_percent := 40;
     memory_available := 8 * 1024 * 1024 * 1024;
     cpu_percent := 10;
     sensors := Some [("coretemp", [45%Q])];
     service_check_raises := fun _ => false;
     disk_io_counters := Some [("read_bytes", 1024%Z); ("write_bytes", 2048%Z)] |}.

Definition watchers : list alert_callback :=
  [mkAlertCallback 1 (fun _ => true); mkAlertCallback 2 (fun _ => false)].

End HealthHistory.

(** ** [latency_monitor.py], and the latency part of the engine's statistics *)

Module Latency.
Local Open Scope string_scope.

(** [LatencyRecord]; the instants are [time.perf_counter()] readings, in
    seconds. *)
Record LatencyRecord := mkRecord {
  operation : string;
  start_time : Q;
  end_time : Q;
  file_path : string
}.

(** [LatencyRecord.duration], in milliseconds. *)
Definition duration (r : LatencyRecord) : Q :=
  ((end_time r - start_time r) * 1000)%Q.

(** [self.history_size], the [maxlen] every monitor's deque is made with. *)
Definition history_size : Z := 1000.

(** A [LatencyMonitor]; [latency_history] is the deque, oldest first. *)
Record Monitor := mkMonitor {
  max_latency : Q;
  latency_history : list LatencyRecord;
  current_operations : gmap string Q
}.

(** [LatencyMonitor.__init__] *)
Definition init (max_latency : Q) : Monitor :=
  {| max_latency := max_latency;
     latency_history := [];
     current_operations := ∅ |}.

(** [f"{operation}:{file_path}"] *)
Definition operation_id (operation file_path : string) : string :=
  operation ++ ":" ++ file_path.

(** [LatencyMonitor.start_operation], at reading [now]. *)
Definition start_operation (m : Monitor) (operation file_path : string) (now : Q)
  : Monitor :=
  {| max_latency := max_latency m;
     latency_history := latency_history m;
     current_operations :=
       <[operation_id operation file_path := now]> (current_operations m) |}.

(** [deque(maxlen=n).append(x)]: a full deque drops its oldest item (and
    one of length zero takes nothing). *)
Definition deque_append (maxlen : Z) (items : list LatencyRecord)
    (x : LatencyRecord) : list LatencyRecord :=
  if (maxlen =? 0)%Z then items
  else if (Z.of_nat (length items) >=? maxlen)%Z
  then (tail items ++ [x])%list
  else (items ++ [x])%list.

(** [LatencyMonitor.end_operation], at reading [now]: the duration in
    milliseconds, or [None] for an operation that was not started. *)
Definition end_operation (m : Monitor) (operation file_path : string) (now : Q)
  : option Q * Monitor :=
  match current_operations m !! operation_id operation file_path with
  | None => (None, m)
  | Some started =>
      let record := mkRecord operation started now file_path in
      (Some (duration record),
       {| max_latency := max_latency m;
          latency_history :=
            deque_append history_size (latency_history m) record;
          current_operations :=
            delete (operation_id operation file_path) (current_operations m) |})
  end.

(** [LatencyMonitor.clear_history] *)
Definition clear_history (m : Monitor) : Monitor :=
  {| max_latency := max_latency m;
     latency_history := [];
     current_operations := ∅ |}.

(** [sorted(data)] *)
Fixpoint insert_sorted (x : Q) (sorted : list Q) : list Q :=
  match sorted with
  | [] => [x]
  | y :: rest =>
      if Py.ltb x y then x :: y :: rest else y :: insert_sorted x rest
  end.

Definition sorted (data : list Q) : list Q := fold_right insert_sorted [] data.

(** [statistics.mean] and [statistics.median] on a list that is not
    empty. *)
Definition total (data : list Q) : Q := fold_right Qplus 0%Q data.

Definition mean (data : list Q) : Q :=
  (total data / inject_Z (Z.of_nat (length data)))%Q.

Definition median (data : list Q) : Q :=
  let s := sorted data in
  let n := length data in
  if Nat.odd n then nth (n / 2) s 0%Q
  else ((nth (n / 2 - 1) s 0 + nth (n / 2) s 0) / 2)%Q.

(** [min(data)] and [max(data)], from a first element on. *)
Definition minimum (x : Q) (rest : list Q) : Q :=
  fold_left (fun least y => if Py.ltb y least then y else least) rest x.

Definition maximum (x : Q) (rest : list Q) : Q :=
  fold_left (fun most y => if Py.gtb y most then y else most) rest x.

(** The dictionary of [get_statistics]. *)
Record Statistics := mkStatistics {
  st_average : Q;
  st_median : Q;
  st_min : Q;
  st_max : Q;
  st_violations : Z;
  st_total_operations : Z
}.

(** [sum(1 for d in durations if d > self.max_latency)] *)
Definition count_violations (limit : Q) (durations : list Q) : Z :=
  Z.of_nat (length (List.filter (fun d => Py.gtb d limit) durations)).

(** [LatencyMonitor.get_statistics] *)
Definition get_statistics (m : Monitor) : Statistics :=
  match map duration (latency_history m) with
  | [] => mkStatistics 0 0 0 0 0 0
  | d :: rest =>
      let durations := d :: rest in
      {| st_average := mean durations;
         st_median := median durations;
         st_min := minimum d rest;
         st_max := maximum d rest;
         st_violations := count_violations (max_latency m) durations;
         st_total_operations := Z.of_nat (length durations) |}
  end.

(** The ['latency'] dictionary of [ScanEngine.get_performance_stats]. *)
Record LatencyReport := mkReport {
  average_ms : Q;
  median_ms : Q;
  max_ms : Q;
  violations : Z;
  violation_rate : Q
}.

Definition latency_report (m : Monitor) : LatencyReport :=
  let latency_stats := get_statistics m in
  {| average_ms := st_average latency_stats;
     median_ms := st_median latency_stats;
     max_ms := st_max latency_stats;
     violations := st_violations latency_stats;
     violation_rate :=
       if (st_total_operations latency_stats >? 0)%Z
       then (inject_Z (st_violations latency_stats)
             / inject_Z (st_total_operations latency_stats))%Q
       else 0%Q |}.

(** The calls that change a monitor. *)
Inductive call :=
| Start (operation file_path : string) (now : Q)
| End_ (operation file_path : string) (now : Q)
| Clear.

Definition step (m : Monitor) (c : call) : Monitor :=
  match c with
  | Start operation file_path now => start_operation m operation file_path now
  | End_ operation file_path now => snd (end_operation m operation file_path now)
  | Clear => clear_history m
  end.

Definition run (cs : list call) (m : Monitor) : Monitor := fold_left step cs m.

(** Example input: three scans timed against a limit of 100 ms. *)
Definition timed : list call :=
  [ Start "scan" "a.txt" (1 # 1); End_ "scan" "a.txt" (105 # 100);
    Start "scan" "b.txt" (2 # 1); End_ "scan" "b.txt" (25 # 10);
    Start "scan" "c.txt" (3 # 1); End_ "scan" "c.txt" (302 # 100) ].

End Latency.

(** * Part II: properties *)

(** ** Facts about the numerics *)

Module PyFacts.

Lemma ltb_lt x y : Py.ltb x y = true <-> (x < y)%Q.
Proof.
  unfold Py.ltb. rewrite negb_true_iff, <- not_true_iff_false, Qle_bool_iff.
  split; [apply Qnot_le_lt | apply Qlt_not_le].
Qed.

Lemma gtb_gt x y : Py.gtb x y = true <-> (y < x)%Q.
Proof. apply ltb_lt. Qed.

Lemma ltb_ge x y : Py.ltb x y = false <-> (y <= x)%Q.
Proof.
  unfold Py.ltb. rewrite negb_false_iff. apply Qle_bool_iff.
Qed.

Lemma int_inject (z : Z) : Py.int (inject_Z z) = z.
Proof. unfold Py.int; simpl. apply Z.quot_1_r. Qed.

Lemma int_floor (x : Q) : (0 <= Qnum x)%Z -> Py.int x = Qfloor x.
Proof.
  destruct x as [a b]; unfold Py.int; simpl; intros Ha.
  apply Z.quot_div_nonneg; lia.
Qed.

Lemma int_ceiling (x : Q) : (Qnum x <= 0)%Z -> Py.int x = Qceiling x.
Proof.
  destruct x as [a b]; unfold Py.int, Qceiling; simpl; intros Ha.
  rewrite <- (Z.opp_involutive a) at 1.
  rewrite Z.quot_opp_l by lia.
  rewrite Z.quot_div_nonneg by lia. reflexivity.
Qed.

(** Truncation is monotone. *)
Lemma int_mono (x y : Q) : (x <= y)%Q -> (Py.int x <= Py.int y)%Z.
Proof.
  intros H.
  destruct (Z.le_gt_cases 0 (Qnum x)) as [Hx | Hx].
  - assert (Hy : (0 <= Qnum y)%Z).
    { destruct x as [a b], y as [c d]; unfold Qle in H; simpl in *. nia. }
    rewrite !int_floor by assumption. now apply Qfloor_resp_le.
  - destruct (Z.le_gt_cases 0 (Qnum y)) as [Hy | Hy].
    + rewrite (int_ceiling x) by lia. rewrite (int_floor y) by assumption.
      transitivity 0%Z.
      * change 0%Z with (Qceiling 0). apply Qceiling_resp_le.
        destruct x as [a b]; unfold Qle; simpl in *. lia.
      * change 0%Z with (Qfloor 0). apply Qfloor_resp_le.
        destruct y as [c d]; unfold Qle; simpl in *. lia.
    + rewrite !int_ceiling by lia. now apply Qceiling_resp_le.
Qed.

End PyFacts.

(** ** The batch size stays within its bounds *)

Module OptimizerFacts.
Import Optimizer.

Lemma scaled_le (o : ScanOptimizer) (f : Q) :
  (0 <= batch_size o)%Z -> (f <= 1)%Q -> (scaled o f <= batch_size o)%Z.
Proof.
  intros Hb Hf. unfold scaled.
  rewrite <- (PyFacts.int_inject (batch_size o)) at 2.
  apply PyFacts.int_mono.
  assert (Hq : (0 <= inject_Z (batch_size o))%Q).
  { unfold Qle; simpl. lia. }
  nra.
Qed.

Lemma scaled_ge (o : ScanOptimizer) (f : Q) :
  (0 <= batch_size o)%Z -> (1 <= f)%Q -> (batch_size o <= scaled o f)%Z.
Proof.
  intros Hb Hf. unfold scaled.
  rewrite <- (PyFacts.int_inject (batch_size o)) at 1.
  apply PyFacts.int_mono.
  assert (Hq : (0 <= inject_Z (batch_size o))%Q).
  { unfold Qle; simpl. lia. }
  nra.
Qed.

Lemma adjust_batch_size_in_bounds (o : ScanOptimizer) (b : ScanBatch) :
  in_bounds o -> in_bounds (adjust_batch_size o b).
Proof.
  intros (Hmin & Hmax & Hlo & Hhi). unfold adjust_batch_size.
  destruct (Py.ltb _ _).
  - pose proof (scaled_le o (8 # 10) ltac:(lia) ltac:(lra)).
    unfold in_bounds; simpl. lia.
  - destruct (Py.gtb _ _).
    + pose proof (scaled_ge o (12 # 10) ltac:(lia) ltac:(lra)).
      unfold in_bounds; simpl. lia.
    + unfold in_bounds; lia.
Qed.

Lemma handle_memory_throttle_in_bounds (o : ScanOptimizer) (r : Q) :
  (0 <= r)%Q -> in_bounds o -> in_bounds (handle_memory_throttle o r).
Proof.
  intros Hr (Hmin & Hmax & Hlo & Hhi). unfold handle_memory_throttle.
  pose proof (scaled_le o (1 - r) ltac:(lia) ltac:(lra)).
  unfold in_bounds; simpl. lia.
Qed.

Lemma step_in_bounds (o : ScanOptimizer) (c : call) :
  reduction_ok c -> in_bounds o -> in_bounds (step o c).
Proof.
  destruct c; simpl; intros Hc Ho.
  - now apply adjust_batch_size_in_bounds.
  - now apply handle_memory_throttle_in_bounds.
Qed.

Lemma run_in_bounds (cs : list call) :
  forall o, Forall reduction_ok cs -> in_bounds o -> in_bounds (run cs o).
Proof.
  induction cs as [| c cs IH]; intros o Hcs Ho; simpl; [assumption |].
  inversion Hcs; subst. apply IH; [assumption |].
  now apply step_in_bounds.
Qed.

Lemma init_in_bounds (target : Z) : in_bounds (init target).
Proof. unfold in_bounds, init; simpl. lia. Qed.

(** C10.  From the initial optimizer (batch size 1000), after any sequence of
    [adjust_batch_size] calls and memory-throttle callbacks whose reduction
    fractions are not negative, the batch size lies between the minimum 100
    and the maximum 5000, and those two limits themselves are unchanged. *)
Theorem batch_size_stays_in_bounds (target : Z) (cs : list call) :
  Forall reduction_ok cs ->
  let o := run cs (init target) in
  (min_batch_size o = 100 /\ max_batch_size o = 5000 /\
   min_batch_size o <= batch_size o <= max_batch_size o)%Z.
Proof.
  intros Hcs o.
  destruct (run_in_bounds cs (init target) Hcs (init_in_bounds target))
    as (Hmin & Hmax & Hb).
  fold o in Hmin, Hmax, Hb. lia.
Qed.

Example sample_calls_run : batch_size (run sample_calls (init 1000)) = 576%Z.
Proof. vm_compute. reflexivity. Qed.

Lemma batch_size_stays_in_bounds_witness :
  Forall reduction_ok sample_calls /\
  (100 <= batch_size (run sample_calls (init 1000)) <= 5000)%Z.
Proof.
  assert (H : Forall reduction_ok sample_calls).
  { repeat constructor. simpl. lra. }
  split; [exact H |].
  pose proof (batch_size_stays_in_bounds 1000 sample_calls H) as (Hmin & Hmax & Hb).
  rewrite Hmin, Hmax in Hb. exact Hb.
Defined.

(** The sign condition is the data model's (a reduction fraction lies in
    0..1); the handler itself does not check it, and a negative value would
    enlarge the batch. *)
Example negative_reduction_escapes :
  batch_size (run [MemoryThrottle (-9 # 1)] (init 1000)) = 10000%Z.
Proof. vm_compute. reflexivity. Qed.

End OptimizerFacts.

(** ** Health evaluation: which issues are critical *)

Module HealthFacts.
Import Health.
Local Open Scope string_scope.

Lemma prefix_append (p s : string) : String.prefix p (p ++ s) = true.
Proof.
  induction p as [| a p IH].
  - destruct s; reflexivity.
  - change (String a p ++ s) with (String a (p ++ s)).
    cbn [String.prefix]. destruct (ascii_dec a a); [exact IH | congruence].
Qed.

Section Evaluate.
Variable fmt_1f : Q -> string.

(** Only the service issues carry the "Critical" prefix. *)
Lemma disk_issues_not_critical t r :
  existsb is_critical_issue (disk_issues fmt_1f t r) = false.
Proof. unfold disk_issues. destruct (_ <? _)%Z; reflexivity. Qed.

Lemma memory_issues_not_critical t r :
  existsb is_critical_issue (memory_issues fmt_1f t r) = false.
Proof. unfold memory_issues. destruct (Py.gtb _ _); reflexivity. Qed.

Lemma cpu_issues_not_critical t r :
  existsb is_critical_issue (cpu_issues fmt_1f t r) = false.
Proof. unfold cpu_issues. destruct (Py.gtb _ _); reflexivity. Qed.

Lemma temperature_issues_not_critical t r :
  existsb is_critical_issue (temperature_issues fmt_1f t r) = false.
Proof.
  unfold temperature_issues.
  destruct (read_cpu_temp r); [destruct (Py.gtb _ _) |]; reflexivity.
Qed.

Lemma service_issues_critical (names : list string) (raises : string -> bool) :
  existsb is_critical_issue
    (service_issues (map (fun s => (s, negb (raises s))) names))
  = existsb raises names.
Proof.
  induction names as [| s names IH]; simpl; [reflexivity |].
  destruct (raises s); simpl; [reflexivity | exact IH].
Qed.

Lemma critical_issue_iff t r :
  existsb is_critical_issue (collect_issues fmt_1f t r)
  = existsb (service_check_raises r) critical_services.
Proof.
  unfold collect_issues. rewrite !existsb_app.
  rewrite disk_issues_not_critical, memory_issues_not_critical,
    cpu_issues_not_critical, temperature_issues_not_critical.
  cbn [orb]. unfold check_critical_services.
  apply service_issues_critical.
Qed.

(** An evaluation that yields a status yields the one computed from the
    issues. *)
Lemma check_system_health_inv t now r h :
  check_system_health fmt_1f t now r = Some h ->
  issues h = collect_issues fmt_1f t r /\
  status h = overall_status (collect_issues fmt_1f t r).
Proof.
  unfold check_system_health.
  destruct (disk_io_counters r); [| discriminate].
  intros Hh. inversion Hh; subst. split; reflexivity.
Qed.

Lemma check_system_health_total t now r counters :
  disk_io_counters r = Some counters ->
  exists h, check_system_health fmt_1f t now r = Some h.
Proof. intros Hc. unfold check_system_health. rewrite Hc. eauto. Qed.

Lemma overall_status_critical_iff t r :
  overall_status (collect_issues fmt_1f t r) = "critical"
  <-> exists s, In s critical_services /\ service_check_raises r s = true.
Proof.
  unfold overall_status. rewrite critical_issue_iff.
  destruct (existsb _ critical_services) eqn:E.
  - split; [intros _ | reflexivity]. exact (proj1 (existsb_exists _ _) E).
  - split.
    + destruct (collect_issues fmt_1f t r); discriminate.
    + intros H. apply (proj2 (existsb_exists _ _)) in H. congruence.
Qed.

Lemma low_disk_first_issue t r :
  (disk_free r < min_disk_space t)%Z ->
  exists rest,
    collect_issues fmt_1f t r
    = ("Low disk space: "
         ++ fmt_1f (inject_Z (disk_free r) / 1024 / 1024 / 1024)%Q ++ "GB free")
        :: rest.
Proof.
  intros H. unfold collect_issues, disk_issues.
  apply Z.ltb_lt in H. rewrite H. simpl. eauto.
Qed.

End Evaluate.

(** The evaluation of [low_disk_readings]: free space is under 1 GiB, a
    status is produced, its only issue is the low-disk one, and it is not the
    case that some issue is critical-tagged and the status "critical": the
    status is "warning". *)
Lemma low_disk_is_a_warning :
  (disk_free low_disk_readings < 1024 * 1024 * 1024)%Z /\
  exists h,
    check_system_health fmt_tenths default_thresholds 0 low_disk_readings = Some h /\
    issues h = ["Low disk space: 0.5GB free"] /\
    status h = "warning" /\
    ~ ((exists i, In i (issues h) /\ is_critical_issue i = true) /\
       status h = "critical").
Proof.
  split; [vm_compute; reflexivity |].
  eexists. split; [vm_compute; reflexivity |].
  split; [reflexivity |]. split; [reflexivity |].
  intros [_ H]. discriminate H.
Qed.

(** C3, as the code has it.  For every evaluation, with the default
    thresholds, of a sample whose free disk space is below 1 GiB, the
    resulting status [h] starts its issue list with the "Low disk space"
    issue, which is not critical-tagged; the overall status is never
    "healthy"; it is "critical" exactly when some critical-service check
    failed, and "warning" when none did. *)
Theorem low_disk_status (fmt_1f : Q -> string) (now : Z) (r : Readings) h :
  (disk_free r < 1024 * 1024 * 1024)%Z ->
  check_system_health fmt_1f default_thresholds now r = Some h ->
  (exists i rest, issues h = i :: rest /\
     String.prefix "Low disk space: " i = true /\ is_critical_issue i = false) /\
  status h <> "healthy" /\
  (status h = "critical"
   <-> exists s, In s critical_services /\ service_check_raises r s = true) /\
  ((forall s, In s critical_services -> service_check_raises r s = false) ->
   status h = "warning").
Proof.
  intros Hlow Hh.
  destruct (check_system_health_inv fmt_1f _ _ _ _ Hh) as [Hissues Hst].
  destruct (low_disk_first_issue fmt_1f default_thresholds r Hlow) as [rest Hi].
  split; [| split; [| split]].
  - exists ("Low disk space: "
              ++ fmt_1f (inject_Z (disk_free r) / 1024 / 1024 / 1024)%Q ++ "GB free"),
      rest.
    split; [now rewrite Hissues |]. split; [apply prefix_append | reflexivity].
  - rewrite Hst. unfold overall_status. rewrite Hi.
    destruct (existsb _ _); discriminate.
  - rewrite Hst. apply overall_status_critical_iff.
  - intros Hup. rewrite Hst. unfold overall_status.
    rewrite critical_issue_iff.
    replace (existsb (service_check_raises r) critical_services) with false.
    + rewrite Hi. reflexivity.
    + symmetry. apply not_true_is_false. intros Hex.
      apply existsb_exists in Hex as (s & Hs & Hr).
      rewrite (Hup s Hs) in Hr. discriminate.
Qed.

Lemma low_disk_status_witness :
  exists h,
    check_system_health fmt_tenths default_thresholds 0 low_disk_readings = Some h /\
    status h <> "healthy" /\ status h = "warning".
Proof.
  destruct (check_system_health_total fmt_tenths default_thresholds 0
              low_disk_readings _ eq_refl) as [h Hh].
  assert (Hlow : (disk_free low_disk_readings < 1024 * 1024 * 1024)%Z)
    by (vm_compute; reflexivity).
  destruct (low_disk_status fmt_tenths 0 low_disk_readings h Hlow Hh)
    as (_ & Hne & _ & Hwarn).
  exists h. split; [exact Hh |]. split; [exact Hne |].
  apply Hwarn. intros s _. reflexivity.
Defined.

End HealthFacts.

(** ** The intensity manager changes profile at most once per cooldown *)

Module IntensityFacts.
Import Health Intensity.
Local Open Scope string_scope.
Local Open Scope Z_scope.

(** What one call can do: nothing at all, or a genuine change of profile,
    stamped with the instant read at the change. *)
Lemma adjust_intensity_cases m health now1 now2 r m' :
  adjust_intensity m health now1 now2 = (r, m') ->
  (r = None /\ m' = m)
  \/ (exists h p,
        health = Some h /\ r = Some p /\
        adjustment_cooldown m <= now1 - last_adjustment m /\
        current_profile m' = select_profile h /\
        current_profile m' <> current_profile m /\
        profiles m !! current_profile m' = Some p /\
        last_adjustment m' = now2 /\
        adjustment_cooldown m' = adjustment_cooldown m /\
        profiles m' = profiles m).
Proof.
  unfold adjust_intensity. intros H.
  destruct (_ <? _) eqn:Hcool; [left; split; congruence |].
  apply Z.ltb_ge in Hcool.
  destruct health as [h |]; [| left; split; congruence].
  destruct (String.eqb (select_profile h) (current_profile m)) eqn:Hsel; simpl in H;
    [left; split; congruence |].
  destruct (profiles m !! current_profile m); [| left; split; congruence].
  destruct (profiles m !! select_profile h) as [p |] eqn:Hp;
    [| left; split; congruence].
  right. exists h, p. inversion H; subst; simpl.
  apply String.eqb_neq in Hsel. repeat split; auto.
Qed.

Lemma adjust_intensity_in_cooldown m health now1 now2 :
  now1 - last_adjustment m < adjustment_cooldown m ->
  adjust_intensity m health now1 now2 = (None, m).
Proof.
  intros H. unfold adjust_intensity.
  apply Z.ltb_lt in H. rewrite H. reflexivity.
Qed.

Lemma adjust_intensity_same_profile m h now1 now2 :
  select_profile h = current_profile m ->
  adjust_intensity m (Some h) now1 now2 = (None, m).
Proof.
  intros H. unfold adjust_intensity.
  destruct (_ <? _); [reflexivity |].
  rewrite H, String.eqb_refl. reflexivity.
Qed.

(** C8.  Take any call of [adjust_intensity], with result [r] and new state
    [m1].  (1) The last-adjustment timestamp differs afterwards only if the
    call returned a profile and the current profile changed; (2) a call that
    selects the profile already current returns no profile and changes
    nothing, the timestamp included; (3) if the call did adjust, a second
    call whose clock reading is less than the cooldown (5 minutes) after the
    recorded adjustment returns no profile and leaves the profile, and the
    whole state, as they are. *)
Theorem adjust_intensity_idempotent m health now1 now2 r m1 :
  adjust_intensity m health now1 now2 = (r, m1) ->
  (last_adjustment m1 <> last_adjustment m ->
   current_profile m1 <> current_profile m /\
   exists p, r = Some p /\ profiles m !! current_profile m1 = Some p) /\
  (forall h, health = Some h -> select_profile h = current_profile m ->
             r = None /\ m1 = m) /\
  (forall p health2 now3 now4,
     r = Some p ->
     now3 - now2 < adjustment_cooldown m1 ->
     adjust_intensity m1 health2 now3 now4 = (None, m1)).
Proof.
  intros H. split; [| split].
  - intros Hts.
    destruct (adjust_intensity_cases _ _ _ _ _ _ H)
      as [[_ ->] | (h & p & _ & -> & _ & _ & Hne & Hp & _)];
      [congruence | eauto].
  - intros h -> Hsel.
    rewrite (adjust_intensity_same_profile _ _ _ _ Hsel) in H.
    split; congruence.
  - intros p health2 now3 now4 -> Hwin.
    destruct (adjust_intensity_cases _ _ _ _ _ _ H)
      as [[? _] | (h & p' & _ & _ & _ & _ & _ & _ & Hts & _)];
      [discriminate |].
    apply adjust_intensity_in_cooldown. rewrite Hts. exact Hwin.
Qed.

(** A manager created at instant 0 adjusts to "minimal" six minutes later;
    one minute after that a second call, whatever the health, does nothing. *)
Example first_adjustment :
  adjust_intensity (init 0) (Some pressed) 360000000 360000001
  = (Some minimal,
     mkManager "minimal" 360000001 300000000 (profiles (init 0))).
Proof. vm_compute. reflexivity. Qed.

Lemma adjust_intensity_idempotent_witness :
  let m1 := mkManager "minimal" 360000001 300000000 (profiles (init 0)) in
  adjust_intensity m1 None 420000000 420000001 = (None, m1).
Proof.
  intros m1.
  destruct (adjust_intensity_idempotent _ _ _ _ _ _ first_adjustment)
    as (_ & _ & Hsecond).
  apply (Hsecond minimal); [reflexivity | vm_compute; reflexivity].
Defined.

End IntensityFacts.

(** ** Reasoning about computations *)

Module EffFacts.
Import Eff Eff.Notations.

Section Laws.
Context {W : Type}.

Lemma bind_returned {A B} (m : M W A) (k : A -> M W B) w a w' :
  m w = (Returned a, w') -> bind m k w = k a w'.
Proof. unfold bind. now intros ->. Qed.

Lemma bind_raised {A B} (m : M W A) (k : A -> M W B) w e w' :
  m w = (Raised e, w') -> bind m k w = (Raised e, w').
Proof. unfold bind. now intros ->. Qed.

(** A bind that returns went through both halves. *)
Lemma bind_inv {A B} (m : M W A) (k : A -> M W B) w b w2 :
  bind m k w = (Returned b, w2) ->
  exists a w1, m w = (Returned a, w1) /\ k a w1 = (Returned b, w2).
Proof.
  unfold bind. destruct (m w) as [[a | e |] w1]; intros H;
    [eauto | discriminate | discriminate].
Qed.

Lemma try_except_returned {A} (body : M W A) handler w a w' :
  body w = (Returned a, w') -> try_except body handler w = (Returned a, w').
Proof. unfold try_except. now intros ->. Qed.

Lemma try_except_raised {A} (body : M W A) handler w e w' :
  body w = (Raised e, w') -> try_except body handler w = handler e w'.
Proof. unfold try_except. now intros ->. Qed.

End Laws.

Section Triples.
Context {W : Type}.

Lemma returns_ensures {A} (P : A -> Prop) (m : M W A) :
  returns P m -> ensures P m.
Proof. intros H w. destruct (H w) as (a & w' & -> & Ha). exact Ha. Qed.

Lemma ensures_ret {A} (P : A -> Prop) (a : A) : P a -> ensures (W := W) P (ret a).
Proof. intros Ha w. exact Ha. Qed.

Lemma returns_ret {A} (P : A -> Prop) (a : A) : P a -> returns (W := W) P (ret a).
Proof. intros Ha w. exists a, w. split; [reflexivity | exact Ha]. Qed.

Lemma ensures_raise {A} (P : A -> Prop) e : ensures (W := W) P (raise e).
Proof. intros w. exact I. Qed.

Lemma ensures_bind {A B} (P : A -> Prop) (Q : B -> Prop)
    (m : M W A) (k : A -> M W B) :
  ensures P m -> (forall a, P a -> ensures Q (k a)) -> ensures Q (bind m k).
Proof.
  intros Hm Hk w. specialize (Hm w). unfold bind.
  destruct (m w) as [[a | e |] w1]; cbn in *; [| exact I | exact Hm].
  apply (Hk a Hm).
Qed.

Lemma returns_try_except {A} (P : A -> Prop) (body : M W A) handler :
  ensures P body -> (forall e, returns P (handler e)) ->
  returns P (try_except body handler).
Proof.
  intros Hb Hh w. specialize (Hb w). unfold try_except.
  destruct (body w) as [[a | e |] w1]; cbn in *.
  - eauto.
  - apply Hh.
  - contradiction.
Qed.

Lemma ensures_weaken {A} (P Q : A -> Prop) (m : M W A) :
  (forall a, P a -> Q a) -> ensures P m -> ensures Q m.
Proof.
  intros HPQ Hm w. specialize (Hm w).
  destruct (fst (m w)); auto.
Qed.

Lemma ensures_gets {A} (f : W -> A) : ensures (fun _ => True) (gets f).
Proof. intros w. exact I. Qed.

Lemma ensures_get : ensures (W := W) (fun _ => True) get.
Proof. intros w. exact I. Qed.

Lemma ensures_modify (f : W -> W) : ensures (fun _ => True) (modify f).
Proof. intros w. exact I. Qed.

End Triples.

Section Wp.
Context {W : Type}.

Lemma wp_ret {A} (a : A) (Qr : A -> W -> Prop) Qe w :
  Qr a w -> wp (ret a) Qr Qe w.
Proof. exact id. Qed.

Lemma wp_raise {A} e (Qr : A -> W -> Prop) (Qe : exn -> W -> Prop) w :
  Qe e w -> wp (raise e) Qr Qe w.
Proof. exact id. Qed.

Lemma wp_bind {A B} (m : M W A) (k : A -> M W B) Qr Qe w :
  wp m (fun a w' => wp (k a) Qr Qe w') Qe w -> wp (bind m k) Qr Qe w.
Proof.
  unfold wp, bind. destruct (m w) as [[a | e |] w']; exact id.
Qed.

Lemma wp_try_except {A} (body : M W A) handler Qr Qe w :
  wp body Qr (fun e w' => wp (handler e) Qr Qe w') w ->
  wp (try_except body handler) Qr Qe w.
Proof.
  unfold wp, try_except. destruct (body w) as [[a | e |] w']; exact id.
Qed.

Lemma wp_reraise {A} (body : M W A) Qr Qe w :
  wp body Qr Qe w -> wp (try_except body (fun e => raise e)) Qr Qe w.
Proof.
  intros H. apply wp_try_except. unfold wp in *.
  destruct (body w) as [[a | e |] w']; exact H.
Qed.

Lemma wp_get (Qr : W -> W -> Prop) Qe w : Qr w w -> wp get Qr Qe w.
Proof. exact id. Qed.

Lemma wp_gets {A} (f : W -> A) (Qr : A -> W -> Prop) Qe w :
  Qr (f w) w -> wp (gets f) Qr Qe w.
Proof. exact id. Qed.

Lemma wp_modify (f : W -> W) (Qr : unit -> W -> Prop) Qe w :
  Qr tt (f w) -> wp (modify f) Qr Qe w.
Proof. exact id. Qed.

(** What [wp] says about the result of a run. *)
Lemma wp_run {A} (m : M W A) Qr Qe w r w' :
  wp m Qr Qe w -> m w = (r, w') ->
  match r with
  | Returned a => Qr a w'
  | Raised e => Qe e w'
  | Blocked => False
  end.
Proof. unfold wp. intros H Hrun. rewrite Hrun in H. exact H. Qed.

End Wp.

End EffFacts.

(** ** The throttle controller: cooldown, release and activation *)

Module ThrottlerFacts.
Import Eff Eff.Notations EffFacts Throttler.
Local Open Scope Z_scope.

Lemma ticks_S n w : ticks n (tick w) = ticks (S n) w.
Proof.
  unfold ticks. induction n as [| n IH]; [reflexivity |].
  simpl in *. now rewrite IH.
Qed.

Lemma ticks_fields n w :
  lock_held (ticks n w) = lock_held w /\
  is_throttled (ticks n w) = is_throttled w /\
  throttle_start (ticks n w) = throttle_start w /\
  current_rules (ticks n w) = current_rules w /\
  throttle_callbacks (ticks n w) = throttle_callbacks w /\
  rules (ticks n w) = rules w /\
  trace (ticks n w) = trace w.
Proof.
  unfold ticks. induction n as [| n IH]; simpl; [tauto |].
  destruct IH as (? & ? & ? & ? & ? & ? & ?). tauto.
Qed.

Section Cooldown.
Variable host : Host.
Variable start : Z.

(** The loop answers "still cooling down" as soon as one turn finds its
    rule's cooldown not yet elapsed. *)
Lemma in_cooldown_true (active : list ThrottleRule) :
  forall w (j : nat) rule,
    active !! j = Some rule ->
    clock host (clock_reads w + j) - start < cooldown rule * 1000000 ->
    exists n, in_cooldown host start active w = (Returned true, ticks n w).
Proof.
  induction active as [| r rest IH]; intros w j rule Hj Hlt; [discriminate |].
  simpl. unfold bind, now.
  destruct (clock host (clock_reads w) - start <? cooldown r * 1000000) eqn:Hr.
  - exists 1%nat. reflexivity.
  - destruct j as [| j].
    + simpl in Hj. inversion Hj; subst.
      rewrite Nat.add_0_r in Hlt. apply Z.ltb_ge in Hr. lia.
    + simpl in Hj.
      destruct (IH (tick w) j rule Hj) as [n Hn].
      { replace (clock_reads (tick w) + j)%nat with (clock_reads w + S j)%nat
          by (simpl; lia).
        exact Hlt. }
      exists (S n). rewrite Hn, ticks_S. reflexivity.
Qed.

(** It answers "cooldown over" when every turn finds its rule's cooldown
    elapsed. *)
Lemma in_cooldown_false (active : list ThrottleRule) :
  forall w,
    (forall (j : nat) rule,
        active !! j = Some rule ->
        cooldown rule * 1000000 <= clock host (clock_reads w + j) - start) ->
    in_cooldown host start active w
    = (Returned false, ticks (length active) w).
Proof.
  induction active as [| r rest IH]; intros w Hall; [reflexivity |].
  simpl. unfold bind, now.
  pose proof (Hall 0%nat r eq_refl) as H0. rewrite Nat.add_0_r in H0.
  apply Z.ltb_ge in H0. rewrite H0.
  rewrite IH, ticks_S; [reflexivity |].
  intros j rule Hj.
  replace (clock_reads (tick w) + j)%nat with (clock_reads w + S j)%nat
    by (simpl; lia).
  now apply Hall.
Qed.

End Cooldown.

Lemma max_cooldown_attained (active : list ThrottleRule) :
  active <> [] ->
  exists (j : nat) rule,
    active !! j = Some rule /\ cooldown rule = max_cooldown active.
Proof.
  induction active as [| r rest IH]; [congruence |]. intros _.
  destruct rest as [| r' rest'].
  - exists 0%nat, r. split; reflexivity.
  - destruct IH as (j & rule & Hj & Hmax); [discriminate |].
    change (max_cooldown (r :: r' :: rest'))
      with (Z.max (cooldown r) (max_cooldown (r' :: rest'))).
    destruct (Z.max_spec (cooldown r) (max_cooldown (r' :: rest')))
      as [[_ ->] | [_ ->]].
    + exists (S j), rule. split; assumption.
    + exists 0%nat, r. split; reflexivity.
Qed.

(** The body of [check_resources] when the throttle is on. *)
Lemma check_resources_throttled host w start :
  lock_held w = false -> is_throttled w = true -> throttle_start w = Some start ->
  check_resources host w
  = with_lock (still <- in_cooldown host start (current_rules w) ;;
               if still then ret true else (release_throttle ;;; ret false)) w.
Proof.
  intros Hl Ht Hs. unfold check_resources, with_lock. rewrite Hl.
  unfold bind at 1. unfold get at 1. cbn [is_throttled throttle_start set_lock current_rules].
  rewrite Ht, Hs. reflexivity.
Qed.

(** C6.  When [check_resources] is called with the lock free and the
    throttle on, with at least one active rule, and every clock reading of
    the call is less than the longest cooldown after the activation, it
    returns true; nothing is sampled and no callback runs (the trace is
    unchanged), and the throttle state is as before, whatever the host's CPU,
    memory and disk figures are. *)
Theorem check_resources_within_cooldown host w start :
  lock_held w = false ->
  is_throttled w = true ->
  throttle_start w = Some start ->
  current_rules w <> [] ->
  (forall k : nat, (k < length (current_rules w))%nat ->
     clock host (clock_reads w + k) - start
     < max_cooldown (current_rules w) * 1000000) ->
  exists w',
    check_resources host w = (Returned true, w') /\
    trace w' = trace w /\
    lock_held w' = false /\
    is_throttled w' = true /\
    throttle_start w' = Some start /\
    current_rules w' = current_rules w.
Proof.
  intros Hl Ht Hs Hne Hclock.
  destruct (max_cooldown_attained _ Hne) as (j & rule & Hj & Hmax).
  assert (Hlt : clock host (clock_reads (set_lock true w) + j) - start
                < cooldown rule * 1000000).
  { rewrite Hmax. apply Hclock. apply lookup_lt_Some in Hj. exact Hj. }
  destruct (in_cooldown_true host start _ (set_lock true w) j rule Hj Hlt)
    as [n Hn].
  rewrite (check_resources_throttled host w start Hl Ht Hs).
  unfold with_lock. rewrite Hl. unfold bind.
  cbn [current_rules set_lock] in Hn. rewrite Hn.
  eexists. split; [reflexivity |].
  destruct (ticks_fields n (set_lock true w)) as (_ & H1 & H2 & H3 & _ & _ & H4).
  cbn [is_throttled throttle_start current_rules trace set_lock lock_held] in *.
  rewrite H1, H2, H3, H4. auto.
Qed.

Lemma check_resources_within_cooldown_witness :
  exists w',
    check_resources early_host throttled_at_0 = (Returned true, w') /\
    trace w' = [].
Proof.
  destruct (check_resources_within_cooldown early_host throttled_at_0 0)
    as (w' & Hrun & Htrace & _).
  - reflexivity.
  - reflexivity.
  - reflexivity.
  - discriminate.
  - intros k Hk. vm_compute. reflexivity.
  - exists w'. split; [exact Hrun | exact Htrace].
Defined.

(** A call that returns or raises leaves the lock as free as it found it. *)
Lemma with_lock_releases {A} (body : M World A) w r w' :
  lock_held w = false ->
  with_lock body w = (r, w') -> r <> Blocked -> lock_held w' = false.
Proof.
  unfold with_lock. intros -> H Hr.
  destruct (body (set_lock true w)) as [[a | e |] w1];
    inversion H; subst; [reflexivity | reflexivity | congruence].
Qed.

(** Taking the lock again while holding it never comes back. *)
Lemma with_lock_held {A} (body : M World A) w :
  lock_held w = true -> with_lock body w = (Blocked, w).
Proof. unfold with_lock. now intros ->. Qed.

(** Called on its own, with the lock free, [release_throttle] clears the
    throttle state. *)
Lemma release_throttle_clears w :
  lock_held w = false -> is_throttled w = true ->
  release_throttle w = (Returned tt, set_throttle false None [] w).
Proof.
  intros Hl Ht. unfold release_throttle, with_lock. rewrite Hl.
  unfold bind, get, modify. cbn [is_throttled set_lock]. rewrite Ht.
  destruct w; simpl in *; subst; reflexivity.
Qed.

(** At 31 s the 30 s cooldown of [throttled_at_0] is over and the CPU is at
    95%, above its threshold.  The call samples nothing, so it cannot have
    looked at the triggers again; the throttle state is not cleared either,
    and the call does not return. *)
Lemma cooldown_over_no_fall_through :
  let (r, w') := check_resources hot_host throttled_at_0 in
  r = Blocked /\ samples (trace w') = [] /\
  is_throttled w' = true /\ current_rules w' = [cpu_rule].
Proof. vm_compute. repeat split; reflexivity. Qed.

(** Once every cooldown is over the call reaches [release_throttle], which
    asks for the lock the call itself holds. *)
Lemma check_resources_release_blocks host w start :
  lock_held w = false ->
  is_throttled w = true ->
  throttle_start w = Some start ->
  (forall (k : nat) rule,
      current_rules w !! k = Some rule ->
      cooldown rule * 1000000 <= clock host (clock_reads w + k) - start) ->
  check_resources host w
  = (Blocked, ticks (length (current_rules w)) (set_lock true w)).
Proof.
  intros Hl Ht Hs Hall.
  rewrite (check_resources_throttled host w start Hl Ht Hs).
  unfold with_lock. rewrite Hl. unfold bind at 1.
  rewrite (in_cooldown_false host start (current_rules w) (set_lock true w))
    by exact Hall.
  unfold bind, release_throttle. rewrite with_lock_held; [reflexivity |].
  destruct (ticks_fields (length (current_rules w)) (set_lock true w))
    as (-> & _). reflexivity.
Qed.

(** C5, as the code has it.  When [check_resources] is called with the lock
    free and the throttle on, and every turn of the cooldown loop finds its
    rule's cooldown elapsed, the call does not go on to the resource
    triggers: nothing is sampled and no callback runs (the trace is
    unchanged), and the call does not return true. *)
Theorem check_resources_after_cooldown host w start :
  lock_held w = false ->
  is_throttled w = true ->
  throttle_start w = Some start ->
  (forall (k : nat) rule,
      current_rules w !! k = Some rule ->
      cooldown rule * 1000000 <= clock host (clock_reads w + k) - start) ->
  fst (check_resources host w) <> Returned true /\
  trace (snd (check_resources host w)) = trace w.
Proof.
  intros Hl Ht Hs Hall.
  rewrite (check_resources_release_blocks host w start Hl Ht Hs Hall).
  cbn [fst snd]. split; [discriminate |].
  destruct (ticks_fields (length (current_rules w)) (set_lock true w))
    as (_ & _ & _ & _ & _ & _ & Htr).
  exact Htr.
Qed.

Lemma check_resources_after_cooldown_witness :
  fst (check_resources hot_host throttled_at_0) <> Returned true /\
  trace (snd (check_resources hot_host throttled_at_0)) = [].
Proof.
  apply (check_resources_after_cooldown hot_host throttled_at_0 0).
  - reflexivity.
  - reflexivity.
  - reflexivity.
  - intros [| k] rule Hk; [| destruct k; discriminate].
    inversion Hk; subst. vm_compute. discriminate.
Defined.

(** *** Activation *)

(** The sort keeps the rules and puts the higher priority first. *)
Lemma insert_by_priority_In r rule sorted :
  In rule (insert_by_priority r sorted) <-> rule = r \/ In rule sorted.
Proof.
  induction sorted as [| r' rest IH]; simpl.
  - intuition congruence.
  - destruct (priority r' <=? priority r); simpl; [intuition congruence |].
    rewrite IH. intuition congruence.
Qed.

Lemma sort_by_priority_In rule rs :
  In rule (sort_by_priority rs) <-> In rule rs.
Proof.
  induction rs as [| r rest IH]; simpl; [tauto |].
  rewrite insert_by_priority_In, IH. intuition congruence.
Qed.

Lemma insert_by_priority_descending r sorted :
  descending sorted -> descending (insert_by_priority r sorted).
Proof.
  unfold descending. induction 1 as [| r' rest Hs IH Hall]; simpl.
  - repeat constructor.
  - destruct (priority r' <=? priority r) eqn:E.
    + apply Z.leb_le in E. constructor; [constructor; assumption |].
      constructor; [exact E |].
      eapply List.Forall_impl; [| exact Hall]. simpl; intros; lia.
    + apply Z.leb_gt in E. constructor; [exact IH |].
      apply List.Forall_forall. intros x Hx.
      apply insert_by_priority_In in Hx as [-> | Hx]; [lia |].
      rewrite List.Forall_forall in Hall. now apply Hall.
Qed.

Lemma sort_by_priority_descending rs : descending (sort_by_priority rs).
Proof.
  induction rs as [| r rest IH]; simpl; [constructor |].
  now apply insert_by_priority_descending.
Qed.

Lemma with_trace_trace w : with_trace (trace w) w = w.
Proof. destruct w; reflexivity. Qed.

Lemma invoke_runs fraction cb w :
  invoke cb fraction w
  = (Returned tt, with_trace (trace w ++ invoke_events fraction cb) w).
Proof.
  unfold invoke, invoke_events, try_except, bind, log, modify, record, raise, ret.
  destruct (cb_raises cb fraction); cbn.
  - unfold with_trace; cbn. now rewrite <- app_assoc.
  - reflexivity.
Qed.

(** One failing callback does not keep the following ones from running. *)
Lemma callbacks_all_run fraction (cbs : list callback) :
  forall w,
    for_each cbs (fun cb => invoke cb fraction) w
    = (Returned tt,
       with_trace (trace w ++ flat_map (invoke_events fraction) cbs) w).
Proof.
  induction cbs as [| cb rest IH]; intros w; simpl.
  - unfold ret. now rewrite app_nil_r, with_trace_trace.
  - unfold bind. rewrite invoke_runs, IH.
    unfold with_trace; cbn. now rewrite <- app_assoc.
Qed.

Lemma throttle_rule_runs rule w :
  is_Some (throttle_callbacks w !! resource rule) ->
  throttle_rule rule w
  = (Returned tt,
     with_trace (trace w ++ rule_events (throttle_callbacks w) rule) w).
Proof.
  intros [cbs Hcbs].
  unfold throttle_rule, callbacks_for, log, modify, get, bind.
  cbn [throttle_callbacks record with_trace]. rewrite Hcbs.
  unfold ret at 1. rewrite callbacks_all_run.
  unfold rule_events. rewrite Hcbs. cbn.
  unfold with_trace; cbn. now rewrite <- !app_assoc.
Qed.

Lemma rules_all_run (rs : list ThrottleRule) :
  forall w,
    (forall rule, In rule rs -> is_Some (throttle_callbacks w !! resource rule)) ->
    for_each rs throttle_rule w
    = (Returned tt,
       with_trace (trace w ++ flat_map (rule_events (throttle_callbacks w)) rs) w).
Proof.
  induction rs as [| rule rest IH]; intros w Hreg; simpl.
  - unfold ret. now rewrite app_nil_r, with_trace_trace.
  - unfold bind. rewrite throttle_rule_runs by (apply Hreg; now left).
    rewrite IH.
    + unfold with_trace; cbn. now rewrite <- !app_assoc.
    + intros r Hr. cbn. apply Hreg. now right.
Qed.

Lemma calls_app tr1 tr2 : calls (tr1 ++ tr2) = (calls tr1 ++ calls tr2)%list.
Proof. unfold calls. apply flat_map_app. Qed.

Lemma calls_invoke_events fraction cbs :
  calls (flat_map (invoke_events fraction) cbs)
  = map (fun cb => (cb_id cb, fraction)) cbs.
Proof.
  induction cbs as [| cb rest IH]; [reflexivity |].
  simpl. rewrite calls_app, IH. unfold invoke_events.
  destruct (cb_raises cb fraction); reflexivity.
Qed.

Lemma calls_rule_events registered rs :
  calls (flat_map (rule_events registered) rs) = owed_calls registered rs.
Proof.
  induction rs as [| rule rest IH]; [reflexivity |].
  simpl. rewrite calls_app, IH. unfold rule_events.
  change (calls (Warned (resource rule) :: ?l)) with (calls l).
  now rewrite calls_invoke_events.
Qed.

(** Called on its own, with the lock free, [apply_throttle] does what the
    activation step is meant to do: it turns the throttle on, records the
    instant and the rules (highest priority first), enters every callback
    registered for each of those rules in that order with the rule's
    reduction fraction, whether or not an earlier callback raised, and
    returns with the lock released. *)
Lemma apply_throttle_alone host w triggered :
  lock_held w = false ->
  (forall rule, In rule triggered ->
                is_Some (throttle_callbacks w !! resource rule)) ->
  exists w',
    apply_throttle host triggered w = (Returned tt, w') /\
    lock_held w' = false /\
    is_throttled w' = true /\
    throttle_start w' = Some (clock host (clock_reads w)) /\
    current_rules w' = sort_by_priority triggered /\
    descending (current_rules w') /\
    calls (trace w')
    = (calls (trace w)
         ++ owed_calls (throttle_callbacks w) (sort_by_priority triggered))%list.
Proof.
  intros Hl Hreg. unfold apply_throttle, with_lock. rewrite Hl.
  unfold bind, now, modify. rewrite rules_all_run.
  - eexists. split; [reflexivity |]. cbn.
    repeat split; try reflexivity.
    + apply sort_by_priority_descending.
    + now rewrite calls_app, calls_rule_events.
  - intros rule Hin. cbn. apply Hreg. now apply sort_by_priority_In.
Qed.

Lemma check_rule_found res rule value triggered w :
  find (fun r => String.eqb (resource r) res) (rules w) = Some rule ->
  check_rule res value triggered w
  = (Returned (if Py.gtb value (threshold rule)
               then (triggered ++ [rule])%list else triggered), w).
Proof.
  intros H. unfold check_rule, get_rule, bind, get. rewrite H. cbn.
  destruct (Py.gtb value (threshold rule)); [| reflexivity].
  rewrite H. reflexivity.
Qed.

(** With the default rules and disk counters at hand, collecting the
    triggered rules succeeds and changes the trace only. *)
Lemma collect_triggered_default host w rd wr :
  rules w = default_rules ->
  disk_io_counters host = Some (rd, wr) ->
  exists triggered,
    collect_triggered host w
    = (Returned triggered,
       with_trace (trace w ++ [Sampled "cpu"; Sampled "memory"; Sampled "disk_io"]) w)
    /\ (Py.gtb (cpu_percent host) 80 = true -> triggered <> []).
Proof.
  intros Hr Hd. unfold collect_triggered.
  set (w3 := with_trace
               (trace w ++ [Sampled "cpu"; Sampled "memory"; Sampled "disk_io"]) w).
  assert (Hlog : forall B (k : M World B),
             (log (Sampled "cpu") ;;; log (Sampled "memory") ;;;
              log (Sampled "disk_io") ;;; k) w = k w3).
  { intros B k. unfold bind, log, modify, record, with_trace, w3; cbn.
    now rewrite <- !app_assoc. }
  rewrite Hlog.
  assert (Hr3 : rules w3 = default_rules) by exact Hr.
  erewrite bind_returned
    by (apply (check_rule_found "cpu" cpu_rule); rewrite Hr3; reflexivity).
  erewrite bind_returned
    by (apply (check_rule_found "memory" memory_rule); rewrite Hr3; reflexivity).
  rewrite Hd. erewrite bind_returned by reflexivity.
  erewrite (check_rule_found "disk_io" (mkRule "disk_io" 90 (6 # 10) 20 7))
    by (rewrite Hr3; reflexivity).
  eexists. split; [reflexivity |].
  intros Hcpu. cbn [threshold cpu_rule memory_rule]. rewrite Hcpu.
  destruct (Py.gtb (memory_percent host) 85), (Py.gtb _ 90); discriminate.
Qed.

(** Reached from inside [check_resources], the same [apply_throttle] asks
    for the lock its caller holds.  With the default rules, any call that
    finds the CPU above its threshold while the throttle is off ends there:
    it never returns, the throttle stays off and no callback is entered. *)
Lemma check_resources_blocks_when_triggered host w counters :
  lock_held w = false ->
  is_throttled w = false ->
  rules w = default_rules ->
  disk_io_counters host = Some counters ->
  (80 < cpu_percent host)%Q ->
  exists w',
    check_resources host w = (Blocked, w') /\
    is_throttled w' = false /\
    throttle_start w' = throttle_start w /\
    current_rules w' = current_rules w /\
    calls (trace w') = calls (trace w).
Proof.
  intros Hl Ht Hr Hd Hcpu. destruct counters as [rd wr].
  apply PyFacts.gtb_gt in Hcpu.
  destruct (collect_triggered_default host (set_lock true w) rd wr Hr Hd)
    as (triggered & Hrun & Hne).
  specialize (Hne Hcpu).
  unfold check_resources, with_lock. rewrite Hl.
  unfold bind at 1. unfold get at 1. cbn [is_throttled set_lock]. rewrite Ht.
  erewrite bind_returned by exact Hrun.
  destruct triggered as [| r rest]; [congruence |].
  unfold bind, apply_throttle. rewrite with_lock_held by reflexivity.
  eexists. split; [reflexivity |]. cbn.
  repeat split; try assumption.
  rewrite calls_app. cbn. apply app_nil_r.
Qed.

(** C7 at a concrete input: the default rules, callbacks registered on [cpu]
    and [memory], the throttle off, CPU at 95% and memory at 91%.  The call
    samples the three metrics and then blocks: the throttle flag is still
    off, no start instant and no rule is recorded, and no callback was
    entered. *)
Theorem check_resources_activation_blocks :
  let (r, w') := check_resources hot_host wired in
  r = Blocked /\
  samples (trace w') = ["cpu"; "memory"; "disk_io"]%string /\
  is_throttled w' = false /\
  throttle_start w' = None /\
  current_rules w' = [] /\
  calls (trace w') = [].
Proof. vm_compute. repeat split; reflexivity. Qed.

(** The same two rules handed to [apply_throttle] directly: memory
    (priority 9) before CPU (priority 8), and callback 2 runs although
    callback 1 raised. *)
Example apply_throttle_alone_run :
  let (r, w') := apply_throttle hot_host [cpu_rule; memory_rule] wired in
  r = Returned tt /\
  is_throttled w' = true /\
  current_rules w' = [memory_rule; cpu_rule] /\
  trace w' = [Warned "memory"; Called 3 (4 # 10);
              Warned "cpu"; Called 1 (5 # 10); CallbackFailed 1;
              Called 2 (5 # 10)]%string.
Proof. vm_compute. repeat split; reflexivity. Qed.

End ThrottlerFacts.

(** ** The system calls *)

Module SysFacts.
Import Eff Eff.Notations EffFacts Sys.

Section Calls.
Context {E : Type}.
Implicit Types w : World E.

Lemma calm_weaken n m w : calm n w -> (m <= n)%nat -> calm m w.
Proof. intros H Hle i Hi. apply H. lia. Qed.

Lemma calm_after n e w : calm (S n) w -> calm n (after e w).
Proof.
  intros H i Hi. specialize (H (S i) ltac:(lia)).
  unfold after; cbn [faults].
  destruct (faults w) as [| b rest]; cbn [tail];
    [rewrite lookup_nil; discriminate | exact H].
Qed.

Lemma calm_no_faults n w : faults w = [] -> calm n w.
Proof. intros H i _. rewrite H, lookup_nil. discriminate. Qed.

Lemma attempt_calm e w : calm 1 w -> attempt e w = (Returned tt, after e w).
Proof.
  intros H. specialize (H 0%nat ltac:(lia)).
  unfold attempt, bind, note, modify, after. cbn.
  destruct w as [f m fl d l]; cbn in *.
  destruct fl as [| [] rest]; cbn in *; [reflexivity | congruence | reflexivity].
Qed.

Lemma attempt_ensures e : ensures (W := World E) (fun _ => True) (attempt e).
Proof.
  intros w. unfold attempt, bind, note, modify. cbn.
  destruct (faults w) as [| [] rest]; exact I.
Qed.

Lemma note_ensures e : ensures (W := World E) (fun _ => True) (note e).
Proof. intros w. exact I. Qed.

Lemma stat_calm p content mode w :
  calm 1 w -> fs w !! p = Some (Reg content mode) ->
  stat p w = (Returned (Z.of_nat (length content), mode), after (Stat p) w).
Proof.
  intros Hc Hp. unfold stat.
  rewrite (bind_returned _ _ _ _ _ (attempt_calm _ _ Hc)).
  unfold bind, get. cbn. rewrite Hp. reflexivity.
Qed.

Lemma read_bytes_calm p content mode w :
  calm 1 w -> fs w !! p = Some (Reg content mode) ->
  read_bytes p w = (Returned content, after (Read p) w).
Proof.
  intros Hc Hp. unfold read_bytes.
  rewrite (bind_returned _ _ _ _ _ (attempt_calm _ _ Hc)).
  unfold bind, get. cbn. rewrite Hp. reflexivity.
Qed.

Lemma read_bytes_ensures p :
  ensures (W := World E) (fun _ => True) (read_bytes p).
Proof.
  unfold read_bytes.
  eapply ensures_bind; [apply attempt_ensures |]. intros _ _.
  eapply ensures_bind; [apply ensures_get |]. intros w _.
  destruct (fs w !! p) as [[| c m] |];
    first [apply ensures_raise | now apply ensures_ret].
Qed.

(** *** Runs in which any call may fail

    Each rule reads: to establish [wp] of a call, show the failure
    postcondition for a world with the files and metadata unchanged, and the
    success postcondition for a world changed as the call changes it. *)

Lemma wp_attempt e (Qr : unit -> World E -> Prop) Qe w :
  (forall w', fs w' = fs w -> meta w' = meta w ->
              Qr tt w' /\ forall ex, Qe ex w') ->
  wp (attempt e) Qr Qe w.
Proof.
  intros H. unfold wp, attempt, bind, note, modify. cbn.
  destruct (faults w) as [| [] rest]; apply H; reflexivity.
Qed.

Lemma wp_note e (Qr : unit -> World E -> Prop) Qe w :
  (forall w', fs w' = fs w -> meta w' = meta w -> Qr tt w') ->
  wp (note e) Qr Qe w.
Proof. intros H. apply H; reflexivity. Qed.

Lemma wp_draw (Qr : nat -> World E -> Prop) Qe w :
  (forall w' n, fs w' = fs w -> meta w' = meta w -> Qr n w') ->
  wp draw Qr Qe w.
Proof. intros H. apply H; reflexivity. Qed.

Lemma wp_path_exists p (Qr : bool -> World E -> Prop) Qe w :
  Qr (bool_decide (is_Some (fs w !! p))) w -> wp (path_exists p) Qr Qe w.
Proof. exact id. Qed.

Lemma wp_read_bytes p (Qr : list Byte.byte -> World E -> Prop) Qe w :
  (forall w', fs w' = fs w -> meta w' = meta w ->
     (forall ex, Qe ex w') /\
     (forall content mode, fs w !! p = Some (Reg content mode) -> Qr content w')) ->
  wp (read_bytes p) Qr Qe w.
Proof.
  intros H. unfold read_bytes. apply wp_bind, wp_attempt.
  intros w1 Hf Hm. split; [| intros ex; now apply H].
  apply wp_bind, wp_get. rewrite Hf.
  destruct (fs w !! p) as [[| content mode] |] eqn:Hp;
    [apply wp_raise | apply wp_ret | apply wp_raise];
    solve [apply H; auto | eapply H; eauto].
Qed.

Lemma wp_stat p (Qr : Z * Z -> World E -> Prop) Qe w :
  (forall w', fs w' = fs w -> meta w' = meta w ->
     (forall ex, Qe ex w') /\
     (forall st, (forall content mode, fs w !! p = Some (Reg content mode) ->
                    st = (Z.of_nat (length content), mode)) -> Qr st w')) ->
  wp (stat p) Qr Qe w.
Proof.
  intros H. unfold stat. apply wp_bind, wp_attempt.
  intros w1 Hf Hm. split; [| intros ex; now apply H].
  apply wp_bind, wp_get. rewrite Hf.
  destruct (fs w !! p) as [[| content mode] |] eqn:Hp;
    [apply wp_ret | apply wp_ret | apply wp_raise];
    try solve [apply H; auto].
  - apply H; auto. intros; discriminate.
  - apply H; auto. intros ? ? Heq; inversion Heq; reflexivity.
Qed.

Lemma wp_write_bytes p data (Qr : unit -> World E -> Prop) Qe w :
  (forall w', meta w' = meta w ->
     (fs w' = fs w -> forall ex, Qe ex w') /\
     (forall mode, fs w' = <[p := Reg data mode]> (fs w) -> Qr tt w')) ->
  wp (write_bytes p data) Qr Qe w.
Proof.
  intros H. unfold write_bytes. apply wp_bind, wp_attempt.
  intros w1 Hf Hm. split; [| intros ex; now apply H].
  apply wp_bind, wp_get. rewrite Hf.
  destruct (fs w !! p) as [[| content mode] |] eqn:Hp.
  - apply wp_raise. now apply H.
  - apply wp_modify. eapply H; [exact Hm |]. cbn. reflexivity.
  - apply wp_modify. eapply H; [exact Hm |]. cbn. reflexivity.
Qed.

Lemma wp_unlink p (Qr : unit -> World E -> Prop) Qe w :
  (forall w', meta w' = meta w ->
     (fs w' = fs w -> forall ex, Qe ex w') /\
     (fs w' = delete p (fs w) -> Qr tt w')) ->
  wp (unlink p) Qr Qe w.
Proof.
  intros H. unfold unlink. apply wp_bind, wp_attempt.
  intros w1 Hf Hm. split; [| intros ex; now apply H].
  apply wp_bind, wp_get. rewrite Hf.
  destruct (fs w !! p) as [[| content mode] |] eqn:Hp.
  - apply wp_raise. now apply H.
  - apply wp_modify. apply H; [exact Hm |]. cbn. reflexivity.
  - apply wp_raise. now apply H.
Qed.

Lemma wp_read_metadata (Qr : gmap string E -> World E -> Prop) Qe w :
  (forall w', fs w' = fs w -> meta w' = meta w ->
     (forall ex, Qe ex w') /\
     (forall metadata, meta w = Some metadata -> Qr metadata w')) ->
  wp read_metadata Qr Qe w.
Proof.
  intros H. unfold read_metadata. apply wp_bind, wp_attempt.
  intros w1 Hf Hm. split; [| intros ex; now apply H].
  apply wp_bind, wp_get. rewrite Hm.
  destruct (meta w) as [metadata |] eqn:Hmeta;
    [apply wp_ret | apply wp_raise]; now apply H.
Qed.

Lemma wp_write_metadata metadata (Qr : unit -> World E -> Prop) Qe w :
  (forall w', fs w' = fs w ->
     (meta w' = meta w -> forall ex, Qe ex w') /\
     (meta w' = Some metadata -> Qr tt w')) ->
  wp (write_metadata metadata) Qr Qe w.
Proof.
  intros H. unfold write_metadata. apply wp_bind, wp_attempt.
  intros w1 Hf Hm. split; [| intros ex; now apply H].
  apply wp_modify. apply H; [exact Hf | reflexivity].
Qed.

Lemma wp_mkdir_parents p (Qr : unit -> World E -> Prop) Qe w :
  (forall w', fs w' = fs w -> meta w' = meta w ->
              Qr tt w' /\ forall ex, Qe ex w') ->
  wp (mkdir_parents p) Qr Qe w.
Proof. apply wp_attempt. Qed.


(** Loading the metadata with the catch-all handler of both stores: the
    mapping on file, or the empty one. *)
Lemma wp_load_or_empty (Qr : gmap string E -> World E -> Prop) Qe w :
  (forall w', fs w' = fs w -> meta w' = meta w ->
     Qr ∅ w' /\ forall metadata, meta w = Some metadata -> Qr metadata w') ->
  wp (try_except read_metadata (fun _ => ret ∅)) Qr Qe w.
Proof.
  intros Hpost.
  apply wp_try_except, wp_read_metadata. intros w1 Hf Hm.
  destruct (Hpost w1 Hf Hm) as [Hempty Hread]. split.
  - intros ex. apply wp_ret. exact Hempty.
  - intros metadata Hmeta. now apply Hread.
Qed.


Lemma same_elsewhere_refl p (f : gmap string node) : same_elsewhere p f f.
Proof. intros x _. reflexivity. Qed.

Lemma same_elsewhere_trans p (f g h : gmap string node) :
  same_elsewhere p f g -> same_elsewhere p g h -> same_elsewhere p f h.
Proof. intros H1 H2 x Hx. now rewrite H2, H1. Qed.

Lemma same_elsewhere_insert p (f : gmap string node) v :
  same_elsewhere p f (<[p := v]> f).
Proof. intros x Hx. apply lookup_insert_ne. congruence. Qed.

Lemma same_elsewhere_delete p (f : gmap string node) :
  same_elsewhere p f (delete p f).
Proof. intros x Hx. apply lookup_delete_ne. congruence. Qed.

(** *** Runs in which no call fails *)


Lemma quiet_after e w : quiet w -> quiet (after e w).
Proof. unfold quiet, after; cbn. now intros ->. Qed.

Lemma quiet_with_fs f w : quiet w -> quiet (with_fs f w).
Proof. exact id. Qed.

Lemma quiet_with_meta m w : quiet w -> quiet (with_meta m w).
Proof. exact id. Qed.

Lemma quiet_with_draws n w : quiet w -> quiet (with_draws n w).
Proof. exact id. Qed.

Lemma quiet_with_log l w : quiet w -> quiet (with_log l w).
Proof. exact id. Qed.












End Calls.


(** A pass of the overwrite, failing or not, leaves every other file and
    the metadata alone. *)
Lemma wp_overwrite {E} `{Library} p file_size
    (Qr : unit -> World E -> Prop) Qe (w : World E) :
  (forall w', meta w' = meta w -> same_elsewhere p (fs w) (fs w') ->
              Qr tt w' /\ forall ex, Qe ex w') ->
  wp (overwrite p file_size) Qr Qe w.
Proof.
  intros Hpost. unfold overwrite.
  apply wp_bind, wp_draw. intros w1 n Hf1 Hm1.
  apply wp_write_bytes. intros w2 Hm2. split.
  - intros Hf2 ex. apply Hpost; [congruence |].
    rewrite Hf2, Hf1. apply same_elsewhere_refl.
  - intros mode Hf2. apply Hpost; [congruence |].
    rewrite Hf2, Hf1. apply same_elsewhere_insert.
Qed.

Create HintDb quiet.
#[export] Hint Resolve quiet_after quiet_with_fs quiet_with_meta
  quiet_with_draws quiet_with_log : quiet.

(** *** Names *)

Section Names.
Local Open Scope string_scope.

Lemma append_cons c (x y : string) : String c x ++ y = String c (x ++ y).
Proof. reflexivity. Qed.








End Names.

End SysFacts.

(** ** Scanning one file *)

Module ScanFacts.
Import Eff Eff.Notations EffFacts Sys SysFacts Scan.
Local Open Scope string_scope.

Section Scanning.
Context {E : Type} `{Library} `{Detectors}.
Implicit Types w : World E.

Lemma search_patterns_ensures ps content :
  forall i, ensures (W := World E) (fun _ => True) (search_patterns i ps content).
Proof.
  induction ps as [| pattern rest IH]; intros i; cbn.
  - now apply ensures_ret.
  - eapply ensures_bind; [apply note_ensures |]. intros _ _.
    destruct (re_search pattern content); [now apply ensures_ret | apply IH].
Qed.

Lemma magic_from_file_ensures p :
  ensures (W := World E) (fun _ => True) (magic_from_file p).
Proof.
  unfold magic_from_file.
  eapply ensures_bind; [apply attempt_ensures |]. intros _ _.
  eapply ensures_bind; [apply ensures_get |]. intros w _.
  destruct (fs w !! p) as [[| c m] |]; try apply ensures_raise.
  destruct (magic_from_buffer c); [now apply ensures_ret | apply ensures_raise].
Qed.

Lemma match_rules_ensures content :
  ensures (W := World E) (fun _ => True) (match_rules content).
Proof.
  unfold match_rules.
  eapply ensures_bind; [apply note_ensures |]. intros _ _.
  destruct (yara_match content); [now apply ensures_ret | apply ensures_raise].
Qed.

(** The content analysis always comes back, whatever fails inside it, and
    it only ever adds findings. *)
Lemma analyze_content_returns engine p threats :
  returns (W := World E)
          (fun r => exists more, fst r = (threats ++ more)%list)
          (analyze_content engine p threats).
Proof.
  unfold analyze_content.
  apply returns_try_except.
  2: { intros e. apply returns_ret. exists []. cbn. now rewrite app_nil_r. }
  eapply ensures_bind with (P := fun _ => True).
  { destruct (has_magic engine);
      [apply magic_from_file_ensures | now apply ensures_ret]. }
  intros file_type _. apply returns_ensures. apply returns_try_except.
  2: { intros e. apply returns_ret. exists []. cbn. now rewrite app_nil_r. }
  eapply ensures_bind; [apply read_bytes_ensures |]. intros content _.
  eapply ensures_bind; [apply search_patterns_ensures |]. intros found _.
  destruct (yara_compiler engine).
  - apply returns_ensures. apply returns_try_except.
    + eapply ensures_bind; [apply match_rules_ensures |]. intros matched _.
      apply ensures_ret. exists (found ++ matched)%list. cbn.
      now rewrite app_assoc.
    + intros e. apply returns_ret. now exists found.
  - apply ensures_ret. now exists found.
Qed.

(** C9.  For a regular file larger than 100 MiB whose [stat] call goes
    through, [scan_file] returns the "skipped" result, and the only call it
    makes on the file is that [stat]: the content is not read, so nothing is
    hashed, sniffed, searched for patterns or matched against rules; the
    files are left as they were. *)
Theorem oversized_file_is_skipped engine p content mode w :
  fs w !! p = Some (Reg content mode) ->
  (100 * 1024 * 1024 < Z.of_nat (length content))%Z ->
  calm 1 w ->
  exists r w',
    scan_file engine p w = (Returned r, w') /\
    r = Skipped p "File too large" /\
    status_of r = "skipped" /\
    log w' = (log w ++ [Stat p])%list /\
    existsb reads_content [Stat p] = false /\
    fs w' = fs w.
Proof.
  intros Hp Hsize Hcalm.
  exists (Skipped p "File too large"), (after (Stat p) w).
  split; [| repeat split].
  unfold scan_file. apply try_except_returned.
  unfold bind at 1, path_exists, gets.
  rewrite bool_decide_eq_true_2 by (rewrite Hp; eauto).
  unfold bind at 1, is_file, gets. rewrite Hp. cbn [negb orb].
  rewrite (bind_returned _ _ _ _ _ (stat_calm p content mode w Hcalm Hp)).
  cbn [fst]. replace (_ >? size_limit)%Z with true; [reflexivity |].
  symmetry. rewrite Z.gtb_ltb. apply Z.ltb_lt. exact Hsize.
Qed.

(** C2.  For a regular file of at most 100 MiB whose content has a SHA-256
    digest in the known-bad set, and whose [stat] and hashing read go
    through, [scan_file] returns status "infected" with the [known_malware]
    finding of severity 10 among the threats and the digest as [hash]:
    whatever the path's extension is, and whatever happens in the content
    analysis that follows (including every one of its calls failing). *)
Theorem known_bad_hash_is_infected engine p content mode w :
  fs w !! p = Some (Reg content mode) ->
  (Z.of_nat (length content) <= 100 * 1024 * 1024)%Z ->
  sha256_hex content ∈ hashes engine ->
  calm 2 w ->
  exists threats file_type w',
    scan_file engine p w
    = (Returned (Scanned p "infected" threats (sha256_hex content) file_type), w')
    /\ In known_malware threats
    /\ severity known_malware = 10%Z
    /\ type known_malware = "known_malware".
Proof.
  intros Hp Hsize Hbad Hcalm.
  pose proof (calm_weaken 2 1 w Hcalm ltac:(lia)) as Hcalm1.
  pose proof (calm_after 1 (Stat p) w Hcalm) as Hcalm2.
  set (w1 := after (Stat p) w) in *.
  set (w2 := after (Read p) w1).
  assert (Hhash : calculate_file_hash p w1
                  = (Returned (sha256_hex content),
                     with_log (log w2 ++ [Hashed p]) w2)).
  { unfold calculate_file_hash.
    rewrite (bind_returned _ _ _ _ _ (read_bytes_calm p content mode w1 Hcalm2 Hp)).
    reflexivity. }
  set (w3 := with_log (log w2 ++ [Hashed p]) w2) in *.
  set (before :=
         if bool_decide (lower (suffix p) ∈ suspicious_extensions engine)
         then [suspicious_extension p] else []).
  destruct (analyze_content_returns engine p (before ++ [known_malware]) w3)
    as ([found file_type] & w4 & Hrun & more & Hmore).
  cbn [fst] in Hmore. subst found.
  exists ((before ++ [known_malware]) ++ more)%list, file_type, w4.
  split; [| split; [| split; reflexivity]].
  - unfold scan_file. apply try_except_returned.
    unfold bind at 1, path_exists, gets.
    rewrite bool_decide_eq_true_2 by (rewrite Hp; eauto).
    unfold bind at 1, is_file, gets. rewrite Hp. cbn [negb orb].
    rewrite (bind_returned _ _ _ _ _ (stat_calm p content mode w Hcalm1 Hp)).
    cbn [fst]. replace (_ >? size_limit)%Z with false.
    2: { symmetry. rewrite Z.gtb_ltb. apply Z.ltb_ge. unfold size_limit. lia. }
    rewrite (bind_returned _ _ _ _ _ Hhash).
    rewrite bool_decide_eq_true_2 by exact Hbad.
    fold before. rewrite (bind_returned _ _ _ _ _ Hrun). cbn [fst snd].
    unfold ret. destruct before; reflexivity.
  - apply in_or_app. left. apply in_or_app. right. now left.
Qed.

End Scanning.

Import Toy.

Lemma oversized_file_is_skipped_witness :
  exists w',
    scan_file (default_engine true true) "disk.img" big_world
    = (Returned (Skipped "disk.img" "File too large"), w') /\
    log w' = [Stat "disk.img"].
Proof.
  destruct (oversized_file_is_skipped (default_engine true true)
              "disk.img" big_file 33188 big_world)
    as (r & w' & Hrun & -> & _ & Hlog & _).
  - apply lookup_singleton_eq.
  - unfold big_file. rewrite repeat_length, Z2Nat.id; lia.
  - apply calm_no_faults. reflexivity.
  - exists w'. split; assumption.
Defined.

Lemma known_bad_hash_is_infected_witness :
  exists threats file_type w',
    scan_file (default_engine true true) "notes.txt" empty_file_world
    = (Returned (Scanned "notes.txt" "infected" threats
                         (sha256_hex []) file_type), w') /\
    In known_malware threats.
Proof.
  destruct (known_bad_hash_is_infected (default_engine true true)
              "notes.txt" [] 33188 empty_file_world)
    as (threats & file_type & w' & Hrun & Hin & _).
  - apply lookup_singleton_eq.
  - cbn. lia.
  - cbn [hashes default_engine]. apply elem_of_singleton_2. reflexivity.
  - intros [| [| i]] Hi; cbn; [discriminate | discriminate | lia].
  - exists threats, file_type, w'. split; assumption.
Defined.

(** The run behind the witness: every call after the hashing read fails,
    and the finding stands. *)
Example empty_file_scan :
  fst (scan_file (default_engine true true) "notes.txt" empty_file_world)
  = Returned (Scanned "notes.txt" "infected" [known_malware]
                "e3b0c44298fc1c149afbf4c8996fb92427ae41e4649b934ca495991b7852b855"
                "unknown").
Proof. vm_compute. reflexivity. Qed.

(** When the hashing read itself fails, the outer handler reports an error:
    the two calls assumed in C2 are the ones that matter. *)
Example unreadable_file_scan :
  fst (scan_file (default_engine true false) "notes.txt"
         (with_faults [false; true] empty_file_world))
  = Returned (Failed "notes.txt" "the call failed").
Proof. vm_compute. reflexivity. Qed.

End ScanFacts.

(** ** The quarantine store: what a failure leaves behind *)

Module QStoreFacts.
Import Eff Eff.Notations EffFacts Sys SysFacts QStore.
Local Open Scope string_scope.

Ltac step H := rewrite (bind_returned _ _ _ _ _ H); cbv beta; cbn [fst snd].

Section Store.
Context `{Library}.
Variable mgr : Manager.
Implicit Types w : World QuarantineEntry.

(** *** Any fault plan *)


Lemma wp_save_metadata metadata
    (Qr : unit -> World QuarantineEntry -> Prop) Qe w :
  (forall w', fs w' = fs w ->
     (meta w' = meta w -> forall ex, Qe ex w') /\
     (meta w' = Some metadata -> Qr tt w')) ->
  wp (save_metadata metadata) Qr Qe w.
Proof.
  intros Hpost. unfold save_metadata. now apply wp_reraise, wp_write_metadata.
Qed.

(** The secure delete, failing or not, touches no other file and not the
    metadata; when it returns, the file is gone. *)
Lemma wp_secure_delete p (Qr : unit -> World QuarantineEntry -> Prop) Qe w :
  (forall w', meta w' = meta w -> same_elsewhere p (fs w) (fs w') ->
     (forall ex, Qe ex w') /\ (fs w' !! p = None -> Qr tt w')) ->
  wp (secure_delete p) Qr Qe w.
Proof.
  intros Hpost. unfold secure_delete.
  apply wp_reraise, wp_bind, wp_path_exists.
  destruct (bool_decide (is_Some (fs w !! p))) eqn:Hex; cbn [negb].
  2: { apply wp_ret. apply Hpost; [reflexivity | apply same_elsewhere_refl |].
       apply bool_decide_eq_false_1 in Hex.
       now apply eq_None_not_Some. }
  apply wp_bind, wp_stat. intros w1 Hf1 Hm1. split.
  { intros ex. apply Hpost; [exact Hm1 |].
    rewrite Hf1. apply same_elsewhere_refl. }
  intros st _.
  apply wp_bind, wp_overwrite. intros w2 Hm2 Hf2. split.
  2: { intros ex. apply Hpost; [congruence |]. now rewrite <- Hf1. }
  apply wp_bind, wp_overwrite. intros w3 Hm3 Hf3. split.
  2: { intros ex. apply Hpost; [congruence |].
       rewrite <- Hf1. eapply same_elsewhere_trans; eassumption. }
  apply wp_bind, wp_overwrite. intros w4 Hm4 Hf4.
  assert (Hf14 : same_elsewhere p (fs w) (fs w4)).
  { rewrite <- Hf1.
    eapply same_elsewhere_trans; [| eassumption].
    eapply same_elsewhere_trans; eassumption. }
  split.
  2: { intros ex. apply Hpost; [congruence | exact Hf14]. }
  apply wp_unlink. intros w5 Hm5. split.
  - intros Hf5 ex. apply Hpost; [congruence | now rewrite Hf5].
  - intros Hf5. apply Hpost; [congruence | |].
    + rewrite Hf5.
      eapply same_elsewhere_trans; [exact Hf14 | apply same_elsewhere_delete].
    + rewrite Hf5. apply lookup_delete_eq.
Qed.


(** *** Runs in which no call fails *)








End Store.

Import Toy.



End QStoreFacts.

(** ** The engine's quarantine: a round trip *)

Module EngineQFacts.
Import Eff Eff.Notations EffFacts Sys SysFacts EngineQuarantine.
Local Open Scope string_scope.

Ltac step H := rewrite (bind_returned _ _ _ _ _ H); cbv beta; cbn [fst snd].

Section Engine.
Context `{Library}.
Variable engine : Engine.
Implicit Types w : World QuarantineMetadata.







(** *** Any fault plan *)

Lemma wp_calculate_file_hash p
    (Qr : option string -> World QuarantineMetadata -> Prop) Qe w :
  (forall w', fs w' = fs w -> meta w' = meta w ->
     Qr None w' /\
     forall content mode, fs w !! p = Some (Reg content mode) ->
                          Qr (Some (sha256_hex content)) w') ->
  wp (calculate_file_hash p) Qr Qe w.
Proof.
  intros Hpost. unfold calculate_file_hash.
  apply wp_try_except, wp_bind, wp_read_bytes. intros w1 Hf1 Hm1. split.
  - intros ex. apply wp_ret. now apply Hpost.
  - intros content mode Hp. apply wp_bind, wp_note. intros w2 Hf2 Hm2.
    apply wp_ret. eapply Hpost; [congruence | congruence | exact Hp].
Qed.






End Engine.

Import Toy.

(** The run of the example: the invoice comes back byte for byte, with its
    mode, and the store is empty again. *)
Example invoice_round_trip :
  let (r1, w1) := quarantine_file engine "20240101_120000" "home/u/invoice.pdf" [] desk in
  let (r2, w2) := restore_file engine "20240101_120000_00000000_invoice.pdf" w1 in
  r1 = Returned true /\ r2 = Returned true /\
  fs w1 !! "home/u/invoice.pdf" = None /\
  fs w2 = fs desk /\ meta w2 = meta desk.
Proof. vm_compute. repeat split; reflexivity. Qed.


End EngineQFacts.

(** ** Batches: which files go in, and how the counters follow *)

Module BatchingFacts.
Import Eff Eff.Notations EffFacts Sys SysFacts Batching.
Local Open Scope string_scope.

(** *** Parts of a path *)

Lemma split_slash_not_nil (p : string) : split_slash p <> [].
Proof.
  destruct p as [| c rest]; simpl; [discriminate |].
  destruct (is_slash c); [discriminate |].
  destruct (split_slash rest); discriminate.
Qed.

Lemma split_slash_app (x y : string) :
  split_slash (x ++ "/" ++ y) = (split_slash x ++ split_slash y)%list.
Proof.
  induction x as [| c x IH].
  - reflexivity.
  - rewrite append_cons. simpl. rewrite IH.
    destruct (is_slash c); [reflexivity |].
    destruct (split_slash x) as [| h t] eqn:Hx; [| reflexivity].
    now apply split_slash_not_nil in Hx.
Qed.

Lemma split_slash_slash_free (s : string) :
  contains_slash s = false -> split_slash s = [s].
Proof.
  induction s as [| c s IH]; [reflexivity |].
  simpl. intros H. apply orb_false_iff in H as [Hc Hs].
  rewrite Hc, (IH Hs). reflexivity.
Qed.

(** A component that [pathlib] keeps shows among the parts, wherever it
    stands. *)
Lemma component_in_parts (before after : list string) (c p : string) :
  split_slash p = (before ++ c :: after)%list ->
  kept_component c = true ->
  In c (parts p).
Proof.
  intros Hsplit Hkept. unfold parts. apply in_or_app. right.
  apply list_elem_of_In, list_elem_of_filter. split.
  - now rewrite Hkept.
  - rewrite Hsplit. apply elem_of_app. right. apply list_elem_of_here.
Qed.

Lemma skip_paths_cases (s : string) :
  s ∈ skip_paths ->
  contains_slash s = false /\ kept_component s = true.
Proof.
  unfold skip_paths. intros H.
  apply elem_of_list_to_set in H.
  repeat (apply elem_of_cons in H as [-> | H]; [split; reflexivity |]).
  now apply elem_of_nil in H.
Qed.

Lemma skipped_part (p c : string) :
  c ∈ skip_paths -> In c (parts p) -> should_scan_file p = false.
Proof.
  intros Hc Hin. unfold should_scan_file.
  destruct (bool_decide _); [reflexivity |].
  assert (H : existsb (fun part => bool_decide (part ∈ skip_paths)) (parts p) = true).
  { apply existsb_exists. exists c. split; [exact Hin |].
    now apply bool_decide_eq_true_2. }
  now rewrite H.
Qed.

(** X1.  [should_scan_file] answers False for a directory named in
    [skip_paths] and for every path below it, whatever the directory above,
    the file name and its extension: the path [skipped/rest], the path
    [dir/skipped/rest] and the path [dir/skipped] are all left out of a
    scan. *)
Theorem skipped_directory_is_not_scanned (dir skipped rest : string) :
  skipped ∈ skip_paths ->
  should_scan_file (skipped ++ "/" ++ rest) = false /\
  should_scan_file (dir ++ "/" ++ skipped ++ "/" ++ rest) = false /\
  should_scan_file (dir ++ "/" ++ skipped) = false.
Proof.
  intros Hs. destruct (skip_paths_cases skipped Hs) as [Hfree Hkept].
  pose proof (split_slash_slash_free skipped Hfree) as Hone.
  split; [| split]; apply (skipped_part _ skipped Hs).
  - apply (component_in_parts [] (split_slash rest)); [| exact Hkept].
    now rewrite split_slash_app, Hone.
  - apply (component_in_parts (split_slash dir) (split_slash rest));
      [| exact Hkept].
    rewrite !split_slash_app, Hone. reflexivity.
  - apply (component_in_parts (split_slash dir) []); [| exact Hkept].
    rewrite split_slash_app, Hone. reflexivity.
Qed.

Lemma skipped_directory_is_not_scanned_witness :
  should_scan_file (".git" ++ "/" ++ "config") = false /\
  should_scan_file ("/home/u/app" ++ "/" ++ "node_modules" ++ "/" ++ "left-pad/index.py")
  = false /\
  should_scan_file ("/home/u/app" ++ "/" ++ "venv") = false.
Proof.
  split; [| split].
  - apply (skipped_directory_is_not_scanned "" ".git" "config").
    vm_compute. reflexivity.
  - apply (skipped_directory_is_not_scanned "/home/u/app" "node_modules"
             "left-pad/index.py").
    vm_compute. reflexivity.
  - apply (skipped_directory_is_not_scanned "/home/u/app" "venv" "").
    vm_compute. reflexivity.
Defined.

(** *** [create_batch] *)

Section Batches.
Context {E : Type}.
Implicit Types w : World E.




Lemma path_stat_nul file w :
  has_nul file = true ->
  path_stat file w = (Raised (Exn "ValueError" "embedded null byte"), w).
Proof. intros Hnul. unfold path_stat. now rewrite Hnul. Qed.

Lemma value_error_is_no_os_error message :
  is_os_error (Exn "ValueError" message) = false.
Proof. vm_compute. reflexivity. Qed.









(** *** [start_batch] *)



(** A path with a NUL at the head of the files makes [start_batch] raise:
    the [ValueError] is not among the exceptions it passes over. *)
Lemma start_batch_nul (f : string) (rest : list string) (now : Q) w :
  has_nul f = true ->
  start_batch (f :: rest) now w
  = (Raised (Exn "ValueError" "embedded null byte"), w).
Proof.
  intros Hnul. unfold start_batch. apply bind_raised. unfold try_except_os.
  cbn [sum_sizes]. rewrite (bind_raised _ _ _ _ _ (path_stat_nul f w Hnul)).
  now rewrite value_error_is_no_os_error.
Qed.


End Batches.




(** *** The counters *)

Lemma sum_snoc (xs : list Z) (x : Z) :
  fold_right Z.add 0%Z (xs ++ [x]) = (fold_right Z.add 0 xs + x)%Z.
Proof. induction xs as [| y xs IH]; simpl; lia. Qed.

Lemma step_consistent (t : Tracker) (c : call) :
  consistent t -> consistent (step t c).
Proof.
  intros (Hfiles & Hsize & Hbounds). destruct c as [batch now | now]; cbn.
  - unfold consistent, recorded_files, recorded_size in *.
    unfold end_batch; cbn [total_files total_size batches sizing].
    rewrite !map_app. cbn [map]. rewrite !sum_snoc.
    cbn [Optimizer.files Optimizer.total_size].
    split; [lia |]. split; [lia |].
    now apply OptimizerFacts.adjust_batch_size_in_bounds.
  - split; [reflexivity |]. split; [reflexivity | exact Hbounds].
Qed.

Lemma run_consistent (cs : list call) :
  forall t, consistent t -> consistent (run cs t).
Proof.
  induction cs as [| c cs IH]; intros t Ht; [exact Ht |].
  apply IH. now apply step_consistent.
Qed.

(** X4.  From [__init__] on, through any sequence of [end_batch] and
    [reset_stats] calls, the counters of the optimizer agree with the
    batches it recorded: [total_files] is the number of files in the
    recorded batches, [total_size] the sum of their sizes, the reported
    [batch_count] their number; and the batch size stays between 100 and
    5000. *)
Theorem counters_follow_recorded_batches (target : Z) (cs : list call) (now : Q) :
  let t := run cs (init target) in
  total_files t = recorded_files t /\
  total_size t = recorded_size t /\
  ps_total_files (get_performance_stats t now) = recorded_files t /\
  ps_batch_count (get_performance_stats t now) = Z.of_nat (length (batches t)) /\
  (100 <= ps_current_batch_size (get_performance_stats t now) <= 5000)%Z.
Proof.
  cbv zeta.
  destruct (run_consistent cs (init target)) as (Hfiles & Hsize & Hbounds).
  { split; [reflexivity |]. split; [reflexivity |].
    apply OptimizerFacts.init_in_bounds. }
  split; [exact Hfiles |]. split; [exact Hsize |].
  split; [exact Hfiles |]. split; [reflexivity |].
  cbn. apply Hbounds.
Qed.

End BatchingFacts.

(** ** The engine's threads and file batches *)

Module EnginePoolFacts.
Import Sys EnginePool.
Local Open Scope Z_scope.

(** *** Threads *)

(** A pool between one thread and [top] threads whose executor agrees. *)
Lemma set_threads_bounds (p : Pool) (new_threads top : Z) :
  1 <= new_threads <= max_threads p ->
  max_threads p <= top ->
  executor_max_workers p = max_threads p ->
  1 <= max_threads (set_threads p new_threads) <= top /\
  executor_max_workers (set_threads p new_threads)
  = max_threads (set_threads p new_threads).
Proof.
  intros Hnew Htop Hexec. unfold set_threads.
  destruct (new_threads =? max_threads p) eqn:E; cbn.
  - apply Z.eqb_eq in E. split; [lia | exact Hexec].
  - split; [lia | reflexivity].
Qed.

Lemma step_bounds (p : Pool) (c : call) (top : Z) :
  reduction_ok c ->
  1 <= max_threads p <= top ->
  executor_max_workers p = max_threads p ->
  1 <= max_threads (step p c) <= top /\
  executor_max_workers (step p c) = max_threads (step p c).
Proof.
  intros Hc Hp Hexec. destruct c as [| r]; cbn.
  - apply set_threads_bounds; [| lia | exact Hexec].
    assert (max_threads p / 2 <= max_threads p)
      by (apply Z.div_le_upper_bound; lia).
    lia.
  - apply set_threads_bounds; [| lia | exact Hexec].
    cbn in Hc.
    assert (Py.int (inject_Z (max_threads p) * (1 - r)) <= max_threads p).
    { rewrite <- (PyFacts.int_inject (max_threads p)) at 2.
      apply PyFacts.int_mono.
      assert (0 <= inject_Z (max_threads p))%Q
        by (rewrite <- (Zle_Qle 0); lia).
      nra. }
    lia.
Qed.

Lemma run_bounds (cs : list call) (top : Z) :
  forall p,
    Forall reduction_ok cs ->
    1 <= max_threads p <= top ->
    executor_max_workers p = max_threads p ->
    1 <= max_threads (run cs p) <= top /\
    executor_max_workers (run cs p) = max_threads (run cs p).
Proof.
  induction cs as [| c cs IH]; intros p Hcs Hp Hexec; [now split |].
  inversion Hcs as [| ? ? Hc Hrest]; subst. cbn.
  destruct (step_bounds p c top Hc Hp Hexec) as [Hp' Hexec'].
  now apply IH.
Qed.

(** X5.  An engine starts with one to four worker threads, and the two
    throttle callbacks that change the thread count,
    [_handle_throttling] and [_handle_cpu_throttle] (with a reduction
    fraction that is not negative), in any number and order, never bring it
    below one nor above where it started; the executor's worker limit
    follows the count. *)
Theorem thread_count_stays_positive (cpu_count : option Z) (cs : list call) :
  (forall n, cpu_count = Some n -> 0 <= n) ->
  Forall reduction_ok cs ->
  let p := run cs (init cpu_count) in
  1 <= max_threads p <= max_threads (init cpu_count) /\
  max_threads (init cpu_count) <= 4 /\
  executor_max_workers p = max_threads p.
Proof.
  intros Hcount Hcs. cbv zeta.
  assert (Hinit : 1 <= max_threads (init cpu_count) <= 4).
  { unfold init; cbn. destruct cpu_count as [n |]; [| lia].
    specialize (Hcount n eq_refl).
    destruct (n =? 0) eqn:E; [lia |]. apply Z.eqb_neq in E. lia. }
  destruct (run_bounds cs (max_threads (init cpu_count)) (init cpu_count) Hcs)
    as [Hp Hexec]; [lia | reflexivity |].
  split; [exact Hp |]. split; [lia | exact Hexec].
Qed.

Lemma thread_count_stays_positive_witness :
  let p := run [CpuThrottle (1 # 2); Throttling; Throttling] (init (Some 8)) in
  1 <= max_threads p <= max_threads (init (Some 8)) /\
  max_threads (init (Some 8)) <= 4 /\
  executor_max_workers p = max_threads p.
Proof.
  apply (thread_count_stays_positive (Some 8)
           [CpuThrottle (1 # 2); Throttling; Throttling]).
  - intros n Hn. inversion Hn. lia.
  - repeat constructor. cbn. discriminate.
Defined.

(** *** File batches *)

Lemma file_batches_from_spec files batch_size (found : list string) :
  1 <= batch_size ->
  forall batch : list string,
    Z.of_nat (length batch) < batch_size ->
    let result := file_batches_from files batch_size found batch in
    concat result = (batch ++ List.filter (wanted files) found)%list /\
    Forall (fun b : list string => b <> [] /\ Z.of_nat (length b) <= batch_size)
           result /\
    (forall (i : nat) (b : list string),
        result !! i = Some b -> (S i < length result)%nat ->
        Z.of_nat (length b) = batch_size).
Proof.
  intros Hsize. induction found as [| file_path rest IH]; intros batch Hlen; cbn.
  - destruct batch as [| f batch]; cbn.
    + split; [reflexivity |]. split; [constructor |]. intros i b H. discriminate.
    + rewrite !app_nil_r. split; [reflexivity |]. split.
      * constructor; [| constructor]. split; [discriminate | cbn in *; lia].
      * intros [| i] b _ Hi; cbn in Hi; lia.
  - destruct (wanted files file_path); [| now apply IH].
    assert (Hlen' : Z.of_nat (length (batch ++ [file_path]))
                    = Z.of_nat (length batch) + 1)
      by (rewrite length_app; cbn; lia).
    destruct (Z.of_nat (length (batch ++ [file_path])) >=? batch_size) eqn:E.
    + apply Z.geb_le in E.
      destruct (IH [] ltac:(cbn; lia)) as (Hcat & Hall & Hfull).
      cbn [concat]. rewrite Hcat. cbn [app].
      split; [now rewrite <- app_assoc |]. split.
      * constructor; [| exact Hall].
        split; [now destruct batch | lia].
      * intros [| i] b Hb Hi; cbn in Hb, Hi.
        -- inversion Hb; subst. lia.
        -- apply (Hfull i b Hb). lia.
    + rewrite Z.geb_leb in E. apply Z.leb_gt in E.
      destruct (IH (batch ++ [file_path])%list ltac:(lia)) as (Hcat & Hall & Hfull).
      split; [| split; assumption].
      rewrite Hcat. now rewrite <- app_assoc.
Qed.

(** X6.  With a batch size of at least one, the batches that
    [_get_file_batches] yields are the wanted paths (regular files that
    [should_scan_file] accepts) in the order found, cut into chunks: laid
    end to end they give exactly those paths, no batch is empty or larger
    than the batch size, and every batch but the last is full. *)
Theorem file_batches_are_full_chunks files batch_size (found : list string) :
  1 <= batch_size ->
  let result := get_file_batches files batch_size found in
  concat result = List.filter (wanted files) found /\
  Forall (fun b : list string => b <> [] /\ Z.of_nat (length b) <= batch_size)
         result /\
  (forall (i : nat) (b : list string),
      result !! i = Some b -> (S i < length result)%nat ->
      Z.of_nat (length b) = batch_size).
Proof.
  intros Hsize. apply (file_batches_from_spec files batch_size found Hsize []).
  cbn. lia.
Qed.

Lemma file_batches_are_full_chunks_witness :
  let result := get_file_batches project 2 project_paths in
  concat result = List.filter (wanted project) project_paths /\
  Forall (fun b : list string => b <> [] /\ Z.of_nat (length b) <= 2) result /\
  (forall (i : nat) (b : list string),
      result !! i = Some b -> (S i < length result)%nat ->
      Z.of_nat (length b) = 2).
Proof.
  apply (file_batches_are_full_chunks project 2 project_paths). lia.
Defined.

Example project_batches :
  get_file_batches project 2 project_paths
  = [["app/a.py"; "app/b.py"]; ["app/c.py"]]%string.
Proof. vm_compute. reflexivity. Qed.

End EnginePoolFacts.

(** ** Scan results: always an answer, never a write *)

Module ScanReportFacts.
Import Eff Eff.Notations EffFacts Sys SysFacts Scan ScanReport.
Local Open Scope string_scope.

Section Scanning.
Context {E : Type} `{Library} `{Detectors}.
Implicit Types w : World E.

Lemma no_content_findings : content_findings [].
Proof. exists [], []. split; [reflexivity | now left]. Qed.

Lemma wp_search_patterns ps content
    (Qr : list Threat -> World E -> Prop) Qe :
  forall i w,
    (forall w' found, fs w' = fs w -> meta w' = meta w ->
                      found = [] \/ found = [suspicious_pattern] -> Qr found w') ->
    wp (search_patterns i ps content) Qr Qe w.
Proof.
  induction ps as [| pattern rest IH]; intros i w Hpost; cbn [search_patterns].
  - apply wp_ret. apply Hpost; auto.
  - apply wp_bind, wp_note. intros w1 Hf1 Hm1.
    destruct (re_search pattern content).
    + apply wp_ret. apply Hpost; auto.
    + apply IH. intros w2 found Hf2 Hm2 Hfound.
      apply Hpost; [congruence | congruence | exact Hfound].
Qed.

Lemma wp_magic_from_file p (Qr : string -> World E -> Prop) Qe w :
  (forall w', fs w' = fs w -> meta w' = meta w ->
              (forall ex, Qe ex w') /\ (forall file_type, Qr file_type w')) ->
  wp (magic_from_file p) Qr Qe w.
Proof.
  intros Hpost. unfold magic_from_file.
  apply wp_bind, wp_attempt. intros w1 Hf1 Hm1.
  split; [| intros ex; now apply Hpost].
  apply wp_bind, wp_get.
  destruct (fs w1 !! p) as [[| content mode] |];
    try (apply wp_raise; now apply Hpost).
  destruct (magic_from_buffer content);
    [apply wp_ret | apply wp_raise]; now apply Hpost.
Qed.

Lemma wp_match_rules content (Qr : list Threat -> World E -> Prop) Qe w :
  (forall w', fs w' = fs w -> meta w' = meta w ->
              (forall ex, Qe ex w') /\
              (forall names, Qr (map yara_threat names) w')) ->
  wp (match_rules content) Qr Qe w.
Proof.
  intros Hpost. unfold match_rules.
  apply wp_bind, wp_note. intros w1 Hf1 Hm1.
  destruct (yara_match content);
    [apply wp_ret | apply wp_raise]; now apply Hpost.
Qed.

(** Step 4, whatever fails inside it: it comes back, it changes no file and
    no metadata, and it adds content findings behind the ones it was
    given. *)
Lemma wp_analyze_content engine p threats
    (Qr : list Threat * string -> World E -> Prop) Qe w :
  (forall w' more file_type,
      fs w' = fs w -> meta w' = meta w -> content_findings more ->
      Qr ((threats ++ more)%list, file_type) w') ->
  wp (analyze_content engine p threats) Qr Qe w.
Proof.
  intros Hpost.
  assert (Hnone : forall w' file_type,
             fs w' = fs w -> meta w' = meta w -> Qr (threats, file_type) w').
  { intros w' file_type Hf Hm.
    rewrite <- (app_nil_r threats).
    apply Hpost; [exact Hf | exact Hm | apply no_content_findings]. }
  unfold analyze_content.
  apply wp_try_except, wp_bind.
  assert (Hgo : forall file_type w1,
             fs w1 = fs w -> meta w1 = meta w ->
             wp (try_except
                   (content <- read_bytes p ;;
                    found <- search_patterns 0 (patterns engine) content ;;
                    if yara_compiler engine
                    then try_except
                           (matched <- match_rules content ;;
                            ret (((threats ++ found) ++ matched)%list, file_type))
                           (fun _ => ret ((threats ++ found)%list, file_type))
                    else ret ((threats ++ found)%list, file_type))
                   (fun _ => ret (threats, file_type)))
                Qr
                (fun _ w' => wp (ret (threats, "unknown")) Qr Qe w')
                w1).
  { intros file_type w1 Hf1 Hm1.
    apply wp_try_except, wp_bind, wp_read_bytes. intros w2 Hf2 Hm2. split.
    { intros ex. apply wp_ret, Hnone; congruence. }
    intros content mode _.
    apply wp_bind, wp_search_patterns. intros w3 found Hf3 Hm3 Hfound.
    destruct (yara_compiler engine).
    - apply wp_try_except, wp_bind, wp_match_rules. intros w4 Hf4 Hm4. split.
      + intros ex. apply wp_ret, Hpost; [congruence | congruence |].
        exists found, []. cbn. now rewrite app_nil_r.
      + intros names. apply wp_ret. rewrite <- app_assoc.
        apply Hpost; [congruence | congruence |].
        now exists found, names.
    - apply wp_ret, Hpost; [congruence | congruence |].
      exists found, []. cbn. now rewrite app_nil_r. }
  destruct (has_magic engine).
  - apply wp_magic_from_file. intros w1 Hf1 Hm1. split.
    + intros ex. apply wp_ret. now apply Hnone.
    + intros file_type. now apply Hgo.
  - apply wp_ret. now apply Hgo.
Qed.

(** [scan_file], whatever fails: it answers, it changes no file and no
    metadata, and the answer is accounted for by the file. *)
Lemma wp_scan_file engine p w :
  wp (scan_file engine p)
     (fun r w' => fs w' = fs w /\ meta w' = meta w /\ accounted engine p w r)
     (fun _ _ => False) w.
Proof.
  unfold scan_file.
  apply wp_try_except, wp_bind, wp_path_exists.
  apply wp_bind. unfold is_file. apply wp_gets.
  destruct (fs w !! p) as [[| content mode] |] eqn:Hp.
  - rewrite bool_decide_eq_true_2 by eauto. cbn [negb orb].
    apply wp_ret. repeat split.
  - rewrite bool_decide_eq_true_2 by eauto. cbn [negb orb].
    apply wp_bind, wp_stat. intros w1 Hf1 Hm1. split.
    { intros ex. apply wp_ret. repeat split; assumption. }
    intros st Hst. rewrite (Hst _ _ Hp). cbn [fst].
    destruct (Z.of_nat (length content) >? size_limit)%Z eqn:Hsize.
    { apply wp_ret. split; [exact Hf1 |]. split; [exact Hm1 |].
      split; [reflexivity |]. split; [reflexivity |].
      exists content, mode. split; [exact Hp |].
      rewrite Z.gtb_ltb in Hsize. now apply Z.ltb_lt. }
    rewrite Z.gtb_ltb in Hsize. apply Z.ltb_ge in Hsize.
    apply wp_bind. unfold calculate_file_hash.
    apply wp_bind, wp_read_bytes. intros w2 Hf2 Hm2. split.
    { intros ex. apply wp_ret. repeat split; congruence. }
    intros c m Hc. rewrite Hf1, Hp in Hc. inversion Hc; subst c m. clear Hc.
    apply wp_bind, wp_note. intros w3 Hf3 Hm3. apply wp_ret.
    apply wp_bind, wp_analyze_content. intros w4 more file_type Hf4 Hm4 Hmore.
    apply wp_ret. cbn [fst snd].
    split; [congruence |]. split; [congruence |].
    split; [reflexivity |].
    exists content, mode, more. split; [exact Hp |]. split; [exact Hsize |].
    split; [reflexivity |].
    assert (Hthreats :
              ((if bool_decide (sha256_hex content ∈ hashes engine)
                then (if bool_decide (lower (suffix p) ∈ suspicious_extensions engine)
                      then [suspicious_extension p] else []) ++ [known_malware]
                else (if bool_decide (lower (suffix p) ∈ suspicious_extensions engine)
                      then [suspicious_extension p] else [])) ++ more)%list
              = (extension_findings engine p
                   ++ hash_findings engine content ++ more)%list).
    { unfold extension_findings, hash_findings.
      destruct (bool_decide (sha256_hex content ∈ hashes engine)).
      - now rewrite <- app_assoc.
      - reflexivity. }
    rewrite Hthreats. split; [reflexivity |]. split; [exact Hmore |].
    reflexivity.
  - rewrite bool_decide_eq_false_2 by (intros [x Hx]; discriminate).
    cbn [negb orb]. apply wp_ret. repeat split.
Qed.

Lemma accounted_status engine p w r :
  accounted engine p w r -> In (status_of r) statuses.
Proof.
  destruct r as [path err | path reason | path status threats hash file_type];
    cbn; intros Hr.
  - now left.
  - right. now left.
  - destruct Hr as (_ & content & mode & more & _ & _ & _ & _ & _ & ->).
    destruct threats; cbn; auto.
Qed.

(** X7.  [scan_file] answers for every path and in every circumstance: it
    never raises, whatever system or library call fails, and its status is
    one of "error", "skipped", "infected" and "clean".  It changes no file
    and no quarantine metadata.  For a path that is missing or holds no
    regular file the answer is an error about that path: such a path is
    never reported as skipped, clean or infected. *)
Theorem scan_file_always_answers engine p w :
  exists r w',
    scan_file engine p w = (Returned r, w') /\
    fs w' = fs w /\ meta w' = meta w /\
    In (status_of r) statuses /\
    ((forall content mode, fs w !! p <> Some (Reg content mode)) ->
     exists error, r = Failed p error).
Proof.
  pose proof (wp_scan_file engine p w) as Hwp.
  destruct (scan_file engine p w) as [r w'] eqn:Hrun.
  pose proof (wp_run _ _ _ _ _ _ Hwp Hrun) as Hpost.
  destruct r as [r | e |]; [| contradiction | contradiction].
  destruct Hpost as (Hf & Hm & Hr).
  exists r, w'. split; [reflexivity |]. split; [exact Hf |].
  split; [exact Hm |]. split; [now apply (accounted_status engine p w) |].
  intros Hnot. revert Hrun. unfold scan_file, try_except, bind, path_exists,
    is_file, gets, ret.
  destruct (fs w !! p) as [[| content mode] |] eqn:Hp.
  - rewrite bool_decide_eq_true_2 by eauto. cbn. intros Hrun.
    inversion Hrun. eauto.
  - now destruct (Hnot content mode).
  - rewrite bool_decide_eq_false_2 by (intros [x Hx]; discriminate).
    cbn. intros Hrun. inversion Hrun. eauto.
Qed.

(** X8.  For a regular file, every finding in a scan result is accounted
    for, whatever calls fail during the scan.  The answer "skipped" is given
    only to a file above 100 MiB.  A result with threats concerns a file of
    at most 100 MiB and carries the SHA-256 digest of its content; its
    threats are, in this order: the extension finding exactly when the
    lower-cased suffix is a suspicious one, the known-malware finding
    exactly when the digest is in the hash set, then at most one pattern
    finding and the rule matches.  So the verdict "clean" is never given to
    a file with a suspicious extension or a known-bad digest. *)
Theorem scan_findings_are_accounted_for engine p content mode w :
  fs w !! p = Some (Reg content mode) ->
  exists r w',
    scan_file engine p w = (Returned r, w') /\
    match r with
    | Failed path _ => path = p
    | Skipped path _ => path = p /\ (size_limit < Z.of_nat (length content))%Z
    | Scanned path status threats hash file_type =>
        path = p /\
        (Z.of_nat (length content) <= size_limit)%Z /\
        hash = sha256_hex content /\
        (exists more,
            threats = (extension_findings engine p
                         ++ hash_findings engine content ++ more)%list /\
            content_findings more) /\
        status = verdict threats /\
        (status = "clean" ->
         threats = [] /\
         (lower (suffix p) ∉ suspicious_extensions engine) /\
         (sha256_hex content ∉ hashes engine))
    end.
Proof.
  intros Hp.
  pose proof (wp_scan_file engine p w) as Hwp.
  destruct (scan_file engine p w) as [r w'] eqn:Hrun.
  pose proof (wp_run _ _ _ _ _ _ Hwp Hrun) as Hpost.
  destruct r as [r | e |]; [| contradiction | contradiction].
  destruct Hpost as (_ & _ & Hr).
  exists r, w'. split; [reflexivity |].
  destruct r as [path err | path reason | path status threats hash file_type];
    cbn in Hr.
  - exact Hr.
  - destruct Hr as (-> & _ & c & m & Hc & Hsize).
    rewrite Hp in Hc. inversion Hc; subst. now split.
  - destruct Hr as (-> & c & m & more & Hc & Hsize & -> & -> & Hmore & ->).
    rewrite Hp in Hc. inversion Hc; subst c m. clear Hc.
    split; [reflexivity |]. split; [exact Hsize |]. split; [reflexivity |].
    split; [now exists more |]. split; [reflexivity |].
    unfold extension_findings, hash_findings.
    destruct (bool_decide (lower (suffix p) ∈ suspicious_extensions engine))
      eqn:Hext; [discriminate |].
    destruct (bool_decide (sha256_hex content ∈ hashes engine))
      eqn:Hhash; [discriminate |].
    cbn [app]. destruct more; [| discriminate]. intros _.
    split; [reflexivity |].
    split; [now apply bool_decide_eq_false_1 in Hext
           | now apply bool_decide_eq_false_1 in Hhash].
Qed.

End Scanning.

Import Toy.

Lemma scan_findings_are_accounted_for_witness :
  exists r w',
    scan_file (default_engine true true) "notes.txt" empty_file_world
    = (Returned r, w') /\
    match r with
    | Scanned path status threats hash file_type =>
        hash = sha256_hex [] /\ status = verdict threats
    | _ => True
    end.
Proof.
  destruct (scan_findings_are_accounted_for (default_engine true true)
              "notes.txt" [] 33188 empty_file_world)
    as (r & w' & Hrun & Hr).
  - apply lookup_singleton_eq.
  - exists r, w'. split; [exact Hrun |].
    destruct r as [path err | path reason | path status threats hash file_type];
      [exact I | exact I |].
    destruct Hr as (_ & _ & Hhash & _ & Hstatus & _). now split.
Defined.

(** A clean file, and the same content under a suspicious name. *)
Example clean_and_suspicious :
  fst (scan_file (default_engine true true) "docs/report.txt" office)
  = Returned (Scanned "docs/report.txt" "clean" [] "0000000017" "data") /\
  status_of
    (match fst (scan_file (default_engine true true) "docs/REPORT.EXE"
                  (with_fs {[ "docs/REPORT.EXE" := Reg report 33188 ]} office)) with
     | Returned r => r
     | _ => Failed "" ""
     end)
  = "infected".
Proof. vm_compute. split; reflexivity. Qed.

End ScanReportFacts.

(** ** The quarantine store: missing files, unknown names, listings *)

Module QStoreEdgeFacts.
Import Eff Eff.Notations EffFacts Sys SysFacts QStore QStoreFacts Restoring.
Local Open Scope string_scope.

(** A computation shown never to raise or block does return. *)
Lemma wp_returns {W A} (m : M W A) (Qr : A -> W -> Prop) w :
  wp m Qr (fun _ _ => False) w ->
  exists a w', m w = (Returned a, w') /\ Qr a w'.
Proof.
  unfold wp. destruct (m w) as [[a | e |] w']; [eauto | contradiction..].
Qed.

Section Store.
Context `{Library}.
Variable mgr : Manager.
Implicit Types w : World QuarantineEntry.

(** Looking a name up: the entry on file, or an exception, and nothing
    changes. *)
Lemma wp_entry_of name (Qr : QuarantineEntry -> World QuarantineEntry -> Prop)
    Qe w :
  (forall w', fs w' = fs w -> meta w' = meta w ->
     (forall ex, Qe ex w') /\
     (forall metadata entry,
         meta w = Some metadata -> metadata !! name = Some entry ->
         Qr entry w')) ->
  wp (entry_of name) Qr Qe w.
Proof.
  intros Hpost. unfold entry_of, load_metadata.
  apply wp_bind, wp_load_or_empty. intros w1 Hf1 Hm1.
  destruct (Hpost w1 Hf1 Hm1) as [Hfail Hfound]. split.
  - rewrite lookup_empty. now apply wp_raise.
  - intros metadata Hmeta.
    destruct (metadata !! name) as [entry |] eqn:Hentry.
    + apply wp_ret. now apply (Hfound metadata).
    + now apply wp_raise.
Qed.

(** Removing an entry: the metadata is left as it was, or is replaced by a
    mapping without the name. *)
Lemma wp_remove_quarantine_entry name
    (Qr : unit -> World QuarantineEntry -> Prop) Qe w :
  (forall w', fs w' = fs w ->
     (meta w' = meta w -> forall ex, Qe ex w') /\
     (forall metadata, meta w' = Some metadata -> metadata !! name = None ->
                       Qr tt w')) ->
  wp (remove_quarantine_entry name) Qr Qe w.
Proof.
  intros Hpost. unfold remove_quarantine_entry, load_metadata.
  apply wp_bind, wp_load_or_empty. intros w1 Hf1 Hm1.
  assert (Hgo : forall loaded,
             wp (save_metadata (delete name loaded)) Qr Qe w1).
  { intros loaded. apply wp_save_metadata. intros w2 Hf2.
    destruct (Hpost w2 ltac:(congruence)) as [Hfail Hdone]. split.
    - intros Hm2. apply Hfail. congruence.
    - intros Hm2. apply (Hdone _ Hm2). apply lookup_delete_eq. }
  split; [apply Hgo | intros metadata _; apply Hgo].
Qed.

Lemma restore_file_unknown name force w :
  (forall metadata, meta w = Some metadata -> metadata !! name = None) ->
  wp (restore_file mgr name force)
     (fun r w' => r = false /\ fs w' = fs w /\ meta w' = meta w)
     (fun _ _ => False) w.
Proof.
  intros Hunknown. unfold restore_file.
  apply wp_try_except, wp_bind, wp_entry_of. intros w1 Hf1 Hm1. split.
  - intros ex. now apply wp_ret.
  - intros metadata entry Hmeta Hentry.
    rewrite (Hunknown metadata Hmeta) in Hentry. discriminate.
Qed.

Lemma delete_quarantined_file_unknown name w :
  (forall metadata, meta w = Some metadata -> metadata !! name = None) ->
  wp (delete_quarantined_file name)
     (fun r w' => r = false /\ fs w' = fs w /\ meta w' = meta w)
     (fun _ _ => False) w.
Proof.
  intros Hunknown. unfold delete_quarantined_file.
  apply wp_try_except, wp_bind, wp_entry_of. intros w1 Hf1 Hm1. split.
  - intros ex. now apply wp_ret.
  - intros metadata entry Hmeta Hentry.
    rewrite (Hunknown metadata Hmeta) in Hentry. discriminate.
Qed.

(** X9.  Asked to restore or to delete a name that the metadata does not
    hold (or with metadata that cannot be read), the store reports failure
    and changes nothing: no file and no metadata, whatever calls fail on
    the way. *)
Theorem unknown_name_changes_nothing name force w :
  (forall metadata, meta w = Some metadata -> metadata !! name = None) ->
  (exists w1,
      restore_file mgr name force w = (Returned false, w1) /\
      fs w1 = fs w /\ meta w1 = meta w) /\
  (exists w2,
      delete_quarantined_file name w = (Returned false, w2) /\
      fs w2 = fs w /\ meta w2 = meta w).
Proof.
  intros Hunknown. split.
  - destruct (wp_returns _ _ _ (restore_file_unknown name force w Hunknown))
      as (r & w1 & Hrun & -> & Hf & Hm).
    now exists w1.
  - destruct (wp_returns _ _ _ (delete_quarantined_file_unknown name w Hunknown))
      as (r & w2 & Hrun & -> & Hf & Hm).
    now exists w2.
Qed.

(** X10.  Asked to quarantine a path that is missing or is a directory,
    [quarantine_file] reports failure and changes nothing: no blob is
    written, the metadata is untouched and no random bytes are drawn. *)
Theorem quarantine_of_missing_file ts p threats w :
  fs w !! p = None \/ fs w !! p = Some Dir ->
  exists w',
    quarantine_file mgr ts p threats w = (Returned false, w') /\
    fs w' = fs w /\ meta w' = meta w /\ draws w' = draws w.
Proof.
  intros Hnone.
  assert (Hmissing : forall content mode, fs w !! p <> Some (Reg content mode))
    by (intros content mode; destruct Hnone as [Hnone | Hnone];
        rewrite Hnone; discriminate).
  clear Hnone.
  assert (Hread : exists e w', read_bytes p w = (Raised e, w') /\
                               fs w' = fs w /\ meta w' = meta w /\
                               draws w' = draws w).
  { unfold read_bytes, attempt, bind, note, modify, get, ret, raise, not_found.
    destruct w as [f m fl d l]. cbn in *.
    destruct fl as [| [] fl']; cbn;
      try (eexists _, _; split; [reflexivity |]; now repeat split);
      (destruct (f !! p) as [[| content mode] |] eqn:Hp; cbn;
       [eexists _, _; split; [reflexivity |]; now repeat split
       | now destruct (Hmissing content mode)
       | eexists _, _; split; [reflexivity |]; now repeat split]). }
  destruct Hread as (e & w' & Hrun & Hf & Hm & Hd).
  exists w'. split; [| now repeat split].
  unfold quarantine_file, try_except.
  rewrite (bind_raised _ _ _ _ _ Hrun). reflexivity.
Qed.

(** What a reported success of [restore_file] or
    [delete_quarantined_file] leaves in the metadata, whatever failed on
    the way: a mapping without the name. *)
Lemma restore_file_unlists name force w :
  wp (restore_file mgr name force)
     (fun r w' => r = true ->
                  exists metadata, meta w' = Some metadata /\
                                   metadata !! name = None)
     (fun _ _ => False) w.
Proof.
  unfold restore_file.
  apply wp_try_except, wp_bind, wp_entry_of. intros w1 Hf1 Hm1.
  split; [intros ex; apply wp_ret; discriminate |].
  intros metadata entry _ _.
  apply wp_bind, wp_read_bytes. intros w2 Hf2 Hm2.
  split; [intros ex; apply wp_ret; discriminate |].
  intros blob blob_mode _.
  apply wp_bind.
  destruct (fernet_decrypt (encryption_key mgr) blob) as [content |];
    [apply wp_ret | apply wp_raise, wp_ret; discriminate].
  apply wp_bind, wp_mkdir_parents. intros w3 Hf3 Hm3.
  split; [| intros ex; apply wp_ret; discriminate].
  apply wp_bind, wp_write_bytes. intros w4 Hm4.
  split; [intros _ ex; apply wp_ret; discriminate |].
  intros mode4 Hf4.
  apply wp_bind, wp_unlink. intros w5 Hm5.
  split; [intros _ ex; apply wp_ret; discriminate |].
  intros Hf5.
  apply wp_bind, wp_remove_quarantine_entry. intros w6 Hf6.
  split; [intros _ ex; apply wp_ret; discriminate |].
  intros metadata6 Hm6 Hgone. apply wp_ret. intros _. now exists metadata6.
Qed.

Lemma delete_quarantined_file_unlists name w :
  wp (delete_quarantined_file name)
     (fun r w' => r = true ->
                  exists metadata, meta w' = Some metadata /\
                                   metadata !! name = None)
     (fun _ _ => False) w.
Proof.
  unfold delete_quarantined_file.
  apply wp_try_except, wp_bind, wp_entry_of. intros w1 Hf1 Hm1.
  split; [intros ex; apply wp_ret; discriminate |].
  intros metadata entry _ _.
  apply wp_bind, wp_secure_delete. intros w2 Hm2 Hf2.
  split; [intros ex; apply wp_ret; discriminate |].
  intros _.
  apply wp_bind, wp_remove_quarantine_entry. intros w3 Hf3.
  split; [intros _ ex; apply wp_ret; discriminate |].
  intros metadata3 Hm3 Hgone. apply wp_ret. intros _. now exists metadata3.
Qed.

(** The listing: the entries of the metadata when the read goes through,
    nothing otherwise; it changes nothing. *)
Lemma wp_get_quarantine_list w :
  wp Listing.get_quarantine_list
     (fun items w' =>
        fs w' = fs w /\ meta w' = meta w /\
        (items = [] \/
         exists metadata, meta w = Some metadata /\ items = map_to_list metadata))
     (fun _ _ => False) w.
Proof.
  unfold Listing.get_quarantine_list, load_metadata.
  apply wp_try_except, wp_bind, wp_load_or_empty. intros w1 Hf1 Hm1. split.
  - apply wp_ret. split; [exact Hf1 |]. split; [exact Hm1 |].
    left. apply map_to_list_empty.
  - intros metadata Hmeta. apply wp_ret.
    split; [exact Hf1 |]. split; [exact Hm1 |]. right. now exists metadata.
Qed.



(** X12.  Whenever [restore_file] or [delete_quarantined_file] reports
    success for a name, whatever failed on the way, no listing taken next
    shows that name any more. *)
Theorem removed_file_is_not_listed name force w w1 :
  restore_file mgr name force w = (Returned true, w1)
  \/ delete_quarantined_file name w = (Returned true, w1) ->
  exists items w2,
    Listing.get_quarantine_list w1 = (Returned items, w2) /\
    forall entry, (name, entry) ∉ items.
Proof.
  intros Hrun.
  assert (Hgone : exists metadata, meta w1 = Some metadata /\
                                   metadata !! name = None).
  { destruct Hrun as [Hrun | Hrun].
    - now apply (wp_run _ _ _ _ _ _ (restore_file_unlists name force w) Hrun).
    - now apply (wp_run _ _ _ _ _ _ (delete_quarantined_file_unlists name w) Hrun). }
  destruct Hgone as (metadata & Hmeta & Hnone).
  destruct (wp_returns _ _ _ (wp_get_quarantine_list w1))
    as (items & w2 & Hlist & _ & _ & Hitems).
  exists items, w2. split; [exact Hlist |].
  intros entry Hin. destruct Hitems as [-> | (metadata' & Hmeta' & ->)].
  - now apply elem_of_nil in Hin.
  - apply elem_of_map_to_list in Hin.
    rewrite Hmeta in Hmeta'. inversion Hmeta'; subst. congruence.
Qed.



End Store.

Import Toy.

Lemma unknown_name_changes_nothing_witness :
  (exists w1,
      restore_file store "20240101_120000_report.txt" false office
      = (Returned false, w1) /\
      fs w1 = fs office /\ meta w1 = meta office) /\
  (exists w2,
      delete_quarantined_file "20240101_120000_report.txt" office
      = (Returned false, w2) /\
      fs w2 = fs office /\ meta w2 = meta office).
Proof.
  apply (unknown_name_changes_nothing store "20240101_120000_report.txt" false
           office).
  intros metadata Hmeta. inversion Hmeta; subst. apply lookup_empty.
Defined.

Lemma quarantine_of_missing_file_witness :
  exists w',
    quarantine_file store "20240101_120000" "docs/elsewhere.txt" [] office
    = (Returned false, w') /\
    fs w' = fs office /\ meta w' = meta office /\ draws w' = draws office.
Proof.
  apply (quarantine_of_missing_file store "20240101_120000"
           "docs/elsewhere.txt" [] office).
  left. vm_compute. reflexivity.
Defined.


Lemma report_restored :
  restore_file store "20240101_120000_report.txt" false
    (snd (quarantine_file store "20240101_120000" "docs/report.txt" [] office))
  = (Returned true,
     snd (restore_file store "20240101_120000_report.txt" false
            (snd (quarantine_file store "20240101_120000" "docs/report.txt" []
                    office)))).
Proof. vm_compute. reflexivity. Qed.


Lemma removed_file_is_not_listed_witness :
  exists items w2,
    Listing.get_quarantine_list
      (snd (restore_file store "20240101_120000_report.txt" false
              (snd (quarantine_file store "20240101_120000" "docs/report.txt" []
                      office))))
    = (Returned items, w2) /\
    forall entry, ("20240101_120000_report.txt", entry) ∉ items.
Proof.
  apply (removed_file_is_not_listed store "20240101_120000_report.txt" false
           (snd (quarantine_file store "20240101_120000" "docs/report.txt" []
                   office))).
  left. exact report_restored.
Defined.


End QStoreEdgeFacts.

(** ** The engine's quarantine: missing files, unknown names, failures *)

Module EngineQEdgeFacts.
Import Eff Eff.Notations EffFacts Sys SysFacts EngineQuarantine EngineQFacts
  EngineSafety.
Local Open Scope string_scope.

Section Engine.
Context `{Library}.
Variable engine : Engine.
Implicit Types w : World QuarantineMetadata.

Lemma engine_restore_unknown name w :
  (forall metadata, meta w = Some metadata -> metadata !! name = None) ->
  wp (restore_file engine name)
     (fun r w' => r = false /\ fs w' = fs w /\ meta w' = meta w)
     (fun _ _ => False) w.
Proof.
  intros Hunknown. unfold restore_file, load_quarantine_metadata.
  apply wp_try_except, wp_bind, wp_load_or_empty. intros w1 Hf1 Hm1. split.
  - rewrite lookup_empty. now apply wp_bind, wp_raise, wp_ret.
  - intros metadata Hmeta. rewrite (Hunknown metadata Hmeta).
    now apply wp_bind, wp_raise, wp_ret.
Qed.

Lemma engine_quarantine_missing ts p threats w :
  (forall content mode, fs w !! p <> Some (Reg content mode)) ->
  wp (quarantine_file engine ts p threats)
     (fun r w' => r = false /\ fs w' = fs w /\ meta w' = meta w)
     (fun _ _ => False) w.
Proof.
  intros Hmissing. unfold quarantine_file.
  apply wp_try_except, wp_bind, wp_calculate_file_hash. intros w1 Hf1 Hm1. split.
  - now apply wp_bind, wp_raise, wp_ret.
  - intros content mode Hp. now destruct (Hmissing content mode).
Qed.

(** X14.  The engine's quarantine turns down what it cannot serve and
    leaves everything as it was: asked to quarantine a path that is missing
    or is a directory, or to restore a name its metadata does not hold, it
    reports failure, and no file and no metadata has changed, whatever
    calls fail on the way. *)
Theorem engine_quarantine_turns_down ts p threats name w :
  fs w !! p = None \/ fs w !! p = Some Dir ->
  (forall metadata, meta w = Some metadata -> metadata !! name = None) ->
  (exists w1,
      quarantine_file engine ts p threats w = (Returned false, w1) /\
      fs w1 = fs w /\ meta w1 = meta w) /\
  (exists w2,
      restore_file engine name w = (Returned false, w2) /\
      fs w2 = fs w /\ meta w2 = meta w).
Proof.
  intros Hnone Hunknown.
  assert (Hmissing : forall content mode, fs w !! p <> Some (Reg content mode))
    by (intros content mode; destruct Hnone as [Hnone | Hnone];
        rewrite Hnone; discriminate).
  split.
  - destruct (QStoreEdgeFacts.wp_returns _ _ _
                (engine_quarantine_missing ts p threats w Hmissing))
      as (r & w1 & Hrun & -> & Hf & Hm).
    now exists w1.
  - destruct (QStoreEdgeFacts.wp_returns _ _ _
                (engine_restore_unknown name w Hunknown))
      as (r & w2 & Hrun & -> & Hf & Hm).
    now exists w2.
Qed.





End Engine.

Import Toy.

Lemma engine_quarantine_turns_down_witness :
  (exists w1,
      quarantine_file engine "20240101_120000" "home/u/none.pdf" [] desk
      = (Returned false, w1) /\
      fs w1 = fs desk /\ meta w1 = meta desk) /\
  (exists w2,
      restore_file engine "20240101_120000_00000000_invoice.pdf" desk
      = (Returned false, w2) /\
      fs w2 = fs desk /\ meta w2 = meta desk).
Proof.
  apply (engine_quarantine_turns_down engine "20240101_120000"
           "home/u/none.pdf" [] "20240101_120000_00000000_invoice.pdf" desk).
  - left. vm_compute. reflexivity.
  - intros metadata Hmeta. inversion Hmeta; subst. apply lookup_empty.
Defined.



End EngineQEdgeFacts.

(** ** The throttle controller: activation on its own, idle and diskless hosts *)

Module ThrottlerMoreFacts.
Import Eff Eff.Notations EffFacts Throttler ThrottlerFacts ThrottlerReadings.
Local Open Scope Z_scope.

(** The sort rearranges the rules and loses none. *)
Lemma insert_by_priority_perm r sorted :
  Permutation (insert_by_priority r sorted) (r :: sorted).
Proof.
  induction sorted as [| r' rest IH]; simpl; [reflexivity |].
  destruct (priority r' <=? priority r); [reflexivity |].
  rewrite IH. apply perm_swap.
Qed.

Lemma sort_by_priority_perm rs : Permutation (sort_by_priority rs) rs.
Proof.
  induction rs as [| r rest IH]; simpl; [reflexivity |].
  rewrite insert_by_priority_perm. now constructor.
Qed.

(** X17.  Called on its own with the lock free, for rules whose resources
    have a callback list, [apply_throttle] returns with the lock released
    and the throttle on: the start instant is the clock reading, the
    active rules are the given ones rearranged by descending priority, and
    the callbacks entered are exactly those registered for each active
    rule's resource, rule by rule in that order, each with the rule's
    reduction fraction, whether or not an earlier callback raised. *)
Theorem apply_throttle_activates host w triggered :
  lock_held w = false ->
  (forall rule, In rule triggered ->
                is_Some (throttle_callbacks w !! resource rule)) ->
  exists w',
    apply_throttle host triggered w = (Returned tt, w') /\
    lock_held w' = false /\
    is_throttled w' = true /\
    throttle_start w' = Some (clock host (clock_reads w)) /\
    Permutation (current_rules w') triggered /\
    descending (current_rules w') /\
    throttle_callbacks w' = throttle_callbacks w /\
    calls (trace w')
    = (calls (trace w)
         ++ owed_calls (throttle_callbacks w) (current_rules w'))%list.
Proof.
  intros Hl Hreg.
  destruct (apply_throttle_alone host w triggered Hl Hreg)
    as (w' & Hrun & Hl' & Ht' & Hs' & Hr' & Hd' & Hc').
  exists w'. split; [exact Hrun |]. split; [exact Hl' |].
  split; [exact Ht' |]. split; [exact Hs' |].
  split; [rewrite Hr'; apply sort_by_priority_perm |].
  split; [exact Hd' |]. split; [| now rewrite Hr'].
  revert Hrun. unfold apply_throttle, with_lock. rewrite Hl.
  unfold bind, now, modify. rewrite rules_all_run.
  - intros Hrun. inversion Hrun. reflexivity.
  - intros rule Hin. cbn. apply Hreg. now apply sort_by_priority_In.
Qed.

Lemma apply_throttle_activates_witness :
  exists w',
    apply_throttle hot_host [cpu_rule; memory_rule] wired = (Returned tt, w') /\
    is_throttled w' = true /\
    Permutation (current_rules w') [cpu_rule; memory_rule] /\
    descending (current_rules w').
Proof.
  destruct (apply_throttle_activates hot_host wired [cpu_rule; memory_rule])
    as (w' & Hrun & _ & Ht & _ & Hperm & Hdesc & _).
  - reflexivity.
  - intros rule [<- | [<- | []]]; vm_compute; eauto.
  - exists w'. repeat split; assumption.
Defined.

(** The world [apply_throttle] leaves, spelled out. *)
Lemma apply_throttle_run host w triggered :
  lock_held w = false ->
  (forall rule, In rule triggered ->
                is_Some (throttle_callbacks w !! resource rule)) ->
  apply_throttle host triggered w
  = (Returned tt,
     mkWorld false true (Some (clock host (clock_reads w)))
       (sort_by_priority triggered) (throttle_callbacks w) (rules w)
       (S (clock_reads w))
       (trace w ++ flat_map (rule_events (throttle_callbacks w))
                            (sort_by_priority triggered))).
Proof.
  intros Hl Hreg. unfold apply_throttle, with_lock. rewrite Hl.
  unfold bind, now, modify. rewrite rules_all_run.
  - reflexivity.
  - intros rule Hin. cbn. apply Hreg. now apply sort_by_priority_In.
Qed.

(** X18.  Activation followed by a request before the cooldown is over
    reports "still throttled".  After [apply_throttle] was called on its
    own for some rules, a [check_resources] call all of whose clock
    readings fall within the cooldown of one of those rules returns true
    with the throttle state as the activation left it: nothing is sampled
    and no callback is entered, whatever the host's CPU, memory and disk
    figures are by then. *)
Theorem activation_holds_during_cooldown host later w triggered rule :
  lock_held w = false ->
  (forall r, In r triggered -> is_Some (throttle_callbacks w !! resource r)) ->
  In rule triggered ->
  (forall k : nat, (k < length triggered)%nat ->
     clock later (S (clock_reads w) + k) - clock host (clock_reads w)
     < cooldown rule * 1000000) ->
  exists w1 w2,
    apply_throttle host triggered w = (Returned tt, w1) /\
    check_resources later w1 = (Returned true, w2) /\
    trace w2 = trace w1 /\
    lock_held w2 = false /\
    is_throttled w2 = true /\
    throttle_start w2 = throttle_start w1 /\
    current_rules w2 = current_rules w1.
Proof.
  intros Hl Hreg Hin Hclock.
  pose proof (apply_throttle_run host w triggered Hl Hreg) as Hrun1.
  set (w1 := mkWorld _ _ _ _ _ _ _ _) in Hrun1.
  set (start := clock host (clock_reads w)) in *.
  assert (Hin' : In rule (sort_by_priority triggered))
    by now apply sort_by_priority_In.
  apply list_elem_of_In, list_elem_of_lookup in Hin' as [j Hj].
  assert (Hjlen : (j < length triggered)%nat).
  { apply lookup_lt_Some in Hj.
    now rewrite (Permutation_length (sort_by_priority_perm triggered)) in Hj. }
  destruct (in_cooldown_true later start (sort_by_priority triggered)
              (set_lock true w1) j rule Hj (Hclock j Hjlen))
    as [n Hn].
  exists w1. eexists. split; [exact Hrun1 |].
  rewrite (check_resources_throttled later w1 start eq_refl eq_refl eq_refl).
  unfold with_lock. cbn [lock_held w1]. unfold bind.
  cbn [current_rules w1]. rewrite Hn.
  split; [reflexivity |].
  destruct (ticks_fields n (set_lock true w1)) as (_ & H1 & H2 & H3 & _ & _ & H4).
  cbn [is_throttled throttle_start current_rules trace set_lock lock_held] in *.
  rewrite H1, H2, H3, H4. repeat split; reflexivity.
Qed.

Lemma activation_holds_during_cooldown_witness :
  exists w1 w2,
    apply_throttle hot_host [cpu_rule; memory_rule] wired = (Returned tt, w1) /\
    check_resources later_host w1 = (Returned true, w2) /\
    trace w2 = trace w1.
Proof.
  destruct (activation_holds_during_cooldown hot_host later_host wired
              [cpu_rule; memory_rule] cpu_rule)
    as (w1 & w2 & H1 & H2 & H3 & _).
  - reflexivity.
  - intros rule [<- | [<- | []]]; vm_compute; eauto.
  - now left.
  - intros k _. vm_compute. reflexivity.
  - exists w1, w2. repeat split; assumption.
Defined.

(** What the sampling half of [check_resources] does with the default
    rules: the three readings are logged, and the rules whose threshold is
    exceeded are collected in the order CPU, memory, disk. *)
Lemma collect_triggered_exact host w counters :
  rules w = default_rules ->
  disk_io_counters host = Some counters ->
  collect_triggered host w
  = (Returned
       ((if Py.gtb (cpu_percent host) 80 then [cpu_rule] else [])
          ++ (if Py.gtb (memory_percent host) 85 then [memory_rule] else [])
          ++ (if Py.gtb (disk_io_figure counters) 90 then [disk_io_rule] else []))%list,
     with_trace (trace w ++ [Sampled "cpu"; Sampled "memory"; Sampled "disk_io"]%string)
                w).
Proof.
  intros Hr Hd. destruct counters as [rd wr]. unfold collect_triggered.
  set (w3 := with_trace
               (trace w ++ [Sampled "cpu"; Sampled "memory"; Sampled "disk_io"]%string)
               w).
  assert (Hlog : forall B (k : M World B),
             (log (Sampled "cpu") ;;; log (Sampled "memory") ;;;
              log (Sampled "disk_io") ;;; k) w = k w3).
  { intros B k. unfold bind, log, modify, record, with_trace, w3; cbn.
    now rewrite <- !app_assoc. }
  rewrite Hlog.
  assert (Hr3 : rules w3 = default_rules) by exact Hr.
  erewrite bind_returned
    by (apply (check_rule_found "cpu" cpu_rule); rewrite Hr3; reflexivity).
  erewrite bind_returned
    by (apply (check_rule_found "memory" memory_rule); rewrite Hr3; reflexivity).
  rewrite Hd. erewrite bind_returned by reflexivity.
  erewrite (check_rule_found "disk_io" disk_io_rule)
    by (rewrite Hr3; reflexivity).
  cbn [threshold cpu_rule memory_rule disk_io_rule].
  unfold disk_io_figure. cbn [fst snd].
  destruct (Py.gtb (cpu_percent host) 80), (Py.gtb (memory_percent host) 85),
    (Py.gtb _ 90); reflexivity.
Qed.

(** X19.  On a host none of whose readings exceeds its threshold (CPU at
    most 80 %, memory at most 85 %, disk figure at most 90), a
    [check_resources] call made while the throttle is off, with the default
    rules and the lock free, returns false and changes nothing: it takes
    the three readings, the throttle stays off, no callback is entered and
    the lock is released.  A reading exactly at its threshold does not
    trigger. *)
Theorem idle_check_changes_nothing host w counters :
  lock_held w = false ->
  is_throttled w = false ->
  rules w = default_rules ->
  disk_io_counters host = Some counters ->
  (cpu_percent host <= 80)%Q ->
  (memory_percent host <= 85)%Q ->
  (disk_io_figure counters <= 90)%Q ->
  check_resources host w
  = (Returned false,
     with_trace (trace w ++ [Sampled "cpu"; Sampled "memory"; Sampled "disk_io"]%string)
                w).
Proof.
  intros Hl Ht Hr Hd Hcpu Hmem Hdisk.
  apply PyFacts.ltb_ge in Hcpu, Hmem, Hdisk.
  unfold check_resources, with_lock. rewrite Hl.
  unfold bind at 1. unfold get at 1. cbn [is_throttled set_lock]. rewrite Ht.
  rewrite (bind_returned _ _ _ _ _
             (collect_triggered_exact host (set_lock true w) counters Hr Hd)).
  unfold Py.gtb. rewrite Hcpu, Hmem, Hdisk. cbn [app]. unfold ret.
  destruct w; cbn in *; subst. reflexivity.
Qed.

Lemma idle_check_changes_nothing_witness :
  check_resources idle_host wired
  = (Returned false,
     with_trace [Sampled "cpu"; Sampled "memory"; Sampled "disk_io"]%string wired).
Proof.
  apply (idle_check_changes_nothing idle_host wired (1024, 2048)).
  - reflexivity.
  - reflexivity.
  - reflexivity.
  - reflexivity.
  - vm_compute. discriminate.
  - vm_compute. discriminate.
  - vm_compute. discriminate.
Defined.

(** X20.  On a host without disk counters, a [check_resources] call made
    while the throttle is off (default rules, lock free) raises instead of
    answering, however high the CPU and memory readings are: the disk
    figure is computed before any rule is applied.  The lock is released,
    the throttle stays off, and no callback is entered. *)
Theorem diskless_host_is_never_throttled host w :
  lock_held w = false ->
  is_throttled w = false ->
  rules w = default_rules ->
  disk_io_counters host = None ->
  exists e w',
    check_resources host w = (Raised e, w') /\
    lock_held w' = false /\
    is_throttled w' = false /\
    throttle_start w' = throttle_start w /\
    current_rules w' = current_rules w /\
    calls (trace w') = calls (trace w).
Proof.
  intros Hl Ht Hr Hd.
  unfold check_resources, with_lock. rewrite Hl.
  unfold bind at 1. unfold get at 1. cbn [is_throttled set_lock]. rewrite Ht.
  unfold collect_triggered.
  set (w0 := set_lock true w).
  set (w3 := with_trace
               (trace w0 ++ [Sampled "cpu"; Sampled "memory"; Sampled "disk_io"]%string)
               w0).
  assert (Hlog : forall B (k : M World B),
             (log (Sampled "cpu") ;;; log (Sampled "memory") ;;;
              log (Sampled "disk_io") ;;; k) w0 = k w3).
  { intros B k. unfold bind, log, modify, record, with_trace, w3; cbn.
    now rewrite <- !app_assoc. }
  assert (Hr3 : rules w3 = default_rules) by exact Hr.
  unfold bind at 1. rewrite Hlog.
  erewrite bind_returned
    by (apply (check_rule_found "cpu" cpu_rule); rewrite Hr3; reflexivity).
  erewrite bind_returned
    by (apply (check_rule_found "memory" memory_rule); rewrite Hr3; reflexivity).
  rewrite Hd. unfold bind, raise.
  eexists _, _. split; [reflexivity |]. cbn.
  repeat split; try assumption.
  rewrite calls_app. cbn. apply app_nil_r.
Qed.

Lemma diskless_host_is_never_throttled_witness :
  exists e w',
    check_resources diskless_host wired = (Raised e, w') /\
    lock_held w' = false /\
    is_throttled w' = false.
Proof.
  destruct (diskless_host_is_never_throttled diskless_host wired)
    as (e & w' & Hrun & Hl & Ht & _); try reflexivity.
  exists e, w'. repeat split; assumption.
Defined.

End ThrottlerMoreFacts.

(** ** Choosing and setting the scan profile *)

Module IntensityAdminFacts.
Import Health Intensity IntensityAdmin.
Local Open Scope string_scope.

Lemma select_profile_range (h : HealthDict) : In (select_profile h) profile_names.
Proof.
  unfold select_profile, profile_names.
  repeat match goal with
         | |- context [if ?b then _ else _] => destruct b
         end; cbn; tauto.
Qed.

Lemma lookup_profile (n : string) :
  In n profile_names ->
  exists cfg, profiles (init 0) !! n = Some cfg /\ name cfg = n.
Proof.
  unfold profile_names. intros [<- | [<- | [<- | [<- | []]]]];
    eexists; split; vm_compute; reflexivity.
Qed.

Lemma unknown_profile (n : string) :
  profiles (init 0) !! n <> None -> In n profile_names.
Proof.
  intros Hn. unfold init in Hn. cbn [profiles] in Hn.
  unfold profile_names.
  destruct (decide (n = "aggressive")) as [-> | H1]; [cbn; tauto |].
  destruct (decide (n = "balanced")) as [-> | H2]; [cbn; tauto |].
  destruct (decide (n = "conservative")) as [-> | H3]; [cbn; tauto |].
  destruct (decide (n = "minimal")) as [-> | H4]; [cbn; tauto |].
  exfalso. apply Hn.
  rewrite !lookup_insert_ne by congruence. apply lookup_empty.
Qed.

Lemma step_well_formed (m : Manager) (c : call) :
  well_formed m -> well_formed (step m c).
Proof.
  intros [Hprofiles Hcurrent]. destruct c as [n now | health now1 now2]; cbn.
  - unfold set_profile.
    destruct (profiles m !! n) as [cfg |] eqn:Hn; cbn; [| now split].
    split; [exact Hprofiles |]. apply unknown_profile.
    cbn [current_profile]. rewrite <- Hprofiles, Hn. discriminate.
  - unfold adjust_intensity.
    destruct (now1 - last_adjustment m <? adjustment_cooldown m)%Z; [now split |].
    destruct health as [h |]; [| now split].
    destruct (negb (String.eqb (select_profile h) (current_profile m)));
      [| now split].
    destruct (profiles m !! current_profile m); [| now split].
    destruct (profiles m !! select_profile h); [| now split].
    cbn. split; [exact Hprofiles | apply select_profile_range].
Qed.

Lemma run_well_formed (cs : list call) :
  forall m, well_formed m -> well_formed (run cs m).
Proof.
  induction cs as [| c cs IH]; intros m Hm; [exact Hm |].
  apply IH. now apply step_well_formed.
Qed.

(** X21.  From [__init__] on, through any sequence of [set_profile] and
    [adjust_intensity] calls, whatever names, health dictionaries and
    instants they are given, the current profile is one of "aggressive",
    "balanced", "conservative" and "minimal", and [get_current_profile]
    finds its configuration, whose name is the current profile: the lookup
    never fails. *)
Theorem current_profile_is_always_known (start : Z) (cs : list call) :
  let m := run cs (init start) in
  In (current_profile m) profile_names /\
  exists cfg, get_current_profile m = Some cfg /\ name cfg = current_profile m.
Proof.
  cbv zeta.
  destruct (run_well_formed cs (init start)) as [Hprofiles Hcurrent].
  { split; [reflexivity |]. cbn. tauto. }
  split; [exact Hcurrent |].
  unfold get_current_profile. rewrite Hprofiles.
  now apply lookup_profile.
Qed.

(** X22.  [set_profile] with a name that is no profile answers False and
    changes nothing.  With the name of a profile it answers True, makes it
    the current profile and restarts the adjustment cooldown: an
    [adjust_intensity] call within the cooldown after it returns None and
    leaves the chosen profile in place, whatever the system health is. *)
Theorem set_profile_holds_for_the_cooldown (m : Manager) (n : string)
    (now : Z) (health : option HealthDict) (now1 now2 : Z) :
  (profiles m !! n = None -> set_profile m n now = (false, m)) /\
  (profiles m !! n <> None ->
   (now1 - now < adjustment_cooldown m)%Z ->
   fst (set_profile m n now) = true /\
   current_profile (snd (set_profile m n now)) = n /\
   adjust_intensity (snd (set_profile m n now)) health now1 now2
   = (None, snd (set_profile m n now))).
Proof.
  unfold set_profile. split.
  - now intros ->.
  - intros Hn Hsoon. destruct (profiles m !! n) as [cfg |]; [| congruence].
    cbn. split; [reflexivity |]. split; [reflexivity |].
    unfold adjust_intensity. cbn.
    apply Z.ltb_lt in Hsoon. now rewrite Hsoon.
Qed.

Lemma set_profile_holds_for_the_cooldown_witness :
  set_profile (init 0) "turbo" 1000 = (false, init 0) /\
  fst (set_profile (init 0) "minimal" 1000) = true /\
  adjust_intensity (snd (set_profile (init 0) "minimal" 1000))
                   (Some relaxed) 2000 3000
  = (None, snd (set_profile (init 0) "minimal" 1000)).
Proof.
  destruct (set_profile_holds_for_the_cooldown (init 0) "turbo" 1000 None 0 0)
    as [Hunknown _].
  destruct (set_profile_holds_for_the_cooldown (init 0) "minimal" 1000
              (Some relaxed) 2000 3000)
    as [_ Hknown].
  split; [apply Hunknown; vm_compute; reflexivity |].
  destruct Hknown as (Hr & _ & Hadjust).
  - vm_compute. discriminate.
  - vm_compute. reflexivity.
  - now split.
Defined.

Lemma not_above (x a b : Q) : (x < a)%Q -> (a <= b)%Q -> Py.gtb x b = false.
Proof.
  intros Hx Hab. unfold Py.gtb. apply PyFacts.ltb_ge. lra.
Qed.

(** X23.  [_select_profile] allows the "aggressive" profile exactly when
    the status is "healthy" and memory, CPU and disk usage are below 50 %,
    40 % and 70 %; and a "critical" status always gives "minimal",
    whatever the usage figures are. *)
Theorem aggressive_only_when_idle (h : HealthDict) :
  (select_profile h = "aggressive" <->
   hd_status h = "healthy" /\
   (hd_memory_usage h < 50)%Q /\
   (hd_cpu_usage h < 40)%Q /\
   (hd_disk_usage h < 70)%Q) /\
  (hd_status h = "critical" -> select_profile h = "minimal").
Proof.
  split; [split |].
  - unfold select_profile.
    destruct (String.eqb (hd_status h) "critical"); [discriminate |].
    destruct (Py.gtb (hd_memory_usage h) 90); [discriminate |].
    destruct (Py.gtb (hd_memory_usage h) 75); [discriminate |].
    destruct (Py.gtb (hd_cpu_usage h) 85); [discriminate |].
    destruct (Py.gtb (hd_cpu_usage h) 70); [discriminate |].
    destruct (Py.gtb (hd_disk_usage h) 95); [discriminate |].
    destruct (Py.gtb (hd_disk_usage h) 85); [discriminate |].
    destruct (String.eqb (hd_status h) "healthy" && _) eqn:Hidle;
      [| discriminate].
    intros _.
    apply andb_true_iff in Hidle as [Hstatus Hidle].
    apply andb_true_iff in Hidle as [Hidle Hdisk].
    apply andb_true_iff in Hidle as [Hmem Hcpu].
    apply String.eqb_eq in Hstatus.
    apply PyFacts.ltb_lt in Hmem, Hcpu, Hdisk. tauto.
  - intros (Hstatus & Hmem & Hcpu & Hdisk). unfold select_profile.
    rewrite Hstatus. cbn [String.eqb Ascii.eqb Bool.eqb].
    rewrite (not_above _ 50 90 Hmem), (not_above _ 50 75 Hmem),
      (not_above _ 40 85 Hcpu), (not_above _ 40 70 Hcpu),
      (not_above _ 70 95 Hdisk), (not_above _ 70 85 Hdisk) by lra.
    apply PyFacts.ltb_lt in Hmem, Hcpu, Hdisk.
    now rewrite Hmem, Hcpu, Hdisk.
  - intros Hstatus. unfold select_profile. now rewrite Hstatus.
Qed.

Example relaxed_is_aggressive :
  select_profile relaxed = "aggressive" /\ select_profile pressed = "minimal".
Proof. vm_compute. split; reflexivity. Qed.

End IntensityAdminFacts.

(** ** The health history and the alerts *)

Module HealthHistoryFacts.
Import Eff Eff.Notations EffFacts Health HealthFacts HealthHistory.
Local Open Scope string_scope.

(** *** The history *)

(** One update of a history within its length: the history stays within
    its length, and dropping down to the latest [max_history] statuses
    commutes with it. *)
Lemma update_health_history_step (h : list HealthStatus) (s : HealthStatus) :
  (length h <= 1440)%nat ->
  (length (update_health_history h s) <= 1440)%nat /\
  forall rest : list HealthStatus,
    drop (length (update_health_history h s) + length rest - 1440)
         (update_health_history h s ++ rest)
    = drop (length h + S (length rest) - 1440) (h ++ s :: rest).
Proof.
  intros Hlen. unfold update_health_history, max_history.
  rewrite length_app. cbn [length].
  destruct (Z.of_nat (length h + 1) >? 1440)%Z eqn:E.
  - rewrite Z.gtb_ltb in E. apply Z.ltb_lt in E.
    destruct h as [| x h']; cbn [length] in *; [lia |].
    cbn [app tail]. rewrite length_app. cbn [length]. split; [lia |].
    intros rest. rewrite <- app_assoc. cbn [app].
    replace (S (length h') + S (length rest) - 1440)%nat
      with (S (length h' + 1 + length rest - 1440))%nat by lia.
    reflexivity.
  - rewrite Z.gtb_ltb in E. apply Z.ltb_ge in E.
    rewrite length_app. cbn [length]. split; [lia |].
    intros rest. rewrite <- app_assoc. cbn [app].
    f_equal. lia.
Qed.

Lemma fold_update_drop (statuses : list HealthStatus) :
  forall h : list HealthStatus,
    (length h <= 1440)%nat ->
    fold_left update_health_history statuses h
    = drop (length h + length statuses - 1440) (h ++ statuses).
Proof.
  induction statuses as [| s rest IH]; intros h Hlen.
  - cbn. rewrite app_nil_r.
    replace (length h + 0 - 1440)%nat with 0%nat by lia. reflexivity.
  - cbn [fold_left length].
    destruct (update_health_history_step h s Hlen) as [Hlen' Hdrop].
    rewrite (IH _ Hlen'). apply Hdrop.
Qed.

Lemma last_drop_lt {A} (l : list A) :
  forall n : nat, (n < length l)%nat -> last (drop n l) = last l.
Proof.
  induction l as [| x l IH]; intros n Hn; [cbn in Hn; lia |].
  destruct n as [| n]; [reflexivity |].
  cbn [drop]. rewrite IH by (cbn in Hn; lia).
  destruct l; [cbn in Hn; lia | reflexivity].
Qed.

(** X24.  The health history never holds more than 1440 statuses, and what
    it holds is the latest ones: after any number of statuses came in
    through [_update_health_history], starting from the empty history, the
    history is the last 1440 of them (all of them while there are fewer),
    oldest first, and [get_current_health] reports the one that came in
    last. *)
Theorem health_history_keeps_the_latest (statuses : list HealthStatus) :
  history_after statuses = drop (length statuses - 1440) statuses /\
  (length (history_after statuses) <= 1440)%nat /\
  get_current_health (history_after statuses) = get_current_health statuses.
Proof.
  assert (Hdrop : history_after statuses
                  = drop (length statuses - 1440) statuses).
  { unfold history_after. rewrite fold_update_drop by (cbn; lia). reflexivity. }
  split; [exact Hdrop |]. split.
  - rewrite Hdrop, length_drop. lia.
  - unfold get_current_health. rewrite Hdrop.
    destruct (decide (length statuses <= 1440)%nat) as [Hle | Hgt].
    + replace (length statuses - 1440)%nat with 0%nat by lia. reflexivity.
    + rewrite last_drop_lt by lia. reflexivity.
Qed.

(** *** The alerts *)

Lemma alert_runs (cb : alert_callback) (status : HealthStatus) (tr : list event) :
  exists more,
    alert cb status tr = (Returned tt, (tr ++ more)%list) /\
    alerted more = [ac_id cb].
Proof.
  unfold alert, try_except, bind, modify, raise, ret.
  destruct (ac_raises cb status); cbn.
  - exists [Alerted (ac_id cb); AlertFailed (ac_id cb)].
    now rewrite <- app_assoc.
  - now exists [Alerted (ac_id cb)].
Qed.

Lemma alerted_app (tr1 tr2 : list event) :
  alerted (tr1 ++ tr2) = (alerted tr1 ++ alerted tr2)%list.
Proof. unfold alerted. apply flat_map_app. Qed.

(** One failing callback does not keep the following ones from running. *)
Lemma alerts_all_run (cbs : list alert_callback) (status : HealthStatus) :
  forall tr,
    exists more,
      for_each cbs (fun cb => alert cb status) tr = (Returned tt, (tr ++ more)%list) /\
      alerted more = map ac_id cbs.
Proof.
  induction cbs as [| cb rest IH]; intros tr; cbn [for_each].
  - exists []. now rewrite app_nil_r.
  - destruct (alert_runs cb status tr) as (m1 & Hrun1 & Hm1).
    destruct (IH (tr ++ m1)%list) as (m2 & Hrun2 & Hm2).
    exists (m1 ++ m2)%list. split.
    + unfold bind. rewrite Hrun1, Hrun2. now rewrite app_assoc.
    + rewrite alerted_app, Hm1, Hm2. reflexivity.
Qed.

Section Evaluate.
Variable fmt_1f : Q -> string.

Lemma status_tells_issues t now r h :
  check_system_health fmt_1f t now r = Some h ->
  existsb (String.eqb (status h)) ["warning"; "critical"]
  = match issues h with [] => false | _ :: _ => true end.
Proof.
  intros Hh.
  destruct (check_system_health_inv fmt_1f t now r h Hh) as [-> ->].
  unfold overall_status.
  destruct (existsb is_critical_issue (collect_issues fmt_1f t r)) eqn:E.
  - destruct (collect_issues fmt_1f t r); [discriminate | reflexivity].
  - destruct (collect_issues fmt_1f t r); reflexivity.
Qed.

(** X25.  For a status that [_check_system_health] produced,
    [_check_alerts] enters the registered callbacks exactly when the status
    lists an issue: with no issue none is entered, and otherwise every
    callback is entered once, in the order of registration, whether or not
    an earlier one raised; and [_check_alerts] itself never raises. *)
Theorem alerts_follow_issues t now r h (cbs : list alert_callback)
    (tr : list event) :
  check_system_health fmt_1f t now r = Some h ->
  exists more,
    check_alerts cbs h tr = (Returned tt, (tr ++ more)%list) /\
    alerted more = match issues h with
                   | [] => []
                   | _ :: _ => map ac_id cbs
                   end.
Proof.
  intros Hh. unfold check_alerts.
  rewrite (status_tells_issues t now r h Hh).
  destruct (issues h).
  - exists []. now rewrite app_nil_r.
  - apply alerts_all_run.
Qed.

Lemma single_or_none_nil {A} (b : bool) (x : A) :
  (if b then [x] else []) = [] <-> b = false.
Proof. destruct b; split; congruence. Qed.

Lemma service_issues_nil (r : Readings) :
  service_issues (check_critical_services r) = []
  <-> forall service, In service critical_services ->
                      service_check_raises r service = false.
Proof.
  unfold check_critical_services.
  induction critical_services as [| s names IH]; cbn.
  - split; [intros _ service [] | reflexivity].
  - destruct (service_check_raises r s) eqn:Hs; cbn.
    + split; [discriminate |]. intros Hall.
      rewrite (Hall s) in Hs by now left. discriminate.
    + rewrite IH. split.
      * intros Hall service [<- | Hin]; [exact Hs | now apply Hall].
      * intros Hall service Hin. apply Hall. now right.
Qed.

(** X26.  A status that [_check_system_health] produced is "healthy"
    exactly when it lists no issue, and it lists no issue exactly when the
    sample is within every threshold: free disk space not below the
    minimum, memory and CPU usage not above their maxima, the temperature
    reading (if there is one) not above its maximum, and every critical
    service answering. *)
Theorem healthy_means_within_thresholds t now r h :
  check_system_health fmt_1f t now r = Some h ->
  (status h = "healthy" <-> issues h = []) /\
  (issues h = [] <-> within_thresholds t r).
Proof.
  intros Hh.
  destruct (check_system_health_inv fmt_1f t now r h Hh) as [-> ->].
  split.
  - unfold overall_status.
    destruct (existsb is_critical_issue (collect_issues fmt_1f t r)) eqn:E.
    + destruct (collect_issues fmt_1f t r); [discriminate |].
      split; discriminate.
    + destruct (collect_issues fmt_1f t r); split; congruence.
  - unfold collect_issues, within_thresholds.
    rewrite !app_nil. unfold disk_issues, memory_issues, cpu_issues.
    rewrite !single_or_none_nil, service_issues_nil.
    rewrite Z.ltb_ge. unfold Py.gtb. rewrite !PyFacts.ltb_ge.
    assert (Htemp : temperature_issues fmt_1f t r = []
                    <-> forall temp, read_cpu_temp r = Some temp ->
                                     (temp <= max_cpu_temp t)%Q).
    { unfold temperature_issues.
      destruct (read_cpu_temp r) as [temp |].
      - unfold Py.gtb. rewrite single_or_none_nil, PyFacts.ltb_ge. split.
        + intros Hle temp' Heq. now inversion Heq; subst.
        + intros Hall. now apply Hall.
      - split; [intros _ temp Heq; discriminate | reflexivity]. }
    rewrite Htemp. tauto.
Qed.

End Evaluate.

Lemma alerts_follow_issues_witness :
  exists h more,
    check_system_health fmt_tenths default_thresholds 0 low_disk_readings
    = Some h /\
    check_alerts watchers h [] = (Returned tt, more) /\
    alerted more = [1%nat; 2%nat].
Proof.
  destruct (check_system_health_total fmt_tenths default_thresholds 0
              low_disk_readings _ eq_refl) as [h Hh].
  destruct (alerts_follow_issues fmt_tenths default_thresholds 0
              low_disk_readings h watchers [] Hh) as (more & Hrun & Halerted).
  exists h, more. split; [exact Hh |]. split; [exact Hrun |].
  rewrite Halerted.
  destruct (check_system_health_inv fmt_tenths _ _ _ _ Hh) as [-> _].
  vm_compute. reflexivity.
Defined.

Lemma healthy_means_within_thresholds_witness :
  exists h,
    check_system_health fmt_tenths default_thresholds 0 calm_readings = Some h /\
    (status h = "healthy" <-> issues h = []) /\
    (issues h = [] <-> within_thresholds default_thresholds calm_readings).
Proof.
  destruct (check_system_health_total fmt_tenths default_thresholds 0
              calm_readings _ eq_refl) as [h Hh].
  exists h. split; [exact Hh |].
  exact (healthy_means_within_thresholds fmt_tenths default_thresholds 0
           calm_readings h Hh).
Defined.

Example calm_host_is_healthy :
  option_map status
    (check_system_health fmt_tenths default_thresholds 0 calm_readings)
  = Some "healthy".
Proof. vm_compute. reflexivity. Qed.

End HealthHistoryFacts.

(** ** Latency: timing operations and summing up *)

Module LatencyFacts.
Import Latency.
Local Open Scope string_scope.

Lemma last_deque_append (items : list LatencyRecord) (x : LatencyRecord) :
  last (deque_append history_size items x) = Some x.
Proof.
  unfold deque_append, history_size. cbn [Z.eqb].
  destruct (_ >=? _)%Z; apply last_snoc.
Qed.

Lemma length_deque_append (items : list LatencyRecord) (x : LatencyRecord) :
  (length items <= 1000)%nat ->
  (length (deque_append history_size items x) <= 1000)%nat.
Proof.
  intros Hlen. unfold deque_append, history_size. cbn [Z.eqb].
  destruct (Z.of_nat (length items) >=? 1000)%Z eqn:E.
  - rewrite length_app. destruct items; cbn in *; lia.
  - rewrite Z.geb_leb in E. apply Z.leb_gt in E.
    rewrite length_app. cbn. lia.
Qed.

Lemma end_after_start (m : Monitor) (op path : string) (t0 t1 : Q) :
  end_operation (start_operation m op path t0) op path t1
  = (Some ((t1 - t0) * 1000)%Q,
     {| max_latency := max_latency m;
        latency_history :=
          deque_append history_size (latency_history m) (mkRecord op t0 t1 path);
        current_operations :=
          delete (operation_id op path)
                 (<[operation_id op path := t0]> (current_operations m)) |}).
Proof.
  unfold end_operation, start_operation. cbn [current_operations].
  rewrite lookup_insert_eq. reflexivity.
Qed.

(** X27.  An operation that was started is timed once.  After
    [start_operation] at reading [t0], [end_operation] for the same
    operation and path at reading [t1] returns the elapsed time in
    milliseconds and puts the record at the end of the history; a second
    [end_operation] for it returns None and changes nothing. *)
Theorem started_operation_is_timed_once (m : Monitor) (op path : string)
    (t0 t1 t2 : Q) :
  let m1 := start_operation m op path t0 in
  let m2 := snd (end_operation m1 op path t1) in
  fst (end_operation m1 op path t1) = Some ((t1 - t0) * 1000)%Q /\
  last (latency_history m2) = Some (mkRecord op t0 t1 path) /\
  end_operation m2 op path t2 = (None, m2).
Proof.
  cbv zeta. rewrite end_after_start. cbn [fst snd latency_history].
  split; [reflexivity |]. split; [apply last_deque_append |].
  unfold end_operation. cbn [current_operations].
  now rewrite lookup_delete_eq.
Qed.

Lemma step_history_bounded (m : Monitor) (c : call) :
  (length (latency_history m) <= 1000)%nat ->
  (length (latency_history (step m c)) <= 1000)%nat.
Proof.
  intros Hlen. destruct c as [op path now | op path now |]; cbn.
  - exact Hlen.
  - unfold end_operation.
    destruct (current_operations m !! operation_id op path); cbn; [| exact Hlen].
    now apply length_deque_append.
  - lia.
Qed.

Lemma run_history_bounded (cs : list call) :
  forall m,
    (length (latency_history m) <= 1000)%nat ->
    (length (latency_history (run cs m)) <= 1000)%nat.
Proof.
  induction cs as [| c cs IH]; intros m Hlen; [exact Hlen |].
  apply IH. now apply step_history_bounded.
Qed.

Lemma total_operations_length (m : Monitor) :
  st_total_operations (get_statistics m)
  = Z.of_nat (length (latency_history m)).
Proof.
  unfold get_statistics.
  destruct (latency_history m) as [| r rest]; [reflexivity |].
  cbn. now rewrite length_map.
Qed.

(** X28.  The latency history never holds more than 1000 records: from
    [__init__] on, through any sequence of [start_operation],
    [end_operation] and [clear_history] calls, its length, which is the
    [total_operations] that [get_statistics] reports, is at most 1000. *)
Theorem latency_history_is_bounded (limit : Q) (cs : list call) :
  let m := run cs (init limit) in
  (length (latency_history m) <= 1000)%nat /\
  (0 <= st_total_operations (get_statistics m) <= 1000)%Z.
Proof.
  cbv zeta.
  pose proof (run_history_bounded cs (init limit) ltac:(cbn; lia)) as Hlen.
  split; [exact Hlen |]. rewrite total_operations_length. lia.
Qed.

(** *** The statistics *)

Lemma minimum_le (rest : list Q) :
  forall x : Q,
    (minimum x rest <= x)%Q /\
    forall y, In y rest -> (minimum x rest <= y)%Q.
Proof.
  unfold minimum. induction rest as [| z rest IH]; intros x; cbn [fold_left].
  - split; [apply Qle_refl | intros y []].
  - destruct (IH (if Py.ltb z x then z else x)) as [Hx Hrest].
    assert (Hstep : ((if Py.ltb z x then z else x) <= x)%Q /\
                    ((if Py.ltb z x then z else x) <= z)%Q).
    { destruct (Py.ltb z x) eqn:E.
      - apply PyFacts.ltb_lt in E. split; lra.
      - apply PyFacts.ltb_ge in E. split; lra. }
    split; [lra |].
    intros y [<- | Hy]; [lra | now apply Hrest].
Qed.

Lemma maximum_ge (rest : list Q) :
  forall x : Q,
    (x <= maximum x rest)%Q /\
    forall y, In y rest -> (y <= maximum x rest)%Q.
Proof.
  unfold maximum. induction rest as [| z rest IH]; intros x; cbn [fold_left].
  - split; [apply Qle_refl | intros y []].
  - destruct (IH (if Py.gtb z x then z else x)) as [Hx Hrest].
    assert (Hstep : (x <= (if Py.gtb z x then z else x))%Q /\
                    (z <= (if Py.gtb z x then z else x))%Q).
    { destruct (Py.gtb z x) eqn:E.
      - apply PyFacts.gtb_gt in E. split; lra.
      - unfold Py.gtb in E. apply PyFacts.ltb_ge in E. split; lra. }
    split; [lra |].
    intros y [<- | Hy]; [lra | now apply Hrest].
Qed.

Lemma total_bounds (data : list Q) (lo hi : Q) :
  (forall x, In x data -> (lo <= x <= hi)%Q) ->
  (inject_Z (Z.of_nat (length data)) * lo <= total data
   <= inject_Z (Z.of_nat (length data)) * hi)%Q.
Proof.
  unfold total. induction data as [| x data IH]; intros Hall.
  - cbn. change (inject_Z 0) with 0%Q. rewrite !Qmult_0_l.
    split; apply Qle_refl.
  - cbn [length fold_right].
    rewrite Nat2Z.inj_succ, <- Z.add_1_r, inject_Z_plus.
    destruct IH as [Hlo Hhi]; [intros y Hy; apply Hall; now right |].
    destruct (Hall x ltac:(now left)) as [Hxlo Hxhi].
    change (inject_Z 1) with 1%Q. split; lra.
Qed.

Lemma mean_bounds (data : list Q) (lo hi : Q) :
  data <> [] ->
  (forall x, In x data -> (lo <= x <= hi)%Q) ->
  (lo <= mean data <= hi)%Q.
Proof.
  intros Hne Hall. unfold mean.
  destruct (total_bounds data lo hi Hall) as [Hlo Hhi].
  assert (Hn : (0 < inject_Z (Z.of_nat (length data)))%Q).
  { rewrite <- (Zlt_Qlt 0). destruct data; [congruence | cbn; lia]. }
  split.
  - apply Qle_shift_div_l; [exact Hn | lra].
  - apply Qle_shift_div_r; [exact Hn | lra].
Qed.

Lemma insert_sorted_In (x y : Q) (l : list Q) :
  In y (insert_sorted x l) <-> y = x \/ In y l.
Proof.
  induction l as [| z l IH]; cbn; [intuition congruence |].
  destruct (Py.ltb x z); cbn; [intuition congruence |].
  rewrite IH. intuition congruence.
Qed.

Lemma sorted_In (y : Q) (data : list Q) : In y (sorted data) <-> In y data.
Proof.
  unfold sorted. induction data as [| x data IH]; cbn; [tauto |].
  rewrite insert_sorted_In, IH. intuition congruence.
Qed.

Lemma insert_sorted_length (x : Q) (l : list Q) :
  length (insert_sorted x l) = S (length l).
Proof.
  induction l as [| z l IH]; cbn; [reflexivity |].
  destruct (Py.ltb x z); cbn; [reflexivity | now rewrite IH].
Qed.

Lemma sorted_length (data : list Q) : length (sorted data) = length data.
Proof.
  unfold sorted. induction data as [| x data IH]; cbn; [reflexivity |].
  now rewrite insert_sorted_length, IH.
Qed.

Lemma nth_sorted_bounds (data : list Q) (lo hi : Q) (i : nat) :
  (forall x, In x data -> (lo <= x <= hi)%Q) ->
  (i < length data)%nat ->
  (lo <= nth i (sorted data) 0 <= hi)%Q.
Proof.
  intros Hall Hi. apply Hall, sorted_In, nth_In.
  now rewrite sorted_length.
Qed.

Lemma median_bounds (data : list Q) (lo hi : Q) :
  data <> [] ->
  (forall x, In x data -> (lo <= x <= hi)%Q) ->
  (lo <= median data <= hi)%Q.
Proof.
  intros Hne Hall. unfold median.
  assert (Hpos : (0 < length data)%nat) by (destruct data; [congruence | cbn; lia]).
  assert (Hhalf : (length data / 2 < length data)%nat)
    by (apply Nat.div_lt; lia).
  destruct (Nat.odd (length data)).
  - now apply nth_sorted_bounds.
  - destruct (nth_sorted_bounds data lo hi (length data / 2 - 1) Hall)
      as [H1 H2]; [lia |].
    destruct (nth_sorted_bounds data lo hi (length data / 2) Hall)
      as [H3 H4]; [exact Hhalf |].
    split.
    + apply Qle_shift_div_l; lra.
    + apply Qle_shift_div_r; lra.
Qed.

Lemma count_violations_bounds (limit : Q) (durations : list Q) :
  (0 <= count_violations limit durations <= Z.of_nat (length durations))%Z.
Proof.
  unfold count_violations. split; [lia |].
  apply Nat2Z.inj_le.
  induction durations as [| d rest IH]; cbn; [lia |].
  destruct (Py.gtb d limit); cbn; lia.
Qed.

(** X29.  The statistics of [get_statistics] hang together, for every
    monitor: the number of violations is between zero and the number of
    operations, the average and the median lie between the minimum and the
    maximum, and the violation rate that [get_performance_stats] derives
    from them is between 0 and 1 (0 when there is no operation: no division
    by zero). *)
Theorem latency_statistics_are_consistent (m : Monitor) :
  let s := get_statistics m in
  (0 <= st_violations s <= st_total_operations s)%Z /\
  (st_min s <= st_average s <= st_max s)%Q /\
  (st_min s <= st_median s <= st_max s)%Q /\
  (0 <= violation_rate (latency_report m) <= 1)%Q.
Proof.
  cbv zeta. unfold latency_report, get_statistics. cbn [violation_rate].
  destruct (map duration (latency_history m)) as [| d rest] eqn:Hd.
  - cbn. repeat split; try lia; try lra; discriminate.
  - cbn [st_violations st_total_operations st_min st_average st_median st_max].
    pose proof (count_violations_bounds (max_latency m) (d :: rest)) as Hcount.
    assert (Hall : forall x, In x (d :: rest) ->
                             (minimum d rest <= x <= maximum d rest)%Q).
    { destruct (minimum_le rest d) as [Hd1 Hr1].
      destruct (maximum_ge rest d) as [Hd2 Hr2].
      intros x [<- | Hx]; split; auto. }
    split; [exact Hcount |].
    split; [apply mean_bounds; [discriminate | exact Hall] |].
    split; [apply median_bounds; [discriminate | exact Hall] |].
    assert (Hn : (0 < Z.of_nat (length (d :: rest)))%Z) by (cbn; lia).
    apply Z.gtb_lt in Hn as Hgt. rewrite Hgt.
    assert (HnQ : (0 < inject_Z (Z.of_nat (length (d :: rest))))%Q)
      by now rewrite <- (Zlt_Qlt 0).
    destruct Hcount as [Hc0 Hc1].
    rewrite Zle_Qle in Hc0, Hc1. change (inject_Z 0) with 0%Q in Hc0.
    split.
    + apply Qle_shift_div_l; [exact HnQ | lra].
    + apply Qle_shift_div_r; [exact HnQ | lra].
Qed.

Example timed_statistics :
  let m := run timed (init 100) in
  st_total_operations (get_statistics m) = 3%Z /\
  st_violations (get_statistics m) = 1%Z /\
  Qeq_bool (st_median (get_statistics m)) 50 = true /\
  Qeq_bool (violation_rate (latency_report m)) (1 # 3) = true.
Proof. vm_compute. repeat split; reflexivity. Qed.

End LatencyFacts.
